(** * Portfolio refresh daemon: a shallow embedding of [daemon.py] and of the
    schema of [init_db.py], with the properties of the refresh core.

    Conventions of the model.
    - Python floats are IEEE 754 binary64 numbers: [pyfloat] is the kernel's
      type of binary64 floats, with its rounding arithmetic.  A decimal
      constant denotes the nearest binary64 number, as in Python.  [NaN] is
      the value pandas uses for a missing cell; the [sqlite3] module binds it
      as SQL NULL.
    - A Python value that may be [None] is an [option]; a key of a [dict] is
      an [entry]: missing, or holding a value that may be [None].
    - Readings of [time.time()] are rationals.  The one computation on them
      is the difference of two readings of the same clock in line 223; both
      are seconds since the epoch, of the same magnitude, and binary64
      subtraction gives their difference exactly.
    - Text is [string]; case mapping and whitespace are the ASCII ones.
    - An [except Exception] handler is modelled by an error monad that keeps
      the effects performed before the exception was raised.
    - The SQLite store is a record of tables (lists of rows, in insertion
      order) with the keys declared in [init_db.py]. *)

From Stdlib Require Import List String Ascii Bool ZArith QArith Qminmax Qabs Qpower Lia Lqa.
From Stdlib Require Import Floats Sorted.
Import ListNotations.

Set Warnings "-inexact-float".

Open Scope string_scope.
Open Scope list_scope.
Open Scope Z_scope.

(** ** Python values *)

Definition pyfloat : Type := PrimFloat.float.
Bind Scope float_scope with pyfloat.

Definition NaN : pyfloat := nan.

(** Python exceptions carry a message. *)
Definition exn : Type := string.

Inductive result (A : Type) : Type :=
| Ok (a : A)
| Raise (e : exn).
Arguments Ok {A} a.
Arguments Raise {A} e.

(** [x == 0] on a float: true on both zeros, false on [NaN]. *)
Definition is_zero (x : pyfloat) : bool := PrimFloat.eqb x 0.

(** [x * y], [x + y], [x - y] and [abs(x)] on floats, rounded to nearest. *)
Definition fmul (x y : pyfloat) : pyfloat := PrimFloat.mul x y.

Definition fadd (x y : pyfloat) : pyfloat := PrimFloat.add x y.

Definition fsub (x y : pyfloat) : pyfloat := PrimFloat.sub x y.

Definition py_abs (x : pyfloat) : pyfloat := PrimFloat.abs x.

(** [0 <= x] as Python evaluates it: false on [NaN]. *)
Definition is_nonneg (x : pyfloat) : bool := PrimFloat.leb 0 x.

(** [x < 0] as Python evaluates it: false on [NaN]. *)
Definition is_negative (x : pyfloat) : bool := PrimFloat.ltb x 0.

(** [min(a, b)]: the first argument unless the second is smaller. *)
Definition py_min (a b : pyfloat) : pyfloat := if PrimFloat.ltb b a then b else a.

(** [b or 1.0] for [b] a float or [None]: [None] and zero are falsy. *)
Definition or_default (b : option pyfloat) (dflt : pyfloat) : pyfloat :=
  match b with
  | None => dflt
  | Some x => if is_zero x then dflt else x
  end.

(** [x * y] for [y] a float or [None]. *)
Definition py_mul (x : pyfloat) (y : option pyfloat) : result pyfloat :=
  match y with
  | Some y => Ok (fmul x y)
  | None => Raise "TypeError: unsupported operand type(s) for *: 'float' and 'NoneType'"
  end.

(** A key of a [dict]: missing, or holding a value, which may be [None]. *)
Inductive entry (A : Type) : Type :=
| Missing
| Holds (v : option A).
Arguments Missing {A}.
Arguments Holds {A} v.

(** [d.get(key, default)] *)
Definition dict_get {A : Type} (e : entry A) (default : option A) : option A :=
  match e with
  | Missing => default
  | Holds v => v
  end.

(** ** Strings: [str.upper] and [str.strip] on ASCII text *)

Definition is_lower (c : ascii) : bool :=
  let n := nat_of_ascii c in ((97 <=? n) && (n <=? 122))%nat.

Definition ascii_upper (c : ascii) : ascii :=
  if is_lower c then ascii_of_nat (nat_of_ascii c - 32) else c.

Fixpoint upper (s : string) : string :=
  match s with
  | EmptyString => EmptyString
  | String c s' => String (ascii_upper c) (upper s')
  end.

Fixpoint has_lower (s : string) : bool :=
  match s with
  | EmptyString => false
  | String c s' => is_lower c || has_lower s'
  end.

(** ASCII characters for which [str.isspace] holds. *)
Definition is_space (c : ascii) : bool :=
  let n := nat_of_ascii c in
  (((9 <=? n) && (n <=? 13)) || ((28 <=? n) && (n <=? 32)))%nat.

Fixpoint lstrip (s : string) : string :=
  match s with
  | EmptyString => EmptyString
  | String c s' => if is_space c then lstrip s' else s
  end.

Fixpoint rstrip (s : string) : string :=
  match s with
  | EmptyString => EmptyString
  | String c s' =>
      match rstrip s' with
      | EmptyString => if is_space c then EmptyString else String c EmptyString
      | r => String c r
      end
  end.

Definition strip (s : string) : string := rstrip (lstrip s).

(** ** pandas: a row of a statement frame *)

(** A [Series]: index labels with their cells, in index order.  Labels may
    repeat (after stripping, two labels can coincide). *)
Definition Series : Type := list (string * pyfloat).

(** What indexing a [Series] by label returns: a scalar for a label that
    occurs once, a sub-series for a label that occurs several times. *)
Inductive pyobj : Type :=
| Scalar (x : pyfloat)
| SubSeries (xs : list pyfloat).

(** [row.index = row.index.str.strip()] *)
Definition strip_index (row : Series) : Series :=
  map (fun kv => (strip (fst kv), snd kv)) row.

Definition labels (row : Series) : list string := map fst row.

Definition cells_at (row : Series) (key : string) : list pyfloat :=
  map snd (filter (fun kv => String.eqb (fst kv) key) row).

(** [row.get(key, default)]: the cell when the label is present (whatever
    the cell holds, [NaN] included), the default when it is absent. *)
Definition Series_get (row : Series) (key : string) (default : pyobj) : pyobj :=
  match cells_at row key with
  | [] => default
  | [x] => Scalar x
  | xs => SubSeries xs
  end.

(** [float(o)]: a sub-series of several cells cannot be converted. *)
Definition float (o : pyobj) : result pyfloat :=
  match o with
  | Scalar x => Ok x
  | SubSeries _ => Raise "TypeError: cannot convert the series to <class 'float'>"
  end.

(** The fallback chain [row.get(c1, row.get(c2, ... d))] of the statement
    metrics, for a chain of any length. *)
Fixpoint resolve_field (row : Series) (chain : list string) (default : pyobj) : pyobj :=
  match chain with
  | [] => default
  | c :: cs => Series_get row c (resolve_field row cs default)
  end.

(** ** The SQLite store: the schema of [init_db.py] *)

(** [prices (ticker TEXT PRIMARY KEY, date, close, last_updated)] *)
Record prices_row : Type := mk_prices_row {
  p_ticker : string;
  p_date : string;
  p_close : pyfloat;
  p_last_updated : string
}.

(** [price_history (ticker, date, close, last_updated, PRIMARY KEY (ticker, date))] *)
Record price_history_row : Type := mk_price_history_row {
  ph_ticker : string;
  ph_date : string;
  ph_close : pyfloat;
  ph_last_updated : string
}.

(** [update_requests (id INTEGER PRIMARY KEY AUTOINCREMENT, ticker,
    requested_at, processed INTEGER DEFAULT 0)] *)
Record update_requests_row : Type := mk_update_requests_row {
  ur_id : Z;
  ur_ticker : string;
  ur_requested_at : string;
  ur_processed : Z
}.

(** [stocks (ticker TEXT PRIMARY KEY, name TEXT, currency TEXT, sector TEXT,
    shares_outstanding REAL, ...)]: no column but the key is declared NOT
    NULL; a parameter bound to [None] is stored as NULL. *)
Record stocks_row : Type := mk_stocks_row {
  s_ticker : string;
  s_name : option string;
  s_currency : option string;
  s_sector : option string;
  s_shares_outstanding : option pyfloat;
  s_price : pyfloat;
  s_market_cap : option pyfloat;
  s_beta : option pyfloat;
  s_growth_rate : pyfloat;
  s_discount_rate : pyfloat;
  s_tax_rate : pyfloat;
  s_last_updated : string
}.

(** [balance_sheet (id INTEGER PRIMARY KEY AUTOINCREMENT, ticker, date, ...)]:
    the only key is [id]; there is no uniqueness on [(ticker, date)].  The
    FOREIGN KEY clause of the three statement tables is not enforced by a
    connection that does not turn foreign keys on, as here. *)
Record balance_sheet_row : Type := mk_balance_sheet_row {
  bs_id : Z;
  bs_ticker : string;
  bs_date : string;
  bs_total_assets : pyfloat;
  bs_total_liabilities : pyfloat;
  bs_total_debt : pyfloat;
  bs_total_cash : pyfloat
}.

Record income_statement_row : Type := mk_income_statement_row {
  inc_id : Z;
  inc_ticker : string;
  inc_date : string;
  inc_ebit : pyfloat;
  inc_ebitda : pyfloat;
  inc_net_income : pyfloat;
  inc_total_revenue : pyfloat
}.

Record cashflow_statement_row : Type := mk_cashflow_statement_row {
  cf_id : Z;
  cf_ticker : string;
  cf_date : string;
  cf_operating_cash_flow : pyfloat;
  cf_capital_expenditures : pyfloat
}.

(** The database: the tables, and for each AUTOINCREMENT table the largest
    row id ever handed out (SQLite's [sqlite_sequence]). *)
Record db : Type := mk_db {
  prices : list prices_row;
  price_history : list price_history_row;
  update_requests : list update_requests_row;
  update_requests_seq : Z;
  stocks : list stocks_row;
  balance_sheet : list balance_sheet_row;
  balance_sheet_seq : Z;
  income_statement : list income_statement_row;
  income_statement_seq : Z;
  cashflow_statement : list cashflow_statement_row;
  cashflow_statement_seq : Z
}.

(** The database [init_db] creates: every table empty. *)
Definition init_db : db :=
  mk_db [] [] [] 0 [] [] 0 [] 0 [] 0.

(** The row id an AUTOINCREMENT table gives to a row inserted without one:
    one more than the largest id ever used in the table. *)
Definition next_rowid (seq : Z) (ids : list Z) : Z :=
  Z.max seq (fold_right Z.max 0 ids) + 1.

(** The statements [daemon.py] executes, with their bound parameters.  The
    values SQLite computes itself ([DATE('now')], [CURRENT_TIMESTAMP]) are
    carried as the reading of SQLite's clock at execution. *)
Inductive stmt : Type :=
| INSERT_OR_REPLACE_stocks
    (ticker : string) (name currency sector : option string)
    (shares : option pyfloat) (price : pyfloat) (market_cap beta : option pyfloat)
    (growth_rate discount_rate tax_rate : pyfloat) (current_timestamp : string)
| INSERT_OR_REPLACE_prices
    (ticker date : string) (close : pyfloat) (current_timestamp : string)
| INSERT_OR_IGNORE_price_history
    (ticker date_now : string) (close : pyfloat) (current_timestamp : string)
| INSERT_OR_REPLACE_balance_sheet
    (ticker date : string)
    (total_assets total_liabilities total_debt total_cash : pyfloat)
| INSERT_OR_REPLACE_income_statement
    (ticker date : string) (ebit ebitda net_income total_revenue : pyfloat)
| INSERT_OR_REPLACE_cashflow_statement
    (ticker date : string) (operating_cash_flow capital_expenditures : pyfloat)
| DELETE_update_requests (id : Z).

(** The ticker a statement writes under. *)
Definition stmt_ticker (s : stmt) : option string :=
  match s with
  | INSERT_OR_REPLACE_stocks t _ _ _ _ _ _ _ _ _ _ _ => Some t
  | INSERT_OR_REPLACE_prices t _ _ _ => Some t
  | INSERT_OR_IGNORE_price_history t _ _ _ => Some t
  | INSERT_OR_REPLACE_balance_sheet t _ _ _ _ _ => Some t
  | INSERT_OR_REPLACE_income_statement t _ _ _ _ _ => Some t
  | INSERT_OR_REPLACE_cashflow_statement t _ _ _ => Some t
  | DELETE_update_requests _ => None
  end.

Definition ph_has_key (t d : string) (r : price_history_row) : bool :=
  String.eqb (ph_ticker r) t && String.eqb (ph_date r) d.

(** Execution of one statement.  REPLACE removes the row that conflicts on
    the table's key and adds the new one; IGNORE leaves the table as it is
    when a row conflicts.  On the statement tables the key is the fresh
    [id], so nothing ever conflicts. *)
Definition exec (s : stmt) (d : db) : db :=
  match s with
  | INSERT_OR_REPLACE_stocks t name cur sec sh pr mc beta g dr tax ts =>
      mk_db (prices d) (price_history d) (update_requests d) (update_requests_seq d)
        (filter (fun r => negb (String.eqb (s_ticker r) t)) (stocks d)
           ++ [mk_stocks_row t name cur sec sh pr mc beta g dr tax ts])
        (balance_sheet d) (balance_sheet_seq d)
        (income_statement d) (income_statement_seq d)
        (cashflow_statement d) (cashflow_statement_seq d)
  | INSERT_OR_REPLACE_prices t date close ts =>
      mk_db
        (filter (fun r => negb (String.eqb (p_ticker r) t)) (prices d)
           ++ [mk_prices_row t date close ts])
        (price_history d) (update_requests d) (update_requests_seq d)
        (stocks d)
        (balance_sheet d) (balance_sheet_seq d)
        (income_statement d) (income_statement_seq d)
        (cashflow_statement d) (cashflow_statement_seq d)
  | INSERT_OR_IGNORE_price_history t today close ts =>
      mk_db (prices d)
        (if existsb (ph_has_key t today) (price_history d)
         then price_history d
         else price_history d ++ [mk_price_history_row t today close ts])
        (update_requests d) (update_requests_seq d)
        (stocks d)
        (balance_sheet d) (balance_sheet_seq d)
        (income_statement d) (income_statement_seq d)
        (cashflow_statement d) (cashflow_statement_seq d)
  | INSERT_OR_REPLACE_balance_sheet t date ta tl td tc =>
      let id := next_rowid (balance_sheet_seq d) (map bs_id (balance_sheet d)) in
      mk_db (prices d) (price_history d) (update_requests d) (update_requests_seq d)
        (stocks d)
        (balance_sheet d ++ [mk_balance_sheet_row id t date ta tl td tc]) id
        (income_statement d) (income_statement_seq d)
        (cashflow_statement d) (cashflow_statement_seq d)
  | INSERT_OR_REPLACE_income_statement t date ebit ebitda ni rev =>
      let id := next_rowid (income_statement_seq d) (map inc_id (income_statement d)) in
      mk_db (prices d) (price_history d) (update_requests d) (update_requests_seq d)
        (stocks d)
        (balance_sheet d) (balance_sheet_seq d)
        (income_statement d ++ [mk_income_statement_row id t date ebit ebitda ni rev]) id
        (cashflow_statement d) (cashflow_statement_seq d)
  | INSERT_OR_REPLACE_cashflow_statement t date ocf capex =>
      let id := next_rowid (cashflow_statement_seq d) (map cf_id (cashflow_statement d)) in
      mk_db (prices d) (price_history d) (update_requests d) (update_requests_seq d)
        (stocks d)
        (balance_sheet d) (balance_sheet_seq d)
        (income_statement d) (income_statement_seq d)
        (cashflow_statement d ++ [mk_cashflow_statement_row id t date ocf capex]) id
  | DELETE_update_requests id =>
      mk_db (prices d) (price_history d)
        (filter (fun r => negb (ur_id r =? id)) (update_requests d))
        (update_requests_seq d)
        (stocks d)
        (balance_sheet d) (balance_sheet_seq d)
        (income_statement d) (income_statement_seq d)
        (cashflow_statement d) (cashflow_statement_seq d)
  end.

(** Modelled from the spec: the producer of update requests (a GUI, not part
    of these sources) inserts a row with [processed = 0] and lets the table
    assign the id: [INSERT INTO update_requests (ticker) VALUES (?)]. *)
Definition enqueue_request (ticker requested_at : string) (d : db) : db :=
  let id := next_rowid (update_requests_seq d) (map ur_id (update_requests d)) in
  mk_db (prices d) (price_history d)
    (update_requests d ++ [mk_update_requests_row id ticker requested_at 0]) id
    (stocks d)
    (balance_sheet d) (balance_sheet_seq d)
    (income_statement d) (income_statement_seq d)
    (cashflow_statement d) (cashflow_statement_seq d).

(** [SELECT id, ticker FROM update_requests WHERE processed = 0] *)
Definition select_pending (d : db) : list (Z * string) :=
  map (fun r => (ur_id r, ur_ticker r))
      (filter (fun r => ur_processed r =? 0) (update_requests d)).

(** Insertion of a ticker into a list in key order: the order of the bytes
    of the text, a proper prefix first. *)
Fixpoint insert_in_key_order (t : string) (l : list string) : list string :=
  match l with
  | [] => [t]
  | u :: l' => if String.leb t u then t :: l else u :: insert_in_key_order t l'
  end.

Definition key_order (l : list string) : list string :=
  fold_right insert_in_key_order [] l.

(** [SELECT DISTINCT ticker FROM prices].  [ticker] is the TEXT PRIMARY KEY
    of [prices]; SQLite answers the query by a scan of the index of that
    key, so the tickers come in key order, not in the order of insertion. *)
Definition select_distinct_tickers (d : db) : list string :=
  key_order (nodup string_dec (map p_ticker (prices d))).

(** ** Effects of the daemon on its surroundings *)

Inductive logline : Type :=
| LOG_FUNDAMENTALS_ERROR (ticker : string) (e : exn)
| LOG_SKIP (ticker : string)
| LOG_SYNC (ticker : string)
| LOG_UPDATE (ticker : string) (price : pyfloat) (currency : option string)
| LOG_ERROR (ticker : string) (e : exn)
| LOG_REFRESH_EMPTY
| LOG_REFRESH (count : nat)
| LOG_WAKE (tickers : list string)
| LOG_INIT.

Inductive effect : Type :=
| Exec (s : stmt)
| Commit
| Close
| Print (l : logline).

(** A store seen through a connection: the committed database and the
    database as the open transaction sees it. *)
Record store : Type := mk_store {
  durable : db;
  working : db
}.

Definition apply_effect (s : store) (e : effect) : store :=
  match e with
  | Exec st => mk_store (durable s) (exec st (working s))
  | Commit => mk_store (working s) (working s)
  | Close => mk_store (durable s) (durable s)
  | Print _ => s
  end.

Definition run (es : list effect) (s : store) : store :=
  fold_left apply_effect es s.

(** Computations that perform effects and may raise: the effects performed
    before a [Raise] are kept. *)
Definition M (A : Type) : Type := (list effect * result A)%type.

Definition ret {A : Type} (a : A) : M A := ([], Ok a).

Definition bind {A B : Type} (m : M A) (f : A -> M B) : M B :=
  match m with
  | (w, Ok a) => (w ++ fst (f a), snd (f a))
  | (w, Raise e) => (w, Raise e)
  end.

Definition perform (e : effect) : M unit := ([e], Ok tt).

Definition lift {A : Type} (r : result A) : M A := ([], r).

(** [try: m  except Exception as e: h e] *)
Definition try_except {A : Type} (m : M A) (h : exn -> M A) : M A :=
  match m with
  | (w, Ok a) => (w, Ok a)
  | (w, Raise e) => (w ++ fst (h e), snd (h e))
  end.

Notation "x <- m ;; k" := (bind m (fun x => k))
  (at level 61, m at next level, right associativity).
Notation "m ;;; k" := (bind m (fun _ => k))
  (at level 61, right associativity).

(** [for x in xs: body x] *)
Fixpoint for_each {A : Type} (xs : list A) (body : A -> M unit) : M unit :=
  match xs with
  | [] => ret tt
  | x :: xs' => body x ;;; for_each xs' body
  end.

(** ** The market-data provider, as [daemon.py] consumes it *)

(** A statement frame after [.T]: one row per reporting period, with
    [str(date.date())] as its date. *)
Definition DataFrame : Type := list (string * Series).

(** [df.empty]: no period, or no field. *)
Definition df_empty (df : DataFrame) : bool :=
  match df with
  | [] => true
  | (_, []) :: _ => true
  | _ => false
  end.

(** The keys of [t.info] the daemon reads.  The provider gives a number, or
    [None], for the numeric keys and text, or [None], for the others, and it
    leaves out the keys it has nothing for. *)
Record Info : Type := mk_Info {
  sharesOutstanding : entry pyfloat;
  marketCap : entry pyfloat;
  beta : entry pyfloat;
  shortName : entry string;
  currency : entry string;
  sector : entry string
}.

(** The [dict] without keys. *)
Definition empty_info : Info := mk_Info Missing Missing Missing Missing Missing Missing.

(** What the attributes of a [yf.Ticker] answer: a value or an exception. *)
Record Ticker : Type := mk_Ticker {
  yf_fast_info_last_price : result (option pyfloat);
  yf_history_1d_Close : result (list pyfloat);
  yf_info : result (option Info);
  yf_balance_sheet : result (option DataFrame);
  yf_financials : result (option DataFrame);
  yf_cashflow : result (option DataFrame)
}.

(** The clocks read while one ticker is handled. *)
Record Clock : Type := mk_Clock {
  pd_Timestamp_now : string;
  sql_DATE_now : string;
  sql_CURRENT_TIMESTAMP : string
}.

Record Env : Type := mk_Env {
  yf_Ticker : string -> Ticker;
  clock : string -> Clock
}.

(** ** [daemon.py] *)

Definition BATCH_SIZE : nat := 50.
Definition SLEEP_IDLE : pyfloat := 5.0.
Definition SLEEP_ACTIVE : pyfloat := 0.2.
Definition REFRESH_INTERVAL : Q := 300.

Definition zero : pyobj := Scalar 0.0.

(** One row of [balance_sheet]. *)
Definition store_balance_sheet_row (ticker : string) (period : string * Series) : M unit :=
  let date := fst period in
  let row := strip_index (snd period) in
  total_assets <- lift (float (resolve_field row ["Total Assets"] zero)) ;;
  total_liabilities <- lift (float (resolve_field row
      ["Total Liabilities Net Minority Interest";
       "Total Non Current Liabilities Net Minority Interest"] zero)) ;;
  total_debt <- lift (float (resolve_field row ["Total Debt"; "Long Term Debt"] zero)) ;;
  total_cash <- lift (float (resolve_field row
      ["Cash And Cash Equivalents";
       "Cash Cash Equivalents And Short Term Investments"] zero)) ;;
  perform (Exec (INSERT_OR_REPLACE_balance_sheet ticker date
                   total_assets total_liabilities total_debt total_cash)).

Definition store_income_statement_row (ticker : string) (period : string * Series) : M unit :=
  let date := fst period in
  let row := strip_index (snd period) in
  ebit <- lift (float (resolve_field row ["EBIT"; "Operating Income"] zero)) ;;
  ebitda <- lift (float (resolve_field row ["EBITDA"; "Operating Income"] zero)) ;;
  net_income <- lift (float (resolve_field row
      ["Net Income"; "Net Income Continuous Operations"] zero)) ;;
  total_revenue <- lift (float (resolve_field row
      ["Total Revenue"; "Operating Revenue"] zero)) ;;
  perform (Exec (INSERT_OR_REPLACE_income_statement ticker date
                   ebit ebitda net_income total_revenue)).

Definition store_cashflow_statement_row (ticker : string) (period : string * Series) : M unit :=
  let date := fst period in
  let row := strip_index (snd period) in
  operating_cash_flow <- lift (float (resolve_field row
      ["Operating Cash Flow"; "Cash Flow From Continuing Operating Activities"] zero)) ;;
  capital_expenditure <- lift (float (resolve_field row
      ["Capital Expenditure"; "Net PPE Purchase And Sale"] zero)) ;;
  perform (Exec (INSERT_OR_REPLACE_cashflow_statement ticker date
                   operating_cash_flow (py_abs capital_expenditure))).

(** [x = t.<statement>; if x is not None and not x.empty: for date, row in
    x.T.iterrows(): ...] *)
Definition store_statement (frame : result (option DataFrame))
    (store_row : string * Series -> M unit) : M unit :=
  x <- lift frame ;;
  match x with
  | None => ret tt
  | Some df => if df_empty df then ret tt else for_each df store_row
  end.

(** The body of the [try] of [fetch_and_store_fundamentals]. *)
Definition fundamentals_body (t : Ticker) (ticker : string) : M unit :=
  store_statement (yf_balance_sheet t) (store_balance_sheet_row ticker) ;;;
  store_statement (yf_financials t) (store_income_statement_row ticker) ;;;
  store_statement (yf_cashflow t) (store_cashflow_statement_row ticker) ;;;
  perform Commit.

Definition fetch_and_store_fundamentals (t : Ticker) (ticker : string) : M unit :=
  try_except (fundamentals_body t ticker)
             (fun e => perform (Print (LOG_FUNDAMENTALS_ERROR ticker e))).

(** [df["Close"].iloc[-1]] when the frame is not empty. *)
Definition last_close (closes : list pyfloat) : option pyfloat :=
  match rev closes with
  | [] => None
  | c :: _ => Some c
  end.

(** [price is None or price == 0] *)
Definition none_or_zero (price : option pyfloat) : bool :=
  match price with
  | None => true
  | Some p => is_zero p
  end.

(** Lines 118-127: the fast path, then the daily close. *)
Definition resolve_price (t : Ticker) : M (option pyfloat) :=
  let price :=
    match yf_fast_info_last_price t with
    | Ok p => p
    | Raise _ => None
    end in
  if none_or_zero price then
    closes <- lift (yf_history_1d_Close t) ;;
    match last_close closes with
    | Some c => ret (Some c)
    | None => ret price
    end
  else ret price.

Definition growth_rate : pyfloat := 0.03.
Definition rf : pyfloat := 0.04.
Definition rm : pyfloat := 0.08.
Definition tax_rate : pyfloat := 0.21.

Definition get_or {A : Type} (x : option A) (default : A) : A :=
  match x with
  | Some a => a
  | None => default
  end.

(** The body of the per-ticker [try] of [fetch_and_store_batch].  The
    default of [info.get("marketCap", price * shares)] is computed before the
    lookup, whether the key is there or not, and it raises when [shares] is
    [None]. *)
Definition process_ticker (env : Env) (ticker : string) : M unit :=
  let t := yf_Ticker env ticker in
  price <- resolve_price t ;;
  match price with
  | None => perform (Print (LOG_SKIP ticker))
  | Some price =>
      let date := pd_Timestamp_now (clock env ticker) in
      info <- lift (yf_info t) ;;
      let info := get_or info empty_info in
      let shares := dict_get (sharesOutstanding info) (Some 0.0%float) in
      product <- lift (py_mul price shares) ;;
      let market_cap := dict_get (marketCap info) (Some product) in
      let beta := dict_get (beta info) None in
      let name := dict_get (shortName info) (Some ticker) in
      let cur := dict_get (currency info) (Some "USD") in
      let sector := dict_get (sector info) None in
      let discount_rate := fadd rf (fmul (or_default beta 1.0) (fsub rm rf)) in
      let ts := sql_CURRENT_TIMESTAMP (clock env ticker) in
      perform (Exec (INSERT_OR_REPLACE_stocks ticker name cur sector shares
                       price market_cap beta growth_rate discount_rate
                       tax_rate ts)) ;;;
      perform (Exec (INSERT_OR_REPLACE_prices ticker date price ts)) ;;;
      perform (Exec (INSERT_OR_IGNORE_price_history ticker
                       (sql_DATE_now (clock env ticker)) price ts)) ;;;
      perform (Print (LOG_SYNC ticker)) ;;;
      fetch_and_store_fundamentals t ticker ;;;
      perform (Print (LOG_UPDATE ticker price cur))
  end.

(** One turn of the [for ticker in tickers] loop, with its handler. *)
Definition ticker_block (env : Env) (ticker : string) : M unit :=
  try_except (process_ticker env ticker)
             (fun e => perform (Print (LOG_ERROR ticker e))).

Definition ticker_loop (env : Env) (tickers : list string) : M unit :=
  for_each tickers (ticker_block env).

(** [fetch_and_store_batch].  Opening the connection and the two PRAGMA
    statements change no table and are left out. *)
Definition fetch_and_store_batch (env : Env) (tickers : list string) : M unit :=
  match tickers with
  | [] => ret tt
  | _ :: _ =>
      let tickers := map upper tickers in
      ticker_loop env tickers ;;;
      perform Commit ;;;
      perform Close
  end.

(** [tickers[i:i + n] for i in range(0, len(tickers), n)] *)
Fixpoint batches {A : Type} (fuel n : nat) (xs : list A) : list (list A) :=
  match fuel with
  | O => []
  | S fuel' =>
      match xs with
      | [] => []
      | _ :: _ => firstn n xs :: batches fuel' n (skipn n xs)
      end
  end.

(** [refresh_all_tickers], reading the committed database [d]. *)
Definition refresh_all_tickers (env : Env) (d : db) : M unit :=
  let tickers := select_distinct_tickers d in
  perform Close ;;;
  match tickers with
  | [] => perform (Print LOG_REFRESH_EMPTY)
  | _ :: _ =>
      perform (Print (LOG_REFRESH (List.length tickers))) ;;;
      for_each (batches (List.length tickers) BATCH_SIZE tickers) (fetch_and_store_batch env)
  end.

(** The two variables of [run_daemon]. *)
Record daemon_state : Type := mk_daemon_state {
  last_refresh_time : Q;
  sleep_time : pyfloat
}.

Inductive branch : Type :=
| SERVICE_REQUESTS
| PERIODIC_REFRESH
| IDLE_BACKOFF.

(** One pass through the body of [while True], up to [time.sleep]: the new
    variables, the branch taken and the effects.  [d] is the committed
    database the new connection reads; [now] is [time.time()] in the [elif]
    test and [now'] is [time.time()] after the refresh. *)
Definition daemon_iteration (env : Env) (now now' : Q) (st : daemon_state) (d : db)
  : daemon_state * branch * M unit :=
  let requests := select_pending d in
  match requests with
  | _ :: _ =>
      let tickers := map snd requests in
      let request_ids := map fst requests in
      (mk_daemon_state (last_refresh_time st) SLEEP_ACTIVE,
       SERVICE_REQUESTS,
       for_each request_ids (fun rid => perform (Exec (DELETE_update_requests rid))) ;;;
       perform Commit ;;;
       perform Close ;;;
       perform (Print (LOG_WAKE tickers)) ;;;
       fetch_and_store_batch env tickers)
  | [] =>
      if Qle_bool REFRESH_INTERVAL (now - last_refresh_time st) then
        (mk_daemon_state now' (sleep_time st),
         PERIODIC_REFRESH,
         refresh_all_tickers env d ;;; perform Close)
      else
        (mk_daemon_state (last_refresh_time st)
                         (py_min (fmul (sleep_time st) 1.5) SLEEP_IDLE),
         IDLE_BACKOFF,
         perform Close)
  end.

(** The state of [run_daemon] when it enters the loop: [sleep_time] starts
    at [SLEEP_IDLE]; [t0] is [time.time()] after the first refresh. *)
Definition daemon_init (t0 : Q) : daemon_state := mk_daemon_state t0 SLEEP_IDLE.

(** [run_daemon] up to the loop, on the committed database [d]. *)
Definition startup (env : Env) (d : db) : M unit :=
  perform (Print LOG_INIT) ;;; refresh_all_tickers env d.

(** The committed database once the effects [es] have been performed by a
    process that started on the committed database [d]: what is left when
    the process ends or dies there. *)
Definition committed_after (es : list effect) (d : db) : db :=
  durable (run es (mk_store d d)).

(** What happens around the daemon between two sleeps. *)
Inductive event : Type :=
| Enqueue (ticker requested_at : string)
| Iterate (env : Env) (now now' : Q)
| IterateCrash (env : Env) (now now' : Q) (n : nat) (env0 : Env) (t0 : Q).

(** What an observer records of an iteration: either it went through (the
    branch, the requests handed to the batch fetcher, the sleep that
    followed), or the process died (the requests handed to the batch fetcher
    before that, if it was reached). *)
Inductive observation : Type :=
| Slept (br : branch) (handed : list (Z * string)) (sleep : pyfloat)
| Died (handed : list (Z * string)).

Definition obs_processed (o : observation) : list (Z * string) :=
  match o with
  | Slept _ handed _ => handed
  | Died handed => handed
  end.

Definition fetched (br : branch) (d : db) : list (Z * string) :=
  match br with
  | SERVICE_REQUESTS => select_pending d
  | _ => []
  end.

(** The number of effects of a request-serving iteration that precede the
    call of the batch fetcher: the deletions, the commit and the close. *)
Definition dequeue_length (d : db) : nat := (List.length (select_pending d) + 2)%nat.

(** One event, from one sleep to the next, on the daemon's variables and
    the committed database.  [Enqueue] is the producer.  [Iterate] is a full
    iteration.  [IterateCrash ... n env0 t0] is an iteration whose process
    dies after [n] effects, followed by a restart of [run_daemon]; its
    requests count as handed over when the batch fetcher had been reached. *)
Definition step (ev : event) (x : daemon_state * db)
  : daemon_state * db * list observation :=
  let '(st, d) := x in
  match ev with
  | Enqueue ticker ts => (st, enqueue_request ticker ts d, [])
  | Iterate env now now' =>
      let '(st', br, m) := daemon_iteration env now now' st d in
      (st', committed_after (fst m) d, [Slept br (fetched br d) (sleep_time st')])
  | IterateCrash env now now' n env0 t0 =>
      let '(st', br, m) := daemon_iteration env now now' st d in
      let d' := committed_after (firstn n (fst m)) d in
      (daemon_init t0, committed_after (fst (startup env0 d')) d',
       [Died (if (dequeue_length d <? n)%nat then fetched br d else [])])
  end.

Fixpoint run_events (evs : list event) (x : daemon_state * db)
  : daemon_state * db * list observation :=
  match evs with
  | [] => (x, [])
  | ev :: evs' =>
      let '(x', o) := step ev x in
      let '(x'', os) := run_events evs' x' in
      (x'', o ++ os)
  end.


(** ** The specification's wording, and concrete inputs *)

(** The resolver as the specification words it: the first candidate that is
    present and not null, else the default. *)
Fixpoint spec_resolve (row : Series) (chain : list string) (default : pyobj) : pyobj :=
  match chain with
  | [] => default
  | c :: cs =>
      match cells_at row c with
      | x :: _ => if PrimFloat.is_nan x then spec_resolve row cs default else Scalar x
      | [] => spec_resolve row cs default
      end
  end.

Definition record_with_null : Series :=
  [("Total Debt", NaN); (" Long Term Debt ", 5%float)].

(** A record with two field names that are equal once stripped. *)
Definition record_with_twin_labels : Series :=
  [("Total Debt", 1%float); (" Total Debt", 2%float); ("Long Term Debt", 5%float)].

(** Text made of whitespace only. *)
Fixpoint is_blank (s : string) : bool :=
  match s with
  | EmptyString => true
  | String c s' => is_space c && is_blank s'
  end.

(** The cells of the raw record whose field name, once stripped of
    surrounding whitespace, is [c]. *)
Definition cells_under (raw : Series) (c : string) : list pyfloat :=
  map snd (filter (fun kv => String.eqb (strip (fst kv)) c) raw).

(** The resolution of a chain on the raw record of a period, as lines 52 and
    59-64 make it: the lookups are made in the record with its index
    stripped, and the result is converted. *)
Definition resolved (raw : Series) (chain : list string) (default : pyobj)
  : result pyfloat :=
  float (resolve_field (strip_index raw) chain default).

(** The chain of the [capital_expenditures] column. *)
Definition capex_chain : list string :=
  ["Capital Expenditure"; "Net PPE Purchase And Sale"].

(** What a written statement row is made of: each of its metrics is the
    resolution of the metric's chain (lines 59-64, 78-81 and 95-98) on the
    raw record of the period, capital expenditure in absolute value. *)
Definition metrics_resolved (raw : Series) (st : stmt) : Prop :=
  match st with
  | INSERT_OR_REPLACE_balance_sheet _ _ ta tl td tc =>
      resolved raw ["Total Assets"] zero = Ok ta
      /\ resolved raw ["Total Liabilities Net Minority Interest";
                       "Total Non Current Liabilities Net Minority Interest"] zero = Ok tl
      /\ resolved raw ["Total Debt"; "Long Term Debt"] zero = Ok td
      /\ resolved raw ["Cash And Cash Equivalents";
                       "Cash Cash Equivalents And Short Term Investments"] zero = Ok tc
  | INSERT_OR_REPLACE_income_statement _ _ ebit ebitda ni rev =>
      resolved raw ["EBIT"; "Operating Income"] zero = Ok ebit
      /\ resolved raw ["EBITDA"; "Operating Income"] zero = Ok ebitda
      /\ resolved raw ["Net Income"; "Net Income Continuous Operations"] zero = Ok ni
      /\ resolved raw ["Total Revenue"; "Operating Revenue"] zero = Ok rev
  | INSERT_OR_REPLACE_cashflow_statement _ _ ocf capex =>
      resolved raw ["Operating Cash Flow";
                    "Cash Flow From Continuing Operating Activities"] zero = Ok ocf
      /\ exists x, resolved raw capex_chain zero = Ok x /\ capex = py_abs x
  | _ => True
  end.

(** What a written [cashflow_statement] row is made of: a period of the
    ticker's cashflow frame, and the absolute value of its resolved field. *)
Definition cashflow_row_ok (env : Env) (e : effect) : Prop :=
  match e with
  | Exec (INSERT_OR_REPLACE_cashflow_statement tk date _ capex) =>
      exists df row x,
        yf_cashflow (yf_Ticker env tk) = Ok (Some df)
        /\ In (date, row) df
        /\ float (resolve_field (strip_index row) capex_chain zero) = Ok x
        /\ capex = py_abs x
  | _ => True
  end.

(** The effects of one turn of the ticker loop: writes under that ticker,
    and no connection is closed. *)
Definition block_effect (b : string) (e : effect) : Prop :=
  match e with
  | Exec st => stmt_ticker st = Some b
  | Close => False
  | _ => True
  end.

Definition a_clock : Clock :=
  mk_Clock "2024-01-02 10:00:00" "2024-01-02" "2024-01-02 15:00:00".

(** A ticker with a price and one balance-sheet period. *)
Definition ticker_AAA : Ticker :=
  mk_Ticker (Ok (Some 10%float)) (Ok []) (Ok None)
    (Ok (Some [("2023-12-31", [("Total Assets", 100%float)])])) (Ok None) (Ok None).

(** A ticker whose fast path answers zero and whose daily history is empty. *)
Definition ticker_ZERO : Ticker :=
  mk_Ticker (Ok (Some 0%float)) (Ok []) (Ok None) (Ok None) (Ok None) (Ok None).

(** A ticker with no price on either path. *)
Definition ticker_BAD : Ticker :=
  mk_Ticker (Raise "KeyError: 'currentTradingPeriod'") (Ok []) (Ok None)
    (Ok None) (Ok None) (Ok None).

(** A ticker with a price whose info holds [None] for the shares. *)
Definition ticker_NOSHARES : Ticker :=
  mk_Ticker (Ok (Some 10%float)) (Ok [])
    (Ok (Some (mk_Info (Holds None) (Holds (Some 2500%float)) Missing
                       (Holds (Some "No Shares Inc")) Missing Missing)))
    (Ok None) (Ok None) (Ok None).

(** A ticker with a price whose info has a beta of 0.3 and nothing else. *)
Definition ticker_BETA : Ticker :=
  mk_Ticker (Ok (Some 10%float)) (Ok [])
    (Ok (Some (mk_Info Missing Missing (Holds (Some 0.3%float)) Missing Missing Missing)))
    (Ok None) (Ok None) (Ok None).

(** A ticker whose balance sheet has two field names that are equal once
    stripped. *)
Definition ticker_TWIN : Ticker :=
  mk_Ticker (Ok (Some 10%float)) (Ok []) (Ok None)
    (Ok (Some [("2023-12-31", [("Total Assets", 1%float); (" Total Assets", 2%float)])]))
    (Ok None) (Ok None).

(** A ticker for which the provider cannot be reached. *)
Definition ticker_DOWN : Ticker :=
  mk_Ticker (Raise "ConnectionError") (Raise "ConnectionError") (Raise "ConnectionError")
    (Raise "ConnectionError") (Raise "ConnectionError") (Raise "ConnectionError").

(** A ticker whose balance sheet cannot be retrieved while its income
    statement can. *)
Definition ticker_BSFAIL : Ticker :=
  mk_Ticker (Ok (Some 10%float)) (Ok []) (Ok None)
    (Raise "JSONDecodeError") (Ok (Some [("2023-12-31", [("EBIT", 7%float)])])) (Ok None).

(** The same ticker with a balance sheet that answers. *)
Definition ticker_BSOK : Ticker :=
  mk_Ticker (Ok (Some 10%float)) (Ok []) (Ok None)
    (Ok None) (Ok (Some [("2023-12-31", [("EBIT", 7%float)])])) (Ok None).

(** A ticker whose cashflow frame has a null capital expenditure. *)
Definition ticker_NULLCAPEX : Ticker :=
  mk_Ticker (Ok (Some 10%float)) (Ok []) (Ok None) (Ok None) (Ok None)
    (Ok (Some [("2023-12-31", [("Operating Cash Flow", 9%float);
                                ("Capital Expenditure", NaN)]);
               ("2022-12-31", [("Operating Cash Flow", 8%float);
                                ("Capital Expenditure", (-3)%float)])])).

Definition provider (name : string) : Ticker :=
  if String.eqb name "AAA" then ticker_AAA
  else if String.eqb name "ZERO" then ticker_ZERO
  else if String.eqb name "BSFAIL" then ticker_BSFAIL
  else if String.eqb name "BSOK" then ticker_BSOK
  else if String.eqb name "NULLCAPEX" then ticker_NULLCAPEX
  else if String.eqb name "NOSHARES" then ticker_NOSHARES
  else if String.eqb name "BETA" then ticker_BETA
  else if String.eqb name "TWIN" then ticker_TWIN
  else if String.eqb name "DOWN" then ticker_DOWN
  else ticker_BAD.

Definition an_env : Env := mk_Env provider (fun _ => a_clock).

(** The statements of lines 147-166: the snapshot, the price and the
    price-history point of ticker [b]. *)
Definition snapshot_write (b : string) (st : stmt) : Prop :=
  match st with
  | INSERT_OR_REPLACE_stocks t _ _ _ _ _ _ _ _ _ _ _ => t = b
  | INSERT_OR_REPLACE_prices t _ _ _ => t = b
  | INSERT_OR_IGNORE_price_history t _ _ _ => t = b
  | _ => False
  end.

(** The rows stored under ticker [tk], table by table. *)
Definition rows_of (tk : string) (d : db) :=
  (filter (fun r => String.eqb (s_ticker r) tk) (stocks d),
   filter (fun r => String.eqb (p_ticker r) tk) (prices d),
   filter (fun r => String.eqb (ph_ticker r) tk) (price_history d),
   filter (fun r => String.eqb (bs_ticker r) tk) (balance_sheet d),
   filter (fun r => String.eqb (inc_ticker r) tk) (income_statement d),
   filter (fun r => String.eqb (cf_ticker r) tk) (cashflow_statement d)).

(** The statement of lines 147-156: the snapshot of ticker [b] at [price]. *)
Definition stocks_write (b : string) (price : pyfloat) (st : stmt) : Prop :=
  match st with
  | INSERT_OR_REPLACE_stocks t _ _ _ _ p _ _ _ _ _ _ => t = b /\ p = price
  | _ => False
  end.

(** The key of [price_history]. *)
Definition ph_key (r : price_history_row) : string * string :=
  (ph_ticker r, ph_date r).

(** Effects that leave [price_history] as the connection sees it alone. *)
Definition keeps_price_history (e : effect) : Prop :=
  match e with
  | Exec (INSERT_OR_IGNORE_price_history _ _ _ _) => False
  | Close => False
  | _ => True
  end.

(** An info whose shares are a number: the key is missing (and defaults to
    0.0) or holds a number, not [None]. *)
Definition shares_known (info : option Info) : Prop :=
  dict_get (sharesOutstanding (get_or info empty_info)) (Some 0.0%float) <> None.

(** A provider that answers price [p] for every ticker, at clock [c]. *)
Definition priced_env (p : pyfloat) (c : Clock) : Env :=
  mk_Env (fun _ => mk_Ticker (Ok (Some p)) (Ok []) (Ok None) (Ok None) (Ok None) (Ok None))
         (fun _ => c).

(** What the daemon and the producer share: the request table and the
    largest id it ever handed out. *)
Definition queue_view (d : db) : list update_requests_row * Z :=
  (update_requests d, update_requests_seq d).

(** The request table as SQLite keeps it: [id] is a key, and no id exceeds
    the recorded largest id. *)
Definition update_requests_wf (d : db) : Prop :=
  NoDup (map ur_id (update_requests d))
  /\ Forall (fun r => ur_id r <= update_requests_seq d) (update_requests d).

(** Lines 214-216: the deletions of the pending requests of [d]. *)
Definition deletions (d : db) : list effect :=
  map (fun r => Exec (DELETE_update_requests (fst r))) (select_pending d).

(** The ids handed to the batch fetcher over a run. *)
Definition processed_ids (obs : list observation) : list Z :=
  map fst (List.concat (map obs_processed obs)).

Definition no_delete (e : effect) : Prop :=
  match e with
  | Exec (DELETE_update_requests _) => False
  | _ => True
  end.

Definition only_exec (e : effect) : Prop :=
  match e with
  | Exec _ => True
  | _ => False
  end.

(** An iteration that neither served a request nor died. *)
Definition quiet (o : observation) : Prop :=
  match o with
  | Slept PERIODIC_REFRESH _ _ => True
  | Slept IDLE_BACKOFF _ _ => True
  | _ => False
  end.

Definition is_idle (o : observation) : bool :=
  match o with
  | Slept IDLE_BACKOFF _ _ => true
  | _ => false
  end.

Definition idle_count (obs : list observation) : nat :=
  List.length (filter is_idle obs).

(** The backoff factor of line 230. *)
Definition BACKOFF : pyfloat := 1.5.

(** Line 230, [n] times over, from the interval [s]. *)
Fixpoint backoff (n : nat) (s : pyfloat) : pyfloat :=
  match n with
  | O => s
  | S n' => backoff n' (py_min (fmul s BACKOFF) SLEEP_IDLE)
  end.

(** The number a float stands for; 0 for an infinity and for [NaN]. *)
Definition Q_of_float (x : pyfloat) : Q :=
  match Prim2SF x with
  | S754_finite s m e =>
      (((if s then Zneg m else Zpos m) # 1) * Qpower 2 e)%Q
  | _ => 0
  end.

(** The interval after [n] idle iterations as the specification words it,
    over the rationals: [min(initial * factor^n, max_idle)] with initial 0.2,
    factor 1.5 and max_idle 5.0. *)
Definition spec_interval (n : nat) : Q :=
  Qmin ((2 # 10) * Qpower (15 # 10) (Z.of_nat n)) 5.

(** The intervals of a backoff that starts from [SLEEP_ACTIVE]: eight steps
    reach the cap. *)
Definition backoff_intervals : list pyfloat :=
  map (fun n => backoff n SLEEP_ACTIVE) (seq 0 9).

(** A store with two pending requests. *)
Definition db_two_requests : db :=
  enqueue_request "msft" "2024-01-02 09:00:01"
    (enqueue_request "aaa" "2024-01-02 09:00:00" init_db).

(** The request table and its largest id once the pending requests of [d]
    are deleted. *)
Definition dequeued_view (d : db) : list update_requests_row * Z :=
  (filter (fun r => negb (existsb (Z.eqb (ur_id r)) (map fst (select_pending d))))
          (update_requests d),
   update_requests_seq d).

(** The request table is well formed, and the ids [P] handed over so far are
    distinct, below the largest id, and gone from the table. *)
Definition queue_inv (v : list update_requests_row * Z) (P : list Z) : Prop :=
  NoDup (map ur_id (fst v))
  /\ Forall (fun r => ur_id r <= snd v) (fst v)
  /\ NoDup P
  /\ Forall (fun id => id <= snd v /\ ~ In id (map ur_id (fst v))) P.

(** ** Further definitions for the refresh scheduler and the stored tables *)

(** Effects that leave the connection open. *)
Definition not_close (e : effect) : Prop :=
  match e with
  | Close => False
  | _ => True
  end.

(** The effects of the statement upserter: writes to the three statement
    tables, commits and log lines. *)
Definition statement_effect (e : effect) : Prop :=
  match e with
  | Exec (INSERT_OR_REPLACE_balance_sheet _ _ _ _ _ _) => True
  | Exec (INSERT_OR_REPLACE_income_statement _ _ _ _ _ _) => True
  | Exec (INSERT_OR_REPLACE_cashflow_statement _ _ _ _) => True
  | Exec _ => False
  | Close => False
  | _ => True
  end.

(** The tables the statement upserter does not write. *)
Definition snapshot_tables (d : db) :=
  (prices d, stocks d, price_history d, update_requests d, update_requests_seq d).

(** The value a statement metric takes on a period: the cell its chain
    resolves to. *)
Definition metric (row : Series) (chain : list string) : pyfloat :=
  match resolve_field (strip_index row) chain zero with
  | Scalar x => x
  | SubSeries _ => NaN
  end.

Definition balance_sheet_stmt (ticker : string) (p : string * Series) : stmt :=
  INSERT_OR_REPLACE_balance_sheet ticker (fst p)
    (metric (snd p) ["Total Assets"])
    (metric (snd p) ["Total Liabilities Net Minority Interest";
                     "Total Non Current Liabilities Net Minority Interest"])
    (metric (snd p) ["Total Debt"; "Long Term Debt"])
    (metric (snd p) ["Cash And Cash Equivalents";
                     "Cash Cash Equivalents And Short Term Investments"]).

Definition income_statement_stmt (ticker : string) (p : string * Series) : stmt :=
  INSERT_OR_REPLACE_income_statement ticker (fst p)
    (metric (snd p) ["EBIT"; "Operating Income"])
    (metric (snd p) ["EBITDA"; "Operating Income"])
    (metric (snd p) ["Net Income"; "Net Income Continuous Operations"])
    (metric (snd p) ["Total Revenue"; "Operating Revenue"]).

Definition cashflow_statement_stmt (ticker : string) (p : string * Series) : stmt :=
  INSERT_OR_REPLACE_cashflow_statement ticker (fst p)
    (metric (snd p) ["Operating Cash Flow";
                     "Cash Flow From Continuing Operating Activities"])
    (py_abs (metric (snd p) capex_chain)).

(** The periods the statement upserter iterates over: none for an absent or
    empty frame. *)
Definition frame_rows (x : option DataFrame) : DataFrame :=
  match x with
  | Some df => if df_empty df then [] else df
  | None => []
  end.

(** A frame whose periods have distinct field names once stripped. *)
Definition distinct_fields (df : DataFrame) : Prop :=
  Forall (fun p => NoDup (labels (strip_index (snd p)))) df.

(** How a written [stocks] row follows from the ticker's info. *)
Definition stocks_from_info (env : Env) (e : effect) : Prop :=
  match e with
  | Exec (INSERT_OR_REPLACE_stocks tk name cur sec sh pr mc be g dr tax _) =>
      exists info shares,
        yf_info (yf_Ticker env tk) = Ok info
        /\ sh = Some shares
        /\ name = dict_get (shortName (get_or info empty_info)) (Some tk)
        /\ cur = dict_get (currency (get_or info empty_info)) (Some "USD")
        /\ sec = dict_get (sector (get_or info empty_info)) None
        /\ sh = dict_get (sharesOutstanding (get_or info empty_info)) (Some 0.0%float)
        /\ mc = dict_get (marketCap (get_or info empty_info)) (Some (fmul pr shares))
        /\ be = dict_get (beta (get_or info empty_info)) None
        /\ g = growth_rate
        /\ tax = tax_rate
        /\ dr = fadd rf (fmul (or_default be 1.0) (fsub rm rf))
  | _ => True
  end.

(** The three statement tables. *)
Definition statement_tables (d : db) :=
  (balance_sheet d, income_statement d, cashflow_statement d).

(** [d'] holds every statement row of [d], in place, followed by new rows. *)
Definition extends_statements (d d' : db) : Prop :=
  (exists l, balance_sheet d' = balance_sheet d ++ l)
  /\ (exists l, income_statement d' = income_statement d ++ l)
  /\ (exists l, cashflow_statement d' = cashflow_statement d ++ l).

(** A ticker with well-formed statements of two periods. *)
Definition ticker_FULL : Ticker :=
  mk_Ticker (Ok (Some 10%float)) (Ok [])
    (Ok (Some (mk_Info (Holds (Some 100%float)) Missing (Holds (Some 0%float))
                       Missing (Holds None) Missing)))
    (Ok (Some [("2023-12-31", [(" Total Assets ", 100%float); ("Total Debt", NaN)]);
               ("2022-12-31", [("Total Assets", 90%float); ("Long Term Debt", 7%float)])]))
    (Ok None)
    (Ok (Some [("2023-12-31", [("Capital Expenditure", (-3)%float)])])).

Definition full_env : Env := mk_Env (fun _ => ticker_FULL) (fun _ => a_clock).

(** A store that tracks 120 tickers, written in descending order of their
    names "AA", "AB", ..., "EP". *)
Definition ticker_no (n : nat) : string :=
  String (ascii_of_nat (65 + n / 26)) (String (ascii_of_nat (65 + n mod 26)) EmptyString).

Definition db_120_tickers : db :=
  fold_left
    (fun d n => exec (INSERT_OR_REPLACE_prices (ticker_no n) "2024-01-01 09:00:00" 1
                        "2024-01-01 09:00:00") d)
    (rev (seq 0 120)) init_db.

(** Key order: each ticker is at most the next one. *)
Definition in_key_order (l : list string) : Prop :=
  Sorted (fun a b => String.leb a b = true) l.

(** The poll interval lies between its two constants. *)
Definition sleep_in_bounds (x : pyfloat) : Prop :=
  PrimFloat.leb SLEEP_ACTIVE x = true /\ PrimFloat.leb x SLEEP_IDLE = true.

Definition observed_sleep_in_bounds (o : observation) : Prop :=
  match o with
  | Slept _ _ q => sleep_in_bounds q
  | Died _ => True
  end.

(** An iteration that went through without running the periodic refresh. *)
Definition no_refresh (o : observation) : Prop :=
  match o with
  | Slept SERVICE_REQUESTS _ _ => True
  | Slept IDLE_BACKOFF _ _ => True
  | _ => False
  end.

(** Lines 118-123: what the fast path gives, an exception counting as no
    price. *)
Definition fast_price (t : Ticker) : option pyfloat :=
  match yf_fast_info_last_price t with
  | Ok p => p
  | Raise _ => None
  end.

(** ** [init_db.py]: [clean_company_name] *)

Definition CORP_STOPWORDS : list string :=
  ["INC"; "INCORPORATED"; "CORP"; "CORPORATION";
   "TECH"; "TECHNOLOGY"; "TECHNOLOGIES";
   "COMPANY"; "CO"; "GROUP"; "HOLDINGS";
   "LIMITED"; "LTD"; "COMMUNICATIONS"; "COMMUNICATION";
   "SYSTEMS"; "PLC"; "SA"; "LLC"; "COMMON"; "STOCK";
   "SHARES"].

Definition multi_phrases : list string :=
  ["CLASS A"; "CLASS B"; "CLASS C";
   "COMMON STOCK"; "PREFERRED STOCK";
   "WARRANT"; "WARRANTS"].

(** The characters of the class [[A-Z0-9 ]]. *)
Definition in_A_Z_0_9_space (c : ascii) : bool :=
  let n := nat_of_ascii c in
  (((65 <=? n) && (n <=? 90)) || ((48 <=? n) && (n <=? 57)) || (n =? 32))%nat.

Fixpoint all_chars (p : ascii -> bool) (s : string) : bool :=
  match s with
  | EmptyString => true
  | String c s' => p c && all_chars p s'
  end.

(** [re.sub(r"[^A-Z0-9 ]", " ", name)] *)
Fixpoint sub_non_alnum (s : string) : string :=
  match s with
  | EmptyString => EmptyString
  | String c s' =>
      String (if in_A_Z_0_9_space c then c else " "%char) (sub_non_alnum s')
  end.

(** [s.replace(old, new)] for a non-empty [old]: the occurrences of [old]
    are replaced from left to right, without overlap.  [skip] counts the
    characters of a match still to be dropped. *)
Fixpoint replace_from (skip : nat) (old new s : string) : string :=
  match s with
  | EmptyString => EmptyString
  | String c s' =>
      match skip with
      | S k => replace_from k old new s'
      | O =>
          if String.prefix old s
          then (new ++ replace_from (String.length old - 1) old new s')%string
          else String c (replace_from O old new s')
      end
  end.

Definition str_replace (old new s : string) : string := replace_from 0 old new s.

(** [s.split()]: the maximal runs of characters that are not whitespace. *)
Fixpoint split (s : string) : list string :=
  match s with
  | EmptyString => []
  | String c s' =>
      if is_space c then split s'
      else
        match s' with
        | EmptyString => [String c EmptyString]
        | String c' _ =>
            if is_space c' then String c EmptyString :: split s'
            else
              match split s' with
              | t :: ts => String c t :: ts
              | [] => [String c EmptyString]
              end
        end
  end.

(** [re.sub(r"\s+", " ", s)] *)
Fixpoint collapse_ws (s : string) : string :=
  match s with
  | EmptyString => EmptyString
  | String c s' =>
      if is_space c then
        match s' with
        | EmptyString => String " " EmptyString
        | String c' _ =>
            if is_space c' then collapse_ws s' else String " " (collapse_ws s')
        end
      else String c (collapse_ws s')
  end.

Definition is_stopword (t : string) : bool := existsb (String.eqb t) CORP_STOPWORDS.

(** The body of [clean_company_name] for a [str]. *)
Definition clean_str (name : string) : string :=
  let name := upper name in
  let name := sub_non_alnum name in
  let name := fold_left (fun n phrase => str_replace phrase " " n) multi_phrases name in
  let tokens := filter (fun t => negb (is_stopword t)) (split name) in
  let cleaned := String.concat " " tokens in
  strip (collapse_ws cleaned).

(** [clean_company_name]: [None] stands for a value that is not a [str]. *)
Definition clean_company_name (name : option string) : string :=
  match name with
  | Some s => clean_str s
  | None => EmptyString
  end.

(** A token of [split]: not empty, without whitespace. *)
Definition is_token (t : string) : Prop :=
  t <> EmptyString /\ all_chars (fun c => negb (is_space c)) t = true.

(** ** [init_db.py]: the cleaning steps of [init_nasdaq_db] *)

(** A symbol-directory frame reduced to its [ticker] and [name] columns;
    [None] is a missing cell. *)
Definition symbol_frame : Type := list (option string * option string).

(** [.dropna()] *)
Fixpoint dropna (rows : symbol_frame) : list (string * string) :=
  match rows with
  | [] => []
  | (Some t, Some n) :: rows' => (t, n) :: dropna rows'
  | _ :: rows' => dropna rows'
  end.

(** [.drop_duplicates(subset=["ticker"])]: the first row of each ticker is
    kept.  [seen] holds the tickers of the rows kept so far. *)
Fixpoint drop_duplicates_from (seen : list string) (rows : list (string * string))
  : list (string * string) :=
  match rows with
  | [] => []
  | (t, n) :: rows' =>
      if existsb (String.eqb t) seen then drop_duplicates_from seen rows'
      else (t, n) :: drop_duplicates_from (t :: seen) rows'
  end.

Definition drop_duplicates (rows : list (string * string)) : list (string * string) :=
  drop_duplicates_from [] rows.

Definition is_alpha (c : ascii) : bool :=
  let n := nat_of_ascii c in
  (((65 <=? n) && (n <=? 90)) || ((97 <=? n) && (n <=? 122)))%nat.

Definition is_A_Z (c : ascii) : bool :=
  let n := nat_of_ascii c in ((65 <=? n) && (n <=? 90))%nat.

(** [s.isalpha()] on ASCII text: at least one character, all letters. *)
Definition str_isalpha (s : string) : bool :=
  match s with
  | EmptyString => false
  | _ => all_chars is_alpha s
  end.

(** Lines 213-220: the rows [init_nasdaq_db] hands to [to_sql]. *)
Definition clean_symbol_rows (df1 df2 : symbol_frame) : list (string * string) :=
  let tickers := drop_duplicates (dropna (df1 ++ df2)) in
  let tickers :=
    map (fun r => (upper (strip (fst r)), clean_company_name (Some (snd r)))) tickers in
  let tickers := filter (fun r => str_isalpha (fst r)) tickers in
  filter (fun r => (0 <? String.length (snd r))%nat) tickers.

Fixpoint has_duplicate (keys : list string) : bool :=
  match keys with
  | [] => false
  | k :: ks => existsb (String.eqb k) ks || has_duplicate ks
  end.

(** [to_sql("tickers", conn, if_exists="append", index=False)] into the
    empty table [tickers (ticker TEXT PRIMARY KEY, company TEXT)] of a new
    file: the rows, or an error when two rows share a ticker. *)
Definition to_sql_tickers (rows : list (string * string)) : result (list (string * string)) :=
  if has_duplicate (map fst rows)
  then Raise "IntegrityError: UNIQUE constraint failed: tickers.ticker"
  else Ok rows.

(** A symbol as the directory files give it: upper case, no surrounding
    whitespace. *)
Definition plain_symbol (t : string) : Prop := upper (strip t) = t.

Definition nasdaq_sample : symbol_frame :=
  [(Some "AAPL", Some "Apple Inc. - Common Stock");
   (Some "GOOGL", Some "Alphabet Inc. - Class A Common Stock");
   (Some "AAPL", Some "Apple again");
   (Some "ZAZZT", None);
   (None, Some "File Creation Time: 1103202617:30");
   (Some "BRK.A", Some "Berkshire Hathaway Inc.");
   (Some "INCO", Some "Inc. Co.")].

(** * Properties *)

(** ** Effects of composed computations *)

Lemma run_app (es1 es2 : list effect) (s : store) :
  run (es1 ++ es2) s = run es2 (run es1 s).
Proof. unfold run. apply fold_left_app. Qed.

Lemma bind_fst_Ok {A B : Type} (m : M A) (f : A -> M B) (a : A) :
  snd m = Ok a -> fst (bind m f) = fst m ++ fst (f a).
Proof. destruct m as [w [x|e]]; simpl; intros H; inversion H; subst; reflexivity. Qed.

Lemma bind_snd_Ok {A B : Type} (m : M A) (f : A -> M B) (a : A) :
  snd m = Ok a -> snd (bind m f) = snd (f a).
Proof. destruct m as [w [x|e]]; simpl; intros H; inversion H; subst; reflexivity. Qed.

Lemma try_except_Raise {A : Type} (m : M A) (h : exn -> M A) (e : exn) :
  snd m = Raise e -> try_except m h = (fst m ++ fst (h e), snd (h e)).
Proof. destruct m as [w [x|e']]; simpl; intros H; inversion H; subst; reflexivity. Qed.

Section EffectInvariants.

Variable P : effect -> Prop.

Lemma Forall_ret {A : Type} (a : A) : Forall P (fst (ret a)).
Proof. constructor. Qed.

Lemma Forall_lift {A : Type} (r : result A) : Forall P (fst (lift r)).
Proof. constructor. Qed.

Lemma Forall_perform (e : effect) : P e -> Forall P (fst (perform e)).
Proof. intros H. repeat constructor. exact H. Qed.

Lemma Forall_bind {A B : Type} (m : M A) (f : A -> M B) :
  Forall P (fst m) -> (forall a, Forall P (fst (f a))) -> Forall P (fst (bind m f)).
Proof.
  destruct m as [w [a|e]]; simpl; intros Hw Hf; [|exact Hw].
  apply Forall_app. split; [exact Hw | apply Hf].
Qed.

Lemma Forall_try_except {A : Type} (m : M A) (h : exn -> M A) :
  Forall P (fst m) -> (forall e, Forall P (fst (h e))) ->
  Forall P (fst (try_except m h)).
Proof.
  destruct m as [w [a|e]]; simpl; intros Hw Hh; [exact Hw|].
  apply Forall_app. split; [exact Hw | apply Hh].
Qed.

Lemma Forall_for_each {A : Type} (xs : list A) (body : A -> M unit) :
  (forall x, In x xs -> Forall P (fst (body x))) ->
  Forall P (fst (for_each xs body)).
Proof.
  induction xs as [|x xs IH]; intros H; simpl.
  - constructor.
  - apply Forall_bind.
    + apply H. now left.
    + intros _. apply IH. intros y Hy. apply H. now right.
Qed.

End EffectInvariants.

(** Every computation of the daemon that has a handler returns normally. *)
Lemma for_each_Ok {A : Type} (xs : list A) (body : A -> M unit) :
  (forall x, In x xs -> snd (body x) = Ok tt) -> snd (for_each xs body) = Ok tt.
Proof.
  induction xs as [|x xs IH]; intros H; simpl.
  - reflexivity.
  - rewrite (bind_snd_Ok _ _ tt) by (apply H; now left).
    apply IH. intros y Hy. apply H. now right.
Qed.

Lemma for_each_app {A : Type} (xs ys : list A) (body : A -> M unit) :
  (forall x, In x xs -> snd (body x) = Ok tt) ->
  fst (for_each (xs ++ ys) body) = fst (for_each xs body) ++ fst (for_each ys body).
Proof.
  induction xs as [|x xs IH]; intros H; simpl.
  - reflexivity.
  - assert (Hx : snd (body x) = Ok tt) by (apply H; now left).
    rewrite !(bind_fst_Ok _ _ tt Hx), IH, app_assoc; [reflexivity|].
    intros y Hy. apply H. now right.
Qed.

(** ** Field resolution *)

Lemma cells_at_absent (row : Series) (key : string) :
  ~ In key (labels row) -> cells_at row key = [].
Proof.
  unfold cells_at, labels. induction row as [|[k v] row IH]; simpl; intros H.
  - reflexivity.
  - destruct (String.eqb_spec k key) as [E|E].
    + exfalso. apply H. now left.
    + apply IH. intros Hin. apply H. now right.
Qed.

Lemma cells_at_NoDup (row : Series) (key : string) :
  NoDup (labels row) -> (List.length (cells_at row key) <= 1)%nat.
Proof.
  unfold cells_at, labels. induction row as [|[k v] row IH]; simpl; intros H.
  - lia.
  - inversion H as [|? ? Hk Hrow]; subst.
    destruct (String.eqb_spec k key) as [E|E].
    + subst. simpl. fold (cells_at row key). rewrite cells_at_absent by exact Hk.
      simpl. lia.
    + now apply IH.
Qed.

(** Looking a label up in the stripped record finds the cells of the raw
    record whose field name strips to that label. *)
Lemma cells_at_strip_index (raw : Series) (c : string) :
  cells_at (strip_index raw) c = cells_under raw c.
Proof.
  unfold cells_at, cells_under, strip_index.
  induction raw as [|[l v] raw IH]; simpl; [reflexivity|].
  destruct (String.eqb (strip l) c); simpl; now rewrite IH.
Qed.

Lemma resolve_field_none (row : Series) (chain : list string) (d : pyobj) :
  (forall c, In c chain -> cells_at row c = []) -> resolve_field row chain d = d.
Proof.
  induction chain as [|c cs IH]; intros H; simpl.
  - reflexivity.
  - unfold Series_get. rewrite (H c) by now left.
    apply IH. intros c' Hc'. apply H. now right.
Qed.

Lemma resolve_field_first (row : Series) (pre post : list string) (ck : string)
    (d : pyobj) :
  (forall c, In c pre -> cells_at row c = []) ->
  resolve_field row (pre ++ ck :: post) d
  = Series_get row ck (resolve_field row post d).
Proof.
  intros Hpre. induction pre as [|c pre IH]; simpl.
  - reflexivity.
  - unfold Series_get at 1. rewrite (Hpre c) by now left.
    apply IH. intros c' Hc'. apply Hpre. now right.
Qed.

Lemma resolve_field_total (row : Series) (chain : list string) (d : pyfloat) :
  NoDup (labels row) -> exists x, resolve_field row chain (Scalar d) = Scalar x.
Proof.
  intros Hnd. induction chain as [|c cs [x IH]]; simpl.
  - now exists d.
  - unfold Series_get. pose proof (cells_at_NoDup row c Hnd) as Hlen.
    destruct (cells_at row c) as [|y [|z ys]]; simpl in Hlen.
    + now exists x.
    + now exists y.
    + lia.
Qed.

(** *** [str.strip] removes the whitespace around a field name *)

Lemma lstrip_blank (ws : string) : is_blank ws = true -> lstrip ws = EmptyString.
Proof.
  induction ws as [|c ws IH]; simpl; [reflexivity|].
  intros H. apply andb_prop in H. destruct H as [Hc Hws]. rewrite Hc. now apply IH.
Qed.

Lemma rstrip_blank (ws : string) : is_blank ws = true -> rstrip ws = EmptyString.
Proof.
  induction ws as [|c ws IH]; simpl; [reflexivity|].
  intros H. apply andb_prop in H. destruct H as [Hc Hws].
  rewrite (IH Hws), Hc. reflexivity.
Qed.

Lemma lstrip_after_blank (ws s : string) :
  is_blank ws = true -> lstrip (ws ++ s) = lstrip s.
Proof.
  induction ws as [|c ws IH]; simpl; [reflexivity|].
  intros H. apply andb_prop in H. destruct H as [Hc Hws]. rewrite Hc. now apply IH.
Qed.

Lemma rstrip_before_blank (s ws : string) :
  is_blank ws = true -> rstrip (s ++ ws) = rstrip s.
Proof.
  intros H. induction s as [|c s IH]; simpl.
  - now apply rstrip_blank.
  - now rewrite IH.
Qed.

Lemma strip_before_blank (s ws : string) :
  is_blank ws = true -> strip (s ++ ws) = strip s.
Proof.
  intros H. unfold strip. induction s as [|c s IH]; simpl.
  - now rewrite (lstrip_blank ws H).
  - destruct (is_space c); [exact IH|].
    change (String c (s ++ ws)) with (String c s ++ ws)%string.
    now apply rstrip_before_blank.
Qed.

Lemma strip_surrounded (ws1 c ws2 : string) :
  is_blank ws1 = true -> is_blank ws2 = true ->
  strip (ws1 ++ c ++ ws2) = strip c.
Proof.
  intros H1 H2. unfold strip at 1. rewrite lstrip_after_blank by exact H1.
  now apply strip_before_blank.
Qed.

Lemma cells_under_In (raw : Series) (l c : string) (v : pyfloat) :
  In (l, v) raw -> strip l = c -> In v (cells_under raw c).
Proof.
  intros Hin E. unfold cells_under. apply in_map_iff. exists (l, v).
  split; [reflexivity|]. apply filter_In. split; [exact Hin|].
  simpl. rewrite E. apply String.eqb_refl.
Qed.

(** *** The row writers resolve every metric on the stripped record *)

Lemma lift_float_Exec (o : pyobj) (k : pyfloat -> M unit) (e : effect) :
  In e (fst (x <- lift (float o) ;; k x)) ->
  exists x, float o = Ok x /\ In e (fst (k x)).
Proof.
  destruct (float o) as [x|err]; simpl; [|contradiction].
  intros H. now exists x.
Qed.

Lemma store_balance_sheet_row_resolved (ticker : string) (period : string * Series)
    (st : stmt) :
  In (Exec st) (fst (store_balance_sheet_row ticker period)) ->
  metrics_resolved (snd period) st.
Proof.
  unfold store_balance_sheet_row. intros H.
  apply lift_float_Exec in H. destruct H as [ta [Ea H]].
  apply lift_float_Exec in H. destruct H as [tl [El H]].
  apply lift_float_Exec in H. destruct H as [td [Ed H]].
  apply lift_float_Exec in H. destruct H as [tc [Ec H]].
  destruct H as [H|[]]. inversion H; subst. simpl. unfold resolved. auto.
Qed.

Lemma store_income_statement_row_resolved (ticker : string) (period : string * Series)
    (st : stmt) :
  In (Exec st) (fst (store_income_statement_row ticker period)) ->
  metrics_resolved (snd period) st.
Proof.
  unfold store_income_statement_row. intros H.
  apply lift_float_Exec in H. destruct H as [a [Ea H]].
  apply lift_float_Exec in H. destruct H as [b [Eb H]].
  apply lift_float_Exec in H. destruct H as [c [Ec H]].
  apply lift_float_Exec in H. destruct H as [d [Ed H]].
  destruct H as [H|[]]. inversion H; subst. simpl. unfold resolved. auto.
Qed.

Lemma store_cashflow_statement_row_resolved (ticker : string) (period : string * Series)
    (st : stmt) :
  In (Exec st) (fst (store_cashflow_statement_row ticker period)) ->
  metrics_resolved (snd period) st.
Proof.
  unfold store_cashflow_statement_row. intros H.
  apply lift_float_Exec in H. destruct H as [a [Ea H]].
  apply lift_float_Exec in H. destruct H as [b [Eb H]].
  destruct H as [H|[]]. inversion H; subst. simpl. unfold resolved.
  split; [exact Ea|]. now exists b.
Qed.

(** C7, as amended.  Every metric of a statement row is resolved on the
    period's record with its field names stripped of surrounding whitespace,
    so a field stored with blanks around its name is found under the name.
    The resolution returns the default when no candidate is a stripped field
    name; when [ck] is the first candidate that is one, and one field only
    strips to it, it returns that field's cell, whatever the cell holds (a
    null cell included) and whatever the later candidates hold.  It yields a
    number or null, never an error, on every record whose field names stay
    distinct once stripped; but when two fields strip to the first candidate
    found, the lookup gives a sub-series and the conversion raises. *)
Theorem resolve_field_first_present_label :
  forall (raw : Series),
    (forall ticker period st,
        In (Exec st) (fst (store_balance_sheet_row ticker period))
        \/ In (Exec st) (fst (store_income_statement_row ticker period))
        \/ In (Exec st) (fst (store_cashflow_statement_row ticker period)) ->
        metrics_resolved (snd period) st)
    /\ (forall ws1 c ws2 v,
          In ((ws1 ++ c ++ ws2)%string, v) raw ->
          is_blank ws1 = true -> is_blank ws2 = true -> strip c = c ->
          In v (cells_under raw c))
    /\ (forall chain d,
          (forall c, In c chain -> cells_under raw c = []) ->
          resolved raw chain (Scalar d) = Ok d)
    /\ (forall pre ck post v d,
          (forall c, In c pre -> cells_under raw c = []) ->
          cells_under raw ck = [v] ->
          resolved raw (pre ++ ck :: post) d = Ok v)
    /\ (forall chain d,
          NoDup (labels (strip_index raw)) ->
          exists x, resolved raw chain (Scalar d) = Ok x)
    /\ (forall pre ck post d,
          (forall c, In c pre -> cells_under raw c = []) ->
          (2 <= List.length (cells_under raw ck))%nat ->
          exists e, resolved raw (pre ++ ck :: post) d = Raise e).
Proof.
  intros raw. split; [|split; [|split; [|split; [|split]]]].
  - intros ticker period st [H|[H|H]].
    + now apply (store_balance_sheet_row_resolved ticker).
    + now apply (store_income_statement_row_resolved ticker).
    + now apply (store_cashflow_statement_row_resolved ticker).
  - intros ws1 c ws2 v Hin H1 H2 Hc.
    apply (cells_under_In raw (ws1 ++ c ++ ws2)%string); [exact Hin|].
    now rewrite strip_surrounded.
  - intros chain d H. unfold resolved. rewrite resolve_field_none; [reflexivity|].
    intros c Hc. rewrite cells_at_strip_index. now apply H.
  - intros pre ck post v d Hpre Hck. unfold resolved.
    rewrite resolve_field_first.
    + unfold Series_get. now rewrite cells_at_strip_index, Hck.
    + intros c Hc. rewrite cells_at_strip_index. now apply Hpre.
  - intros chain d Hnd. unfold resolved.
    destruct (resolve_field_total (strip_index raw) chain d Hnd) as [x E].
    exists x. now rewrite E.
  - intros pre ck post d Hpre Hlen. unfold resolved.
    rewrite resolve_field_first.
    + unfold Series_get. rewrite cells_at_strip_index.
      destruct (cells_under raw ck) as [|x [|y l]]; simpl in Hlen; try lia.
      eexists. reflexivity.
    + intros c Hc. rewrite cells_at_strip_index. now apply Hpre.
Qed.

Lemma resolve_field_first_present_label_witness :
  In 5%float (cells_under record_with_null "Long Term Debt")
  /\ resolved record_with_null ["EBIT"; "EBITDA"] zero = Ok 0%float
  /\ resolved record_with_null ["Total Debt"; "Long Term Debt"] zero = Ok NaN
  /\ resolved record_with_null ["EBIT"; "Long Term Debt"] zero = Ok 5%float
  /\ (exists x, resolved record_with_null ["Total Debt"; "Long Term Debt"] zero = Ok x)
  /\ (exists e, resolved record_with_twin_labels ["EBIT"; "Total Debt"; "Long Term Debt"]
                  zero = Raise e)
  /\ metrics_resolved [(" Capital Expenditure ", (-3)%float)]
       (INSERT_OR_REPLACE_cashflow_statement "AAA" "2023-12-31" 0%float 3%float).
Proof.
  destruct (resolve_field_first_present_label record_with_null)
    as [Hrows [Hstrip [Habsent [Hfirst [Htotal _]]]]].
  destruct (resolve_field_first_present_label record_with_twin_labels)
    as [_ [_ [_ [_ [_ Htwin]]]]].
  split; [|split; [|split; [|split; [|split; [|split]]]]].
  - apply (Hstrip " " "Long Term Debt" " "); [simpl; auto|reflexivity..].
  - apply (Habsent ["EBIT"; "EBITDA"] 0%float).
    intros c [<-|[<-|[]]]; reflexivity.
  - apply (Hfirst [] "Total Debt" ["Long Term Debt"] NaN zero).
    + intros c [].
    + reflexivity.
  - apply (Hfirst ["EBIT"] "Long Term Debt" [] 5%float zero).
    + intros c [<-|[]]. reflexivity.
    + reflexivity.
  - apply (Htotal ["Total Debt"; "Long Term Debt"] 0%float).
    simpl. repeat constructor; simpl; intuition discriminate.
  - apply (Htwin ["EBIT"] "Total Debt" ["Long Term Debt"] zero).
    + intros c [<-|[]]. reflexivity.
    + simpl. lia.
  - apply (Hrows "AAA" ("2023-12-31", [(" Capital Expenditure ", (-3)%float)])).
    right. right. left. reflexivity.
Defined.

(** C7 as stated fails: with a null first candidate and a non-null second
    one, the code returns the null cell, not the second candidate's value;
    and with a null only candidate it returns the null cell, not the
    default. *)
Lemma resolve_field_keeps_null_candidate :
  cells_at (strip_index record_with_null) "Total Debt" = [NaN]
  /\ cells_at (strip_index record_with_null) "Long Term Debt" = [5%float]
  /\ spec_resolve (strip_index record_with_null) ["Total Debt"; "Long Term Debt"] zero
     = Scalar 5%float
  /\ resolve_field (strip_index record_with_null) ["Total Debt"; "Long Term Debt"] zero
     = Scalar NaN
  /\ resolve_field (strip_index record_with_null) ["Total Debt"; "Long Term Debt"] zero
     <> spec_resolve (strip_index record_with_null) ["Total Debt"; "Long Term Debt"] zero
  /\ spec_resolve (strip_index record_with_null) ["Total Debt"] zero = zero
  /\ resolve_field (strip_index record_with_null) ["Total Debt"] zero <> zero.
Proof.
  repeat split; try reflexivity; discriminate.
Qed.

(** ** The statement upserter *)

Lemma store_statement_Forall (P : effect -> Prop) (frame : result (option DataFrame))
    (store_row : string * Series -> M unit) :
  (forall df period, frame = Ok (Some df) -> In period df ->
                     Forall P (fst (store_row period))) ->
  Forall P (fst (store_statement frame store_row)).
Proof.
  intros H. unfold store_statement.
  destruct frame as [[df|]|e]; simpl; try constructor.
  destruct (df_empty df); simpl; rewrite ?app_nil_r; try constructor.
  apply Forall_for_each. intros period Hin. now apply (H df).
Qed.

Ltac effects :=
  repeat first
    [ apply Forall_ret
    | apply Forall_lift
    | apply Forall_perform
    | apply store_statement_Forall; intros ? ? ? ?
    | apply Forall_bind; [|intros ?]
    | apply Forall_try_except; [|intros ?] ].

(** [abs] clears the sign of a float and keeps [NaN]. *)
Lemma py_abs_not_negative (x : pyfloat) : is_negative (py_abs x) = false.
Proof.
  unfold is_negative, py_abs. rewrite ltb_spec, abs_spec.
  change (Prim2SF 0) with (S754_zero false).
  destruct (Prim2SF x) as [s|s| |s m e]; reflexivity.
Qed.

Lemma Prim2SF_NaN (x : pyfloat) : Prim2SF x = S754_nan -> x = NaN.
Proof. intros H. rewrite <- (SF2Prim_Prim2SF x), H. reflexivity. Qed.

Lemma py_abs_nonneg (x : pyfloat) : x <> NaN -> is_nonneg (py_abs x) = true.
Proof.
  intros Hx. unfold is_nonneg, py_abs. rewrite leb_spec, abs_spec.
  change (Prim2SF 0) with (S754_zero false).
  pose proof (Prim2SF_NaN x) as Hn.
  destruct (Prim2SF x) as [s|s| |s m e]; try reflexivity.
  exfalso. now apply Hx, Hn.
Qed.

Lemma fundamentals_cashflow_rows (env : Env) (b : string) :
  Forall (cashflow_row_ok env) (fst (fetch_and_store_fundamentals (yf_Ticker env b) b)).
Proof.
  unfold fetch_and_store_fundamentals, fundamentals_body.
  apply Forall_try_except; [|intros e; effects; exact I].
  apply Forall_bind; [|intros _; apply Forall_bind; [|intros _; apply Forall_bind]].
  - unfold store_balance_sheet_row. effects. exact I.
  - unfold store_income_statement_row. effects. exact I.
  - apply store_statement_Forall. intros df [date row] Hdf Hin.
    unfold store_cashflow_statement_row. cbn [fst snd].
    apply Forall_bind; [apply Forall_lift|intros ocf].
    fold capex_chain.
    destruct (float (resolve_field (strip_index row) capex_chain zero)) as [x|e] eqn:E.
    + simpl. repeat constructor. exists df, row, x. auto.
    + simpl. constructor.
  - intros _. effects. exact I.
Qed.

Lemma fundamentals_returns (t : Ticker) (b : string) :
  snd (fetch_and_store_fundamentals t b) = Ok tt.
Proof.
  unfold fetch_and_store_fundamentals.
  destruct (fundamentals_body t b) as [w [[]|e]]; reflexivity.
Qed.

(** INSERT OR REPLACE on a statement table always adds a row: the table has
    no key on [(ticker, date)] for the new row to conflict on. *)
Lemma exec_balance_sheet_appends (d : db) (t date : string) (ta tl td tc : pyfloat) :
  exists id,
    balance_sheet (exec (INSERT_OR_REPLACE_balance_sheet t date ta tl td tc) d)
    = balance_sheet d ++ [mk_balance_sheet_row id t date ta tl td tc].
Proof. eexists. reflexivity. Qed.

(** C1, on the code: running the statement upserter twice with the same
    input leaves two rows for the same (ticker, period-end date) in
    [balance_sheet], with ids 1 and 2; and on any store, two writes of the
    same (ticker, date) leave at least two rows with that key. *)
Theorem statement_upsert_twice_leaves_two_rows :
  (let es := fst (fetch_and_store_fundamentals ticker_AAA "AAA") in
   map (fun r => (bs_id r, bs_ticker r, bs_date r, bs_total_assets r))
       (balance_sheet (committed_after (es ++ es) init_db))
   = [(1, "AAA", "2023-12-31", 100%float); (2, "AAA", "2023-12-31", 100%float)])
  /\ (forall d t date ta tl td tc ta' tl' td' tc',
        (2 <= List.length
                (filter (fun r => String.eqb (bs_ticker r) t && String.eqb (bs_date r) date)
                   (balance_sheet
                      (exec (INSERT_OR_REPLACE_balance_sheet t date ta' tl' td' tc')
                         (exec (INSERT_OR_REPLACE_balance_sheet t date ta tl td tc) d)))))%nat).
Proof.
  split; [reflexivity|].
  intros d t date ta tl td tc ta' tl' td' tc'.
  destruct (exec_balance_sheet_appends d t date ta tl td tc) as [id1 E1].
  destruct (exec_balance_sheet_appends
              (exec (INSERT_OR_REPLACE_balance_sheet t date ta tl td tc) d)
              t date ta' tl' td' tc') as [id2 E2].
  rewrite E2, E1, !filter_app, !length_app. simpl.
  rewrite !String.eqb_refl. simpl. lia.
Qed.

(** C3, as amended: the statement upserter never lets an exception out, so
    other tickers are not affected; a failure in one statement kind is logged
    with the ticker and the cause; the kinds handled before it keep their
    writes, and the kinds after it (in the order balance sheet, income,
    cashflow) are not processed. *)
Theorem fundamentals_failure_stops_later_kinds :
  forall (t : Ticker) (ticker : string),
    let bs := store_statement (yf_balance_sheet t) (store_balance_sheet_row ticker) in
    let inc := store_statement (yf_financials t) (store_income_statement_row ticker) in
    let cf := store_statement (yf_cashflow t) (store_cashflow_statement_row ticker) in
    let out := fetch_and_store_fundamentals t ticker in
    snd out = Ok tt
    /\ (forall e, snd bs = Raise e ->
          fst out = fst bs ++ [Print (LOG_FUNDAMENTALS_ERROR ticker e)])
    /\ (forall e, snd bs = Ok tt -> snd inc = Raise e ->
          fst out = fst bs ++ fst inc ++ [Print (LOG_FUNDAMENTALS_ERROR ticker e)])
    /\ (forall e, snd bs = Ok tt -> snd inc = Ok tt -> snd cf = Raise e ->
          fst out = fst bs ++ fst inc ++ fst cf
                    ++ [Print (LOG_FUNDAMENTALS_ERROR ticker e)])
    /\ (snd bs = Ok tt -> snd inc = Ok tt -> snd cf = Ok tt ->
          fst out = fst bs ++ fst inc ++ fst cf ++ [Commit]).
Proof.
  intros t ticker bs inc cf out.
  split; [apply fundamentals_returns|].
  subst out. unfold fetch_and_store_fundamentals, fundamentals_body.
  fold bs inc cf.
  destruct bs as [w1 [[]|e1]], inc as [w2 [[]|e2]], cf as [w3 [[]|e3]];
    simpl; repeat split; intros; try discriminate;
    repeat match goal with H : Raise _ = Raise _ |- _ => inversion H; subst; clear H end;
    rewrite ?app_nil_r, <- ?app_assoc; reflexivity.
Qed.

Lemma fundamentals_failure_stops_later_kinds_witness :
  fst (fetch_and_store_fundamentals ticker_BSFAIL "BSFAIL")
  = [Print (LOG_FUNDAMENTALS_ERROR "BSFAIL" "JSONDecodeError")]
  /\ fst (fetch_and_store_fundamentals ticker_BSOK "BSOK")
  = [Exec (INSERT_OR_REPLACE_income_statement "BSOK" "2023-12-31"
             7%float 0%float 0%float 0%float); Commit].
Proof.
  split.
  - destruct (fundamentals_failure_stops_later_kinds ticker_BSFAIL "BSFAIL")
      as [_ [H _]].
    apply (H "JSONDecodeError"). reflexivity.
  - destruct (fundamentals_failure_stops_later_kinds ticker_BSOK "BSOK")
      as [_ [_ [_ [_ H]]]].
    apply H; reflexivity.
Defined.

(** C3 as stated fails: when the balance sheet cannot be retrieved, the
    income statement of the same ticker, which the provider does answer, is
    not written; it is written when the balance sheet answers. *)
Lemma balance_sheet_failure_skips_income_statement :
  yf_financials ticker_BSFAIL = yf_financials ticker_BSOK
  /\ In (Exec (INSERT_OR_REPLACE_income_statement "T" "2023-12-31"
                 7%float 0%float 0%float 0%float))
        (fst (fetch_and_store_fundamentals ticker_BSOK "T"))
  /\ ~ In (Exec (INSERT_OR_REPLACE_income_statement "T" "2023-12-31"
                   7%float 0%float 0%float 0%float))
          (fst (fetch_and_store_fundamentals ticker_BSFAIL "T"))
  /\ income_statement
       (committed_after (fst (fetch_and_store_batch an_env ["BSFAIL"])) init_db) = [].
Proof.
  split; [reflexivity|]. split; [simpl; auto|]. split; [|reflexivity].
  simpl. intros [H|[]]. discriminate.
Qed.

(** ** The batch fetcher *)

Lemma resolve_price_no_effect (t : Ticker) : fst (resolve_price t) = [].
Proof.
  unfold resolve_price.
  destruct (none_or_zero _); [|reflexivity].
  destruct (yf_history_1d_Close t) as [closes|e]; simpl; [|reflexivity].
  destruct (last_close closes); reflexivity.
Qed.

(** The price the batch fetcher settles on. *)
Lemma resolve_price_fast (t : Ticker) (p : pyfloat) :
  yf_fast_info_last_price t = Ok (Some p) -> is_zero p = false ->
  resolve_price t = ([], Ok (Some p)).
Proof. unfold resolve_price. intros -> H. simpl. now rewrite H. Qed.

Lemma resolve_price_fallback (t : Ticker) (closes : list pyfloat) (c : pyfloat) :
  none_or_zero (match yf_fast_info_last_price t with Ok p => p | Raise _ => None end)
    = true ->
  yf_history_1d_Close t = Ok closes -> last_close closes = Some c ->
  resolve_price t = ([], Ok (Some c)).
Proof. unfold resolve_price. intros -> -> H. simpl. now rewrite H. Qed.

Lemma resolve_price_none (t : Ticker) :
  match yf_fast_info_last_price t with Ok p => p | Raise _ => None end = None ->
  yf_history_1d_Close t = Ok [] ->
  resolve_price t = ([], Ok None).
Proof. unfold resolve_price. intros -> ->. reflexivity. Qed.

(** The turn of a ticker that has a price and an info with known shares:
    the three writes, the statement upserter and the [UPDATE] line. *)
Lemma process_ticker_writes (env : Env) (b : string) (price : pyfloat)
    (info : option Info) :
  snd (resolve_price (yf_Ticker env b)) = Ok (Some price) ->
  yf_info (yf_Ticker env b) = Ok info ->
  shares_known info ->
  exists st cur,
    stocks_write b price st
    /\ process_ticker env b
       = ([Exec st;
           Exec (INSERT_OR_REPLACE_prices b (pd_Timestamp_now (clock env b)) price
                   (sql_CURRENT_TIMESTAMP (clock env b)));
           Exec (INSERT_OR_IGNORE_price_history b (sql_DATE_now (clock env b)) price
                   (sql_CURRENT_TIMESTAMP (clock env b)));
           Print (LOG_SYNC b)]
          ++ fst (fetch_and_store_fundamentals (yf_Ticker env b) b)
          ++ [Print (LOG_UPDATE b price cur)],
          Ok tt).
Proof.
  intros Hp Hi Hsh. unfold process_ticker.
  pose proof (resolve_price_no_effect (yf_Ticker env b)) as Hw.
  destruct (resolve_price (yf_Ticker env b)) as [w r]. simpl in Hp, Hw. subst w r.
  rewrite Hi. unfold shares_known in Hsh. cbn [lift bind fst snd app].
  destruct (dict_get (sharesOutstanding (get_or info empty_info)) (Some 0%float))
    as [sh|]; [|congruence].
  pose proof (fundamentals_returns (yf_Ticker env b) b) as Hf.
  destruct (fetch_and_store_fundamentals (yf_Ticker env b) b) as [wf rf'].
  simpl in Hf. subst rf'. simpl.
  eexists _, _. split; [|reflexivity]. split; reflexivity.
Qed.

(** The three ways one ticker can go: an exception before anything is
    written, a skip, or the writes. *)
Lemma process_ticker_cases (env : Env) (b : string) :
  (exists e, process_ticker env b = ([], Raise e)
             /\ (snd (resolve_price (yf_Ticker env b)) = Raise e
                 \/ yf_info (yf_Ticker env b) = Raise e
                 \/ exists price info,
                      snd (resolve_price (yf_Ticker env b)) = Ok (Some price)
                      /\ yf_info (yf_Ticker env b) = Ok info
                      /\ ~ shares_known info))
  \/ (snd (resolve_price (yf_Ticker env b)) = Ok None
      /\ process_ticker env b = ([Print (LOG_SKIP b)], Ok tt))
  \/ (exists price st cur,
        snd (resolve_price (yf_Ticker env b)) = Ok (Some price)
        /\ stocks_write b price st
        /\ process_ticker env b
           = ([Exec st;
               Exec (INSERT_OR_REPLACE_prices b (pd_Timestamp_now (clock env b)) price
                       (sql_CURRENT_TIMESTAMP (clock env b)));
               Exec (INSERT_OR_IGNORE_price_history b (sql_DATE_now (clock env b)) price
                       (sql_CURRENT_TIMESTAMP (clock env b)));
               Print (LOG_SYNC b)]
              ++ fst (fetch_and_store_fundamentals (yf_Ticker env b) b)
              ++ [Print (LOG_UPDATE b price cur)],
              Ok tt)).
Proof.
  destruct (resolve_price (yf_Ticker env b)) as [w [[price|]|e]] eqn:Hp.
  - destruct (yf_info (yf_Ticker env b)) as [info|e] eqn:Hi.
    + destruct (dict_get (sharesOutstanding (get_or info empty_info)) (Some 0%float))
        as [sh|] eqn:Hsh.
      * right. right.
        destruct (process_ticker_writes env b price info) as [st [cur [Hst E]]].
        -- now rewrite Hp.
        -- exact Hi.
        -- unfold shares_known. rewrite Hsh. discriminate.
        -- now exists price, st, cur.
      * left. pose proof (resolve_price_no_effect (yf_Ticker env b)) as Hw.
        rewrite Hp in Hw. simpl in Hw. subst w.
        unfold process_ticker. rewrite Hp, Hi. cbn [lift bind fst snd app].
        rewrite Hsh. eexists. split; [reflexivity|]. right. right.
        exists price, info. repeat split. unfold shares_known. now rewrite Hsh.
    + left. pose proof (resolve_price_no_effect (yf_Ticker env b)) as Hw.
      rewrite Hp in Hw. simpl in Hw. subst w.
      unfold process_ticker. rewrite Hp, Hi. exists e. auto.
  - right. left. pose proof (resolve_price_no_effect (yf_Ticker env b)) as Hw.
    rewrite Hp in Hw. simpl in Hw. subst w.
    unfold process_ticker. rewrite Hp. split; reflexivity.
  - left. pose proof (resolve_price_no_effect (yf_Ticker env b)) as Hw.
    rewrite Hp in Hw. simpl in Hw. subst w.
    unfold process_ticker. rewrite Hp. exists e. auto.
Qed.

Lemma stocks_write_snapshot (b : string) (price : pyfloat) (st : stmt) :
  stocks_write b price st -> snapshot_write b st.
Proof. destruct st; simpl; tauto. Qed.

Lemma ticker_block_returns (env : Env) (b : string) :
  snd (ticker_block env b) = Ok tt.
Proof.
  unfold ticker_block.
  destruct (process_ticker_cases env b) as [[e [H _]]|[[_ H]|[p [st [cur [_ [_ H]]]]]]];
    rewrite H; reflexivity.
Qed.

Lemma ticker_loop_returns (env : Env) (tickers : list string) :
  snd (ticker_loop env tickers) = Ok tt.
Proof. apply for_each_Ok. intros b _. apply ticker_block_returns. Qed.

Lemma fetch_and_store_batch_returns (env : Env) (tickers : list string) :
  snd (fetch_and_store_batch env tickers) = Ok tt.
Proof.
  unfold fetch_and_store_batch. destruct tickers as [|t ts]; [reflexivity|].
  rewrite (bind_snd_Ok _ _ tt) by apply ticker_loop_returns. reflexivity.
Qed.

Lemma fetch_and_store_batch_effects (env : Env) (t : string) (ts : list string) :
  fst (fetch_and_store_batch env (t :: ts))
  = fst (ticker_loop env (map upper (t :: ts))) ++ [Commit; Close].
Proof.
  unfold fetch_and_store_batch.
  rewrite (bind_fst_Ok _ _ tt) by apply ticker_loop_returns. reflexivity.
Qed.

(** A predicate that holds of the writes of the statement upserter and of
    the three writes and the log lines of the batch fetcher holds of every
    effect of one turn of the loop. *)
Lemma ticker_block_Forall (P : effect -> Prop) (env : Env) (b : string) :
  (forall st, snapshot_write b st -> P (Exec st)) ->
  (forall l, P (Print l)) ->
  Forall P (fst (fetch_and_store_fundamentals (yf_Ticker env b) b)) ->
  Forall P (fst (ticker_block env b)).
Proof.
  intros Hexec Hprint Hfund. unfold ticker_block.
  destruct (process_ticker_cases env b) as [[e [H _]]|[[_ H]|[p [st [cur [_ [Hst H]]]]]]];
    rewrite H; simpl.
  - repeat constructor. apply Hprint.
  - repeat constructor. apply Hprint.
  - repeat (constructor; [first [apply Hprint | apply Hexec; first [exact (stocks_write_snapshot _ _ _ Hst) | reflexivity]]|]).
    apply Forall_app. split; [exact Hfund|]. repeat constructor. apply Hprint.
Qed.

Lemma fundamentals_block_effect (t : Ticker) (b : string) :
  Forall (block_effect b) (fst (fetch_and_store_fundamentals t b)).
Proof.
  unfold fetch_and_store_fundamentals, fundamentals_body.
  apply Forall_try_except; [|intros e; effects; exact I].
  apply Forall_bind; [|intros _; apply Forall_bind; [|intros _; apply Forall_bind]].
  - unfold store_balance_sheet_row. effects. reflexivity.
  - unfold store_income_statement_row. effects. reflexivity.
  - unfold store_cashflow_statement_row. effects. reflexivity.
  - intros _. effects. exact I.
Qed.

Lemma ticker_block_effects (env : Env) (b : string) :
  Forall (block_effect b) (fst (ticker_block env b)).
Proof.
  apply ticker_block_Forall.
  - intros st H. destruct st; simpl in *; try contradiction; now subst.
  - intros l. exact I.
  - apply fundamentals_block_effect.
Qed.

Lemma ticker_block_cashflow_rows (env : Env) (b : string) :
  Forall (cashflow_row_ok env) (fst (ticker_block env b)).
Proof.
  apply ticker_block_Forall.
  - intros st H. destruct st; simpl in *; try contradiction; exact I.
  - intros l. exact I.
  - apply fundamentals_cashflow_rows.
Qed.

Lemma batch_Forall (P : effect -> Prop) (env : Env) (tickers : list string) :
  (forall b, In b (map upper tickers) -> Forall P (fst (ticker_block env b))) ->
  P Commit -> P Close ->
  Forall P (fst (fetch_and_store_batch env tickers)).
Proof.
  intros Hb Hc Hcl. destruct tickers as [|t ts]; [constructor|].
  rewrite fetch_and_store_batch_effects. apply Forall_app. split.
  - apply Forall_for_each. exact Hb.
  - repeat constructor; assumption.
Qed.

(** *** Upper-case keys *)

Lemma ascii_upper_not_lower (c : ascii) : is_lower (ascii_upper c) = false.
Proof. destruct c as [[] [] [] [] [] [] [] []]; reflexivity. Qed.

Lemma upper_no_lower (s : string) : has_lower (upper s) = false.
Proof.
  induction s as [|c s IH]; simpl; [reflexivity|].
  now rewrite ascii_upper_not_lower, IH.
Qed.

(** C9: every statement the batch fetcher executes writes under the
    upper-cased form of one of the tickers it was given, and that form has no
    lower-case letter. *)
Theorem batch_writes_use_upper_case_ticker :
  forall (env : Env) (tickers : list string) (st : stmt),
    In (Exec st) (fst (fetch_and_store_batch env tickers)) ->
    exists t, In t tickers
              /\ stmt_ticker st = Some (upper t)
              /\ has_lower (upper t) = false.
Proof.
  intros env tickers st Hin.
  assert (H : Forall (fun e => match e with
                               | Exec st => exists t, In t tickers
                                                      /\ stmt_ticker st = Some (upper t)
                               | _ => True
                               end)
                     (fst (fetch_and_store_batch env tickers))).
  { apply batch_Forall; try exact I.
    intros b Hb. apply in_map_iff in Hb. destruct Hb as [t [E Ht]]. subst b.
    eapply Forall_impl; [|apply ticker_block_effects].
    intros [st'| | |l]; simpl; auto. intros Hst. now exists t. }
  rewrite Forall_forall in H. destruct (H _ Hin) as [t [Ht Hst]].
  exists t. repeat split; auto using upper_no_lower.
Qed.

Lemma batch_writes_use_upper_case_ticker_witness :
  exists t, In t ["aaa"]
            /\ stmt_ticker (INSERT_OR_REPLACE_prices "AAA" "2024-01-02 10:00:00" 10%float
                              "2024-01-02 15:00:00") = Some (upper t)
            /\ has_lower (upper t) = false.
Proof.
  apply (batch_writes_use_upper_case_ticker an_env ["aaa"]).
  simpl. right. left. reflexivity.
Defined.

(** *** Rows of other tickers *)

Lemma filter_filter_implied {A : Type} (f g : A -> bool) (l : list A) :
  (forall x, f x = true -> g x = true) -> filter f (filter g l) = filter f l.
Proof.
  intros H. induction l as [|x l IH]; simpl; [reflexivity|].
  destruct (g x) eqn:G; simpl.
  - now rewrite IH.
  - destruct (f x) eqn:F; [|exact IH]. apply H in F. congruence.
Qed.

Lemma filter_replace {A : Type} (key : A -> string) (tk b : string) (l : list A) (r : A) :
  tk <> b -> key r = b ->
  filter (fun x => String.eqb (key x) tk)
         (filter (fun x => negb (String.eqb (key x) b)) l ++ [r])
  = filter (fun x => String.eqb (key x) tk) l.
Proof.
  intros Hne Hr. rewrite filter_app. simpl. rewrite Hr.
  destruct (String.eqb_spec b tk) as [E|_]; [congruence|].
  rewrite app_nil_r. apply filter_filter_implied.
  intros x Hx. apply String.eqb_eq in Hx. apply negb_true_iff.
  apply String.eqb_neq. congruence.
Qed.

Lemma filter_append_other {A : Type} (key : A -> string) (tk b : string) (l : list A) (r : A) :
  tk <> b -> key r = b ->
  filter (fun x => String.eqb (key x) tk) (l ++ [r])
  = filter (fun x => String.eqb (key x) tk) l.
Proof.
  intros Hne Hr. rewrite filter_app. simpl. rewrite Hr.
  destruct (String.eqb_spec b tk) as [E|_]; [congruence|]. apply app_nil_r.
Qed.

Lemma exec_rows_of_other (st : stmt) (b tk : string) (d : db) :
  stmt_ticker st = Some b -> tk <> b -> rows_of tk (exec st d) = rows_of tk d.
Proof.
  intros Hst Hne. destruct st; simpl in Hst; inversion Hst; subst; clear Hst;
    unfold rows_of; simpl.
  - now rewrite (filter_replace s_ticker tk b).
  - now rewrite (filter_replace p_ticker tk b).
  - destruct (existsb _ _); [reflexivity|].
    now rewrite (filter_append_other ph_ticker tk b).
  - now rewrite (filter_append_other bs_ticker tk b).
  - now rewrite (filter_append_other inc_ticker tk b).
  - now rewrite (filter_append_other cf_ticker tk b).
Qed.

Lemma run_rows_of_other (es : list effect) (b tk : string) (s : store) :
  Forall (block_effect b) es -> tk <> b ->
  rows_of tk (working (run es s)) = rows_of tk (working s).
Proof.
  intros H Hne. revert s. induction H as [|e es He _ IH]; intros s; [reflexivity|].
  change (run (e :: es) s) with (run es (apply_effect s e)). rewrite IH.
  destruct e as [st| | |l]; simpl in *; try reflexivity; try contradiction.
  now apply (exec_rows_of_other st b).
Qed.

(** Without a [Close], what the connection sees at the end is what gets
    committed by a final [Commit]. *)
Lemma committed_after_commit_close (es : list effect) (d : db) :
  committed_after (es ++ [Commit; Close]) d = working (run es (mk_store d d)).
Proof. unfold committed_after. rewrite run_app. reflexivity. Qed.

Lemma ticker_loop_app (env : Env) (l1 l2 : list string) :
  fst (ticker_loop env (l1 ++ l2)) = fst (ticker_loop env l1) ++ fst (ticker_loop env l2).
Proof. apply for_each_app. intros b _. apply ticker_block_returns. Qed.

Lemma ticker_loop_cons (env : Env) (b : string) (l : list string) :
  fst (ticker_loop env (b :: l)) = fst (ticker_block env b) ++ fst (ticker_loop env l).
Proof.
  unfold ticker_loop. simpl.
  now rewrite (bind_fst_Ok _ _ tt) by apply ticker_block_returns.
Qed.

(** C6: the batch call returns normally whatever the provider does; every
    ticker of the list gets its turn, whatever happened to the others; a
    ticker whose processing raises is logged with its name and the
    exception, a ticker without a price is logged as skipped; the turn of one
    ticker leaves the rows of every other ticker as they were; and what the
    loop wrote is what the final commit makes durable. *)
Theorem batch_isolates_ticker_failures :
  forall (env : Env),
    (forall tickers, snd (fetch_and_store_batch env tickers) = Ok tt)
    /\ (forall l1 b l2,
          fst (fetch_and_store_batch env (l1 ++ b :: l2))
          = fst (ticker_loop env (map upper l1))
            ++ fst (ticker_block env (upper b))
            ++ fst (ticker_loop env (map upper l2))
            ++ [Commit; Close])
    /\ (forall b e,
          snd (process_ticker env b) = Raise e ->
          ticker_block env b
          = (fst (process_ticker env b) ++ [Print (LOG_ERROR b e)], Ok tt))
    /\ (forall b,
          snd (resolve_price (yf_Ticker env b)) = Ok None ->
          ticker_block env b = ([Print (LOG_SKIP b)], Ok tt))
    /\ (forall b tk s,
          tk <> b ->
          rows_of tk (working (run (fst (ticker_block env b)) s))
          = rows_of tk (working s))
    /\ (forall t ts d,
          committed_after (fst (fetch_and_store_batch env (t :: ts))) d
          = working (run (fst (ticker_loop env (map upper (t :: ts)))) (mk_store d d))).
Proof.
  intros env. repeat split.
  - apply fetch_and_store_batch_returns.
  - intros l1 b l2. destruct (l1 ++ b :: l2) as [|t ts] eqn:E.
    + destruct l1; discriminate.
    + rewrite fetch_and_store_batch_effects, <- E, map_app, ticker_loop_app.
      simpl map. rewrite ticker_loop_cons, <- !app_assoc. reflexivity.
  - intros b e H. unfold ticker_block. now rewrite (try_except_Raise _ _ e).
  - intros b H. unfold ticker_block.
    destruct (process_ticker_cases env b)
      as [[e [E [Hr|Hi]]]|[[_ E]|[p [st [cur [Hp [_ E]]]]]]].
    + congruence.
    + exfalso. unfold process_ticker in E.
      destruct (resolve_price (yf_Ticker env b)) as [w [[price|]|e']];
        simpl in H; discriminate.
    + now rewrite E.
    + congruence.
  - intros b tk s Hne. apply (run_rows_of_other _ b); [apply ticker_block_effects|exact Hne].
  - intros t ts d. rewrite fetch_and_store_batch_effects.
    apply committed_after_commit_close.
Qed.

Lemma batch_isolates_ticker_failures_witness :
  ticker_block an_env "DOWN" = ([Print (LOG_ERROR "DOWN" "ConnectionError")], Ok tt)
  /\ ticker_block an_env "BAD" = ([Print (LOG_SKIP "BAD")], Ok tt)
  /\ rows_of "AAA" (working (run (fst (ticker_block an_env "DOWN"))
                                 (run (fst (ticker_block an_env "AAA"))
                                      (mk_store init_db init_db))))
     = rows_of "AAA" (working (run (fst (ticker_block an_env "AAA"))
                                   (mk_store init_db init_db))).
Proof.
  destruct (batch_isolates_ticker_failures an_env) as [_ [_ [Herr [Hskip [Hrows _]]]]].
  split; [|split].
  - apply (Herr "DOWN" "ConnectionError"). reflexivity.
  - apply (Hskip "BAD"). reflexivity.
  - apply (Hrows "DOWN" "AAA"). discriminate.
Defined.

(** *** The price *)

(** C2, on the code: a ticker whose fast path answers zero and whose daily
    history is empty is not skipped; the batch fetcher writes its snapshot,
    price and price-history rows with price zero. *)
Theorem zero_price_ticker_is_written :
  resolve_price ticker_ZERO = ([], Ok (Some 0%float))
  /\ ~ In (Print (LOG_SKIP "ZERO")) (fst (fetch_and_store_batch an_env ["ZERO"]))
  /\ map (fun r => (p_ticker r, p_close r))
         (prices (committed_after (fst (fetch_and_store_batch an_env ["ZERO"])) init_db))
     = [("ZERO", 0%float)]
  /\ map (fun r => (s_ticker r, s_price r))
         (stocks (committed_after (fst (fetch_and_store_batch an_env ["ZERO"])) init_db))
     = [("ZERO", 0%float)]
  /\ map (fun r => (ph_ticker r, ph_date r, ph_close r))
         (price_history
            (committed_after (fst (fetch_and_store_batch an_env ["ZERO"])) init_db))
     = [("ZERO", "2024-01-02", 0%float)].
Proof.
  split; [reflexivity|]. split; [|repeat split; reflexivity].
  simpl. intuition discriminate.
Qed.

(** *** Capital expenditure *)

(** C10, as amended: every [cashflow_statement] row the batch fetcher writes
    stores the absolute value of the resolved capital-expenditure field of
    one period of the ticker's cashflow frame; the stored figure is never
    negative, it is non-negative whenever the resolved cell is a number, and
    it is null when the resolved cell is null. *)
Theorem capital_expenditures_is_absolute_value :
  forall (env : Env) (tickers : list string) (tk date : string) (ocf capex : pyfloat),
    In (Exec (INSERT_OR_REPLACE_cashflow_statement tk date ocf capex))
       (fst (fetch_and_store_batch env tickers)) ->
    exists df row x,
      yf_cashflow (yf_Ticker env tk) = Ok (Some df)
      /\ In (date, row) df
      /\ float (resolve_field (strip_index row) capex_chain zero) = Ok x
      /\ capex = py_abs x
      /\ is_negative capex = false
      /\ (x <> NaN -> is_nonneg capex = true)
      /\ (x = NaN -> capex = NaN).
Proof.
  intros env tickers tk date ocf capex Hin.
  assert (H : Forall (cashflow_row_ok env) (fst (fetch_and_store_batch env tickers))).
  { apply batch_Forall; try exact I. intros b _. apply ticker_block_cashflow_rows. }
  rewrite Forall_forall in H. destruct (H _ Hin) as [df [row [x [Hdf [Hrow [Hx Hc]]]]]].
  exists df, row, x. subst capex. repeat split; auto.
  - apply py_abs_not_negative.
  - apply py_abs_nonneg.
  - intros ->. reflexivity.
Qed.

Lemma capital_expenditures_is_absolute_value_witness :
  exists df row x,
    yf_cashflow (yf_Ticker an_env "NULLCAPEX") = Ok (Some df)
    /\ In ("2022-12-31", row) df
    /\ float (resolve_field (strip_index row) capex_chain zero) = Ok x
    /\ 3%float = py_abs x
    /\ is_negative 3%float = false
    /\ (x <> NaN -> is_nonneg 3%float = true)
    /\ (x = NaN -> 3%float = NaN).
Proof.
  apply (capital_expenditures_is_absolute_value an_env ["nullcapex"]
           "NULLCAPEX" "2022-12-31" 8%float 3%float).
  simpl. do 5 right. left. reflexivity.
Defined.

(** C10 as stated fails: a period whose capital expenditure is null gets a
    [cashflow_statement] row whose [capital_expenditures] is null, which is
    not a non-negative value. *)
Lemma null_capital_expenditure_is_stored_null :
  In (Exec (INSERT_OR_REPLACE_cashflow_statement "NULLCAPEX" "2023-12-31" 9%float NaN))
     (fst (fetch_and_store_batch an_env ["NULLCAPEX"]))
  /\ map (fun r => (cf_date r, cf_capital_expenditures r,
                    is_nonneg (cf_capital_expenditures r)))
         (cashflow_statement
            (committed_after (fst (fetch_and_store_batch an_env ["NULLCAPEX"])) init_db))
     = [("2023-12-31", NaN, false); ("2022-12-31", 3%float, true)].
Proof.
  split; [|reflexivity]. simpl. do 4 right. left. reflexivity.
Qed.

(** *** The refresh scheduler's batches *)

(** The fuel [refresh_all_tickers] gives to [batches] is enough: the batches
    are the tickers, in order. *)
Lemma batches_concat {A : Type} (fuel n : nat) (xs : list A) :
  (0 < n)%nat -> (List.length xs <= fuel)%nat ->
  List.concat (batches fuel n xs) = xs.
Proof.
  intros Hn. revert xs. induction fuel as [|fuel IH]; intros xs Hlen.
  - destruct xs; [reflexivity|simpl in Hlen; lia].
  - destruct xs as [|x xs]; [reflexivity|].
    cbn [batches List.concat]. rewrite IH.
    + apply firstn_skipn.
    + rewrite length_skipn.
      change (List.length (x :: xs)) with (S (List.length xs)) in *. lia.
Qed.

(** ** Price history *)

Lemma existsb_ph_has_key (t day : string) (l : list price_history_row) :
  existsb (ph_has_key t day) l = false -> ~ In (t, day) (map ph_key l).
Proof.
  intros H Hin. apply in_map_iff in Hin. destruct Hin as [r [E Hr]].
  assert (Ht : existsb (ph_has_key t day) l = true).
  { apply existsb_exists. exists r. split; [exact Hr|].
    unfold ph_key in E. inversion E. unfold ph_has_key.
    now rewrite !String.eqb_refl. }
  congruence.
Qed.

Lemma exec_price_history_NoDup (st : stmt) (d : db) :
  NoDup (map ph_key (price_history d)) ->
  NoDup (map ph_key (price_history (exec st d))).
Proof.
  intros H. destruct st; simpl; try exact H.
  destruct (existsb _ _) eqn:E; [exact H|].
  rewrite map_app. apply NoDup_app; [exact H|repeat constructor; intros []|].
  intros k Hk [Hk'|[]]. subst k. revert Hk. now apply existsb_ph_has_key.
Qed.

Lemma exec_price_history_keeps_rows (st : stmt) (d : db) (r : price_history_row) :
  In r (price_history d) -> In r (price_history (exec st d)).
Proof.
  intros H. destruct st; simpl; try exact H.
  destruct (existsb _ _); [exact H|]. apply in_or_app. now left.
Qed.

Lemma exec_price_history_first_wins (d : db) (t day : string) (p1 p2 : pyfloat)
    (ts1 ts2 : string) :
  price_history (exec (INSERT_OR_IGNORE_price_history t day p2 ts2)
                   (exec (INSERT_OR_IGNORE_price_history t day p1 ts1) d))
  = price_history (exec (INSERT_OR_IGNORE_price_history t day p1 ts1) d).
Proof.
  simpl. destruct (existsb (ph_has_key t day) (price_history d)) eqn:E.
  - now rewrite E.
  - rewrite existsb_app. simpl. unfold ph_has_key at 2. simpl.
    now rewrite !String.eqb_refl, orb_true_r.
Qed.

Lemma run_keeps_price_history (es : list effect) (s : store) :
  Forall keeps_price_history es ->
  price_history (working (run es s)) = price_history (working s).
Proof.
  intros H. revert s. induction H as [|e es He _ IH]; intros s; [reflexivity|].
  change (run (e :: es) s) with (run es (apply_effect s e)). rewrite IH.
  destruct e as [st| | |l]; simpl in *; try reflexivity; try contradiction.
  destruct st; try contradiction; reflexivity.
Qed.

Lemma fundamentals_keep_price_history (t : Ticker) (b : string) :
  Forall keeps_price_history (fst (fetch_and_store_fundamentals t b)).
Proof.
  unfold fetch_and_store_fundamentals, fundamentals_body.
  apply Forall_try_except; [|intros e; effects; exact I].
  apply Forall_bind; [|intros _; apply Forall_bind; [|intros _; apply Forall_bind]].
  - unfold store_balance_sheet_row. effects. exact I.
  - unfold store_income_statement_row. effects. exact I.
  - unfold store_cashflow_statement_row. effects. exact I.
  - intros _. effects. exact I.
Qed.

(** What one turn of the loop does to [price_history] when the ticker has a
    price and its info answers with known shares: the one insert-if-absent. *)
Lemma ticker_block_price_history (env : Env) (b : string) (price : pyfloat)
    (info : option Info) (s : store) :
  snd (resolve_price (yf_Ticker env b)) = Ok (Some price) ->
  yf_info (yf_Ticker env b) = Ok info ->
  shares_known info ->
  price_history (working (run (fst (ticker_block env b)) s))
  = price_history
      (exec (INSERT_OR_IGNORE_price_history b (sql_DATE_now (clock env b)) price
               (sql_CURRENT_TIMESTAMP (clock env b))) (working s)).
Proof.
  intros Hp Hi Hsh. unfold ticker_block.
  destruct (process_ticker_writes env b price info Hp Hi Hsh) as [st [cur [Hst E]]].
  rewrite E. simpl fst.
  change (?a :: ?b :: ?c :: ?d :: ?l) with ([a; b; c; d] ++ l).
  rewrite run_app, run_keeps_price_history.
  - destruct st; try contradiction. reflexivity.
  - apply Forall_app. split; [apply fundamentals_keep_price_history|].
    repeat constructor.
Qed.

(** Whatever the provider answers, one turn of the loop leaves
    [price_history] as it is or makes the one insert-if-absent. *)
Lemma ticker_block_price_history_any (env : Env) (b : string) (s : store) :
  price_history (working (run (fst (ticker_block env b)) s))
  = price_history (working s)
  \/ exists price,
       price_history (working (run (fst (ticker_block env b)) s))
       = price_history
           (exec (INSERT_OR_IGNORE_price_history b (sql_DATE_now (clock env b)) price
                    (sql_CURRENT_TIMESTAMP (clock env b))) (working s)).
Proof.
  destruct (process_ticker_cases env b)
    as [[e [E _]]|[[_ E]|[p [st [cur [Hp [Hst E]]]]]]].
  - left. unfold ticker_block. now rewrite E.
  - left. unfold ticker_block. now rewrite E.
  - right. exists p. unfold ticker_block. rewrite E. simpl fst.
    change (?a :: ?b0 :: ?c :: ?d :: ?l) with ([a; b0; c; d] ++ l).
    rewrite run_app, run_keeps_price_history.
    + destruct st; try contradiction. reflexivity.
    + apply Forall_app. split; [apply fundamentals_keep_price_history|].
      repeat constructor.
Qed.

(** C8: [price_history] keeps one row per (ticker, date) under every
    statement; no statement changes or removes a row it holds; a second
    insert for the same (ticker, date) changes nothing; and two batch calls
    for the same ticker on the same date, at prices [p1] then [p2], leave the
    row of the first call, with [p1]. *)
Theorem price_history_first_write_wins :
  (forall st d,
      NoDup (map ph_key (price_history d)) ->
      NoDup (map ph_key (price_history (exec st d))))
  /\ (forall st d r, In r (price_history d) -> In r (price_history (exec st d)))
  /\ (forall d t day p1 p2 ts1 ts2,
        price_history (exec (INSERT_OR_IGNORE_price_history t day p2 ts2)
                         (exec (INSERT_OR_IGNORE_price_history t day p1 ts1) d))
        = price_history (exec (INSERT_OR_IGNORE_price_history t day p1 ts1) d))
  /\ (forall env1 env2 t d p1 p2 i1 i2,
        snd (resolve_price (yf_Ticker env1 (upper t))) = Ok (Some p1) ->
        yf_info (yf_Ticker env1 (upper t)) = Ok i1 ->
        shares_known i1 ->
        snd (resolve_price (yf_Ticker env2 (upper t))) = Ok (Some p2) ->
        yf_info (yf_Ticker env2 (upper t)) = Ok i2 ->
        sql_DATE_now (clock env2 (upper t)) = sql_DATE_now (clock env1 (upper t)) ->
        existsb (ph_has_key (upper t) (sql_DATE_now (clock env1 (upper t))))
                (price_history d) = false ->
        price_history
          (committed_after (fst (fetch_and_store_batch env2 [t]))
             (committed_after (fst (fetch_and_store_batch env1 [t])) d))
        = price_history d
          ++ [mk_price_history_row (upper t) (sql_DATE_now (clock env1 (upper t))) p1
                (sql_CURRENT_TIMESTAMP (clock env1 (upper t)))]).
Proof.
  split; [exact exec_price_history_NoDup|].
  split; [exact exec_price_history_keeps_rows|].
  split; [exact exec_price_history_first_wins|].
  intros env1 env2 t d p1 p2 i1 i2 Hp1 Hi1 Hs1 Hp2 Hi2 Hday Hfresh.
  rewrite !fetch_and_store_batch_effects, !committed_after_commit_close.
  simpl map. rewrite !ticker_loop_cons. simpl (fst (ticker_loop _ [])).
  rewrite !app_nil_r.
  set (d1 := working (run (fst (ticker_block env1 (upper t))) (mk_store d d))).
  assert (H1 : price_history d1
               = price_history
                   (exec (INSERT_OR_IGNORE_price_history (upper t)
                            (sql_DATE_now (clock env1 (upper t))) p1
                            (sql_CURRENT_TIMESTAMP (clock env1 (upper t)))) d)).
  { subst d1. now rewrite (ticker_block_price_history env1 _ p1 i1). }
  simpl in H1. rewrite Hfresh in H1.
  destruct (ticker_block_price_history_any env2 (upper t) (mk_store d1 d1))
    as [E|[p E]]; rewrite E; simpl working; [exact H1|].
  rewrite Hday. simpl. rewrite H1, existsb_app. simpl. unfold ph_has_key at 2. simpl.
  now rewrite !String.eqb_refl, orb_true_r.
Qed.

Lemma price_history_first_write_wins_witness :
  NoDup (map ph_key (price_history
                       (exec (INSERT_OR_IGNORE_price_history "AAA" "2024-01-02" 10%float
                                "2024-01-02 15:00:00") init_db)))
  /\ price_history
       (committed_after
          (fst (fetch_and_store_batch
                  (priced_env 12%float (mk_Clock "2024-01-02 18:00:00" "2024-01-02"
                                                 "2024-01-02 23:00:00")) ["aaa"]))
          (committed_after (fst (fetch_and_store_batch (priced_env 10%float a_clock) ["aaa"]))
             init_db))
     = [mk_price_history_row "AAA" "2024-01-02" 10%float "2024-01-02 15:00:00"].
Proof.
  destruct price_history_first_write_wins as [Hnd [_ [_ Hbatch]]].
  split.
  - apply Hnd. constructor.
  - apply (Hbatch (priced_env 10%float a_clock)
                  (priced_env 12%float (mk_Clock "2024-01-02 18:00:00" "2024-01-02"
                                                 "2024-01-02 23:00:00"))
                  "aaa" init_db 10%float 12%float None None);
      try reflexivity. discriminate.
Defined.

(** ** The request queue *)

Lemma filter_filter {A : Type} (f g : A -> bool) (l : list A) :
  filter f (filter g l) = filter (fun x => g x && f x) l.
Proof.
  induction l as [|x l IH]; simpl; [reflexivity|].
  destruct (g x); simpl; [destruct (f x)|]; now rewrite IH.
Qed.

Lemma delete_all_update_requests (ids : list Z) (d : db) :
  queue_view (fold_left (fun d e => exec e d) (map DELETE_update_requests ids) d)
  = (filter (fun r => negb (existsb (Z.eqb (ur_id r)) ids)) (update_requests d),
     update_requests_seq d).
Proof.
  revert d. induction ids as [|a ids IH]; intros d; simpl.
  - unfold queue_view. f_equal. induction (update_requests d) as [|r l IHl]; simpl; congruence.
  - rewrite IH. simpl. rewrite filter_filter. f_equal.
    apply filter_ext. intros r. now rewrite negb_orb.
Qed.

Lemma run_only_exec (es : list effect) (s : store) :
  Forall only_exec es ->
  durable (run es s) = durable s
  /\ working (run es s)
     = fold_left (fun d e => exec e d)
         (flat_map (fun e => match e with Exec st => [st] | _ => [] end) es) (working s).
Proof.
  intros H. revert s. induction H as [|e es He _ IH]; intros s; [split; reflexivity|].
  change (run (e :: es) s) with (run es (apply_effect s e)).
  destruct e as [st| | |l]; simpl in He; try contradiction.
  destruct (IH (apply_effect s (Exec st))) as [H1 H2]. split; [exact H1|].
  rewrite H2. reflexivity.
Qed.

Lemma deletions_only_exec (d : db) : Forall only_exec (deletions d).
Proof. unfold deletions. apply Forall_forall. intros e H. apply in_map_iff in H.
  destruct H as [r [<- _]]. exact I. Qed.

Lemma deletions_stmts (d : db) :
  flat_map (fun e => match e with Exec st => [st] | _ => [] end) (deletions d)
  = map DELETE_update_requests (map fst (select_pending d)).
Proof. unfold deletions. induction (select_pending d) as [|r l IH]; simpl; congruence. Qed.

(** The request table once the pending requests of [d] are deleted. *)
Lemma run_deletions (d : db) :
  durable (run (deletions d) (mk_store d d)) = d
  /\ queue_view (working (run (deletions d) (mk_store d d)))
     = (filter (fun r => negb (existsb (Z.eqb (ur_id r)) (map fst (select_pending d))))
               (update_requests d),
        update_requests_seq d).
Proof.
  destruct (run_only_exec (deletions d) (mk_store d d) (deletions_only_exec d)) as [H1 H2].
  split; [exact H1|]. rewrite H2, deletions_stmts. apply delete_all_update_requests.
Qed.

Lemma exec_no_delete (st : stmt) (d : db) :
  no_delete (Exec st) -> queue_view (exec st d) = queue_view d.
Proof. destruct st; simpl; intros H; try reflexivity. contradiction. Qed.

Lemma run_no_delete (es : list effect) (s : store) (v : list update_requests_row * Z) :
  Forall no_delete es ->
  queue_view (durable s) = v -> queue_view (working s) = v ->
  queue_view (durable (run es s)) = v /\ queue_view (working (run es s)) = v.
Proof.
  intros H. revert s. induction H as [|e es He _ IH]; intros s Hd Hw; [now split|].
  change (run (e :: es) s) with (run es (apply_effect s e)).
  apply IH; destruct e as [st| | |l]; simpl; auto.
  now rewrite exec_no_delete.
Qed.

Lemma committed_after_no_delete (es : list effect) (d : db) :
  Forall no_delete es -> queue_view (committed_after es d) = queue_view d.
Proof.
  intros H. unfold committed_after.
  now destruct (run_no_delete es (mk_store d d) (queue_view d) H eq_refl eq_refl).
Qed.

Lemma block_effect_no_delete (b : string) (e : effect) : block_effect b e -> no_delete e.
Proof. destruct e as [[]| | |]; simpl; auto. discriminate. Qed.

Lemma batch_no_delete (env : Env) (tickers : list string) :
  Forall no_delete (fst (fetch_and_store_batch env tickers)).
Proof.
  apply batch_Forall; try exact I. intros b _.
  eapply Forall_impl; [apply block_effect_no_delete|apply ticker_block_effects].
Qed.

Lemma refresh_no_delete (env : Env) (d : db) :
  Forall no_delete (fst (refresh_all_tickers env d)).
Proof.
  unfold refresh_all_tickers. apply Forall_bind; [apply Forall_perform; exact I|intros _].
  destruct (select_distinct_tickers d) as [|t ts].
  - apply Forall_perform. exact I.
  - apply Forall_bind; [apply Forall_perform; exact I|intros _].
    apply Forall_for_each. intros l _. apply batch_no_delete.
Qed.

Lemma startup_no_delete (env : Env) (d : db) :
  Forall no_delete (fst (startup env d)).
Proof.
  unfold startup. apply Forall_bind; [apply Forall_perform; exact I|intros _].
  apply refresh_no_delete.
Qed.

Lemma for_each_perform {A : Type} (xs : list A) (f : A -> effect) :
  for_each xs (fun x => perform (f x)) = (map f xs, Ok tt).
Proof. induction xs as [|x xs IH]; simpl; [reflexivity|]. now rewrite IH. Qed.

(** The effects of an iteration that finds pending requests, in order. *)
Lemma daemon_iteration_service (env : Env) (now now' : Q) (st : daemon_state) (d : db) :
  select_pending d <> [] ->
  daemon_iteration env now now' st d
  = (mk_daemon_state (last_refresh_time st) SLEEP_ACTIVE, SERVICE_REQUESTS,
     (deletions d
        ++ Commit :: Close :: Print (LOG_WAKE (map snd (select_pending d)))
             :: fst (fetch_and_store_batch env (map snd (select_pending d))),
      Ok tt)).
Proof.
  intros H. unfold daemon_iteration, deletions.
  destruct (select_pending d) as [|r l] eqn:E; [congruence|].
  rewrite (for_each_perform (map fst (r :: l)) (fun rid => Exec (DELETE_update_requests rid))).
  pose proof (fetch_and_store_batch_returns env (map snd (r :: l))) as Hb.
  destruct (fetch_and_store_batch env (map snd (r :: l))) as [w res].
  simpl in Hb. subst res. rewrite map_map. simpl. reflexivity.
Qed.

Lemma daemon_iteration_other (env : Env) (now now' : Q) (st : daemon_state) (d : db) :
  select_pending d = [] ->
  snd (fst (daemon_iteration env now now' st d)) <> SERVICE_REQUESTS
  /\ Forall no_delete (fst (snd (daemon_iteration env now now' st d))).
Proof.
  intros H. unfold daemon_iteration. rewrite H.
  destruct (Qle_bool _ _); cbn [fst snd]; split; try discriminate.
  - apply Forall_bind; [apply refresh_no_delete|intros _; apply Forall_perform; exact I].
  - repeat constructor.
Qed.

Lemma Forall_firstn {A : Type} (P : A -> Prop) (n : nat) (l : list A) :
  Forall P l -> Forall P (firstn n l).
Proof.
  intros H. revert n. induction H as [|x l Hx _ IH]; intros [|n]; simpl;
    constructor; auto.
Qed.

Lemma committed_after_service_prefix (d : db) (rest : list effect) :
  Forall no_delete rest ->
  queue_view (committed_after (deletions d ++ Commit :: rest) d) = dequeued_view d.
Proof.
  intros H. unfold committed_after. rewrite run_app.
  destruct (run_deletions d) as [_ Hw].
  change (run (Commit :: rest) ?s) with (run rest (apply_effect s Commit)).
  now destruct (run_no_delete rest
                  (apply_effect (run (deletions d) (mk_store d d)) Commit)
                  (dequeued_view d) H Hw Hw).
Qed.

(** Where a request-serving iteration stops decides what is committed: the
    table as it was when the process dies before the commit, the table
    without the pending requests from the commit on. *)
Lemma committed_after_service_firstn (d : db) (rest : list effect) (n : nat) :
  Forall no_delete rest ->
  queue_view (committed_after (firstn n (deletions d ++ Commit :: rest)) d)
  = if (n <=? List.length (select_pending d))%nat then queue_view d else dequeued_view d.
Proof.
  intros H. rewrite firstn_app.
  assert (Hlen : List.length (deletions d) = List.length (select_pending d))
    by (unfold deletions; apply length_map).
  rewrite Hlen.
  destruct (Nat.leb_spec n (List.length (select_pending d))) as [Hn|Hn].
  - replace (n - List.length (select_pending d))%nat with 0%nat by lia.
    simpl. rewrite app_nil_r. unfold committed_after.
    destruct (run_only_exec (firstn n (deletions d)) (mk_store d d)) as [Hd _].
    + apply Forall_firstn, deletions_only_exec.
    + now rewrite Hd.
  - rewrite firstn_all2 by lia.
    destruct (n - List.length (select_pending d))%nat as [|m] eqn:E; [lia|].
    simpl firstn. apply committed_after_service_prefix. now apply Forall_firstn.
Qed.

Lemma in_fold_max (ids : list Z) (x : Z) : In x ids -> x <= fold_right Z.max 0 ids.
Proof.
  induction ids as [|a ids IH]; simpl; [contradiction|].
  intros [->|H]; [lia|]. specialize (IH H). lia.
Qed.

Lemma next_rowid_fresh (seq : Z) (ids : list Z) :
  seq < next_rowid seq ids /\ forall x, In x ids -> x < next_rowid seq ids.
Proof.
  unfold next_rowid. split; [lia|]. intros x H. apply in_fold_max in H. lia.
Qed.

Lemma queue_inv_enqueue (d : db) (P : list Z) (t ts : string) :
  queue_inv (queue_view d) P -> queue_inv (queue_view (enqueue_request t ts d)) P.
Proof.
  intros [Hnd [Hle [HP HPd]]]. unfold queue_view in *. simpl in *.
  destruct (next_rowid_fresh (update_requests_seq d) (map ur_id (update_requests d)))
    as [Hseq Hids].
  set (id := next_rowid _ _) in *.
  unfold queue_inv, enqueue_request. cbn [fst snd update_requests update_requests_seq].
  fold id. repeat split.
  - rewrite map_app. simpl. apply NoDup_app; [exact Hnd|repeat constructor; intros []|].
    intros x Hx [<-|[]]. apply Hids in Hx. lia.
  - apply Forall_app. split.
    + eapply Forall_impl; [|exact Hle]. simpl. intros r Hr. lia.
    + repeat constructor. simpl. lia.
  - exact HP.
  - eapply Forall_impl; [|exact HPd]. simpl. intros x [Hx Hnot]. split; [lia|].
    rewrite map_app, in_app_iff. simpl. intros [Hin|[Hin|[]]]; [tauto|lia].
Qed.

Lemma select_pending_ids (d : db) (x : Z) :
  In x (map fst (select_pending d)) -> In x (map ur_id (update_requests d)).
Proof.
  unfold select_pending. rewrite map_map. simpl. intros H.
  apply in_map_iff in H. destruct H as [r [<- Hr]]. apply filter_In in Hr.
  apply in_map. tauto.
Qed.

(** Dropping rows keeps [id] a key. *)
Lemma ids_NoDup_filter (keep : update_requests_row -> bool) (rows : list update_requests_row) :
  NoDup (map ur_id rows) -> NoDup (map ur_id (filter keep rows)).
Proof.
  induction rows as [|r rows IH]; simpl; intros H; [constructor|].
  inversion H as [|? ? Hr Hrows]; subst. destruct (keep r); simpl; auto.
  constructor; auto. intros Hin. apply Hr. apply in_map_iff in Hin.
  destruct Hin as [y [E Hy]]. apply filter_In in Hy. apply in_map_iff. exists y. tauto.
Qed.

Lemma select_pending_NoDup (d : db) :
  NoDup (map ur_id (update_requests d)) -> NoDup (map fst (select_pending d)).
Proof.
  unfold select_pending. rewrite map_map. simpl. apply ids_NoDup_filter.
Qed.

Lemma in_map_filter {A B : Type} (f : A -> B) (p : A -> bool) (l : list A) (y : B) :
  In y (map f (filter p l)) -> In y (map f l).
Proof.
  intros H. apply in_map_iff in H. destruct H as [x [E Hx]]. apply filter_In in Hx.
  apply in_map_iff. exists x. tauto.
Qed.

(** Dropping rows keeps the invariant. *)
Lemma queue_inv_filter (l : list update_requests_row) (seq : Z) (p : update_requests_row -> bool)
    (P : list Z) :
  queue_inv (l, seq) P -> queue_inv (filter p l, seq) P.
Proof.
  intros [Hnd [Hle [HP HPd]]]. simpl in *. repeat split; simpl.
  - now apply ids_NoDup_filter.
  - apply Forall_forall. intros r Hr. apply filter_In in Hr.
    rewrite Forall_forall in Hle. apply Hle. tauto.
  - exact HP.
  - eapply Forall_impl; [|exact HPd]. simpl. intros x [Hx Hnot]. split; [exact Hx|].
    intros Hin. apply Hnot. eapply in_map_filter. exact Hin.
Qed.

(** Handing the pending requests over, once they are deleted. *)
Lemma queue_inv_dequeue (d : db) (P : list Z) :
  queue_inv (queue_view d) P ->
  queue_inv (dequeued_view d) (P ++ map fst (select_pending d)).
Proof.
  intros H. pose proof (queue_inv_filter _ _
    (fun r => negb (existsb (Z.eqb (ur_id r)) (map fst (select_pending d)))) P H) as Hf.
  destruct H as [Hnd [Hle [HP HPd]]]. destruct Hf as [Hnd' [Hle' [_ HPd']]].
  unfold dequeued_view, queue_view in *. simpl in *. repeat split; simpl; auto.
  - apply NoDup_app; [exact HP|now apply select_pending_NoDup|].
    intros x Hx Hsel. rewrite Forall_forall in HPd. apply (HPd x Hx).
    now apply select_pending_ids.
  - apply Forall_app. split; [exact HPd'|].
    apply Forall_forall. intros x Hx. split.
    + apply select_pending_ids in Hx. apply in_map_iff in Hx.
      destruct Hx as [r [<- Hr]]. rewrite Forall_forall in Hle. now apply Hle.
    + intros Hin. apply in_map_iff in Hin. destruct Hin as [r [E Hr]].
      apply filter_In in Hr. destruct Hr as [_ Hr]. apply negb_true_iff in Hr.
      assert (Ht : existsb (Z.eqb (ur_id r)) (map fst (select_pending d)) = true).
      { apply existsb_exists. exists x. split; [exact Hx|]. subst x. apply Z.eqb_refl. }
      congruence.
Qed.

Lemma queue_inv_drop (v : list update_requests_row * Z) (P Q : list Z) :
  queue_inv v (P ++ Q) -> queue_inv v P.
Proof.
  intros [Hnd [Hle [HP HPd]]]. repeat split; auto.
  - eapply NoDup_app_remove_r. exact HP.
  - apply Forall_app in HPd. tauto.
Qed.

Lemma processed_ids_app (o1 o2 : list observation) :
  processed_ids (o1 ++ o2) = processed_ids o1 ++ processed_ids o2.
Proof. unfold processed_ids. now rewrite map_app, concat_app, map_app. Qed.

Lemma processed_ids_slept (br : branch) (h : list (Z * string)) (q : pyfloat) :
  processed_ids [Slept br h q] = map fst h.
Proof. unfold processed_ids. simpl. now rewrite app_nil_r. Qed.

Lemma processed_ids_died (h : list (Z * string)) :
  processed_ids [Died h] = map fst h.
Proof. unfold processed_ids. simpl. now rewrite app_nil_r. Qed.

(** One event keeps the invariant, with the ids it handed over added. *)
Lemma step_queue_inv (ev : event) (st : daemon_state) (d : db) (P : list Z) :
  queue_inv (queue_view d) P ->
  queue_inv (queue_view (snd (fst (step ev (st, d)))))
            (P ++ processed_ids (snd (step ev (st, d)))).
Proof.
  intros H. destruct ev as [t ts|env now now'|env now now' n env0 t0]; unfold step.
  - cbn [fst snd]. change (processed_ids []) with (@nil Z).
    rewrite app_nil_r. now apply queue_inv_enqueue.
  - destruct (select_pending d) as [|r l] eqn:E.
    + destruct (daemon_iteration_other env now now' st d E) as [Hbr Hnd].
      destruct (daemon_iteration env now now' st d) as [[st' br] m]. cbn [fst snd] in *.
      rewrite (committed_after_no_delete _ _ Hnd), processed_ids_slept.
      destruct br; try congruence; simpl; now rewrite app_nil_r.
    + rewrite daemon_iteration_service by congruence. cbn [fst snd].
      rewrite processed_ids_slept, committed_after_service_prefix.
      * now apply queue_inv_dequeue.
      * repeat constructor. apply batch_no_delete.
  - destruct (select_pending d) as [|r l] eqn:E.
    + destruct (daemon_iteration_other env now now' st d E) as [Hbr Hnd].
      destruct (daemon_iteration env now now' st d) as [[st' br] m]. cbn [fst snd] in *.
      rewrite (committed_after_no_delete _ _ (startup_no_delete _ _)).
      rewrite (committed_after_no_delete _ _ (Forall_firstn _ _ _ Hnd)).
      rewrite processed_ids_died.
      destruct br; try congruence; destruct (_ <? _)%nat; simpl;
        now rewrite app_nil_r.
    + rewrite daemon_iteration_service by congruence. cbn [fst snd].
      rewrite (committed_after_no_delete _ _ (startup_no_delete _ _)).
      rewrite committed_after_service_firstn
        by (repeat constructor; apply batch_no_delete).
      rewrite processed_ids_died. unfold dequeue_length, fetched.
      pose proof (queue_inv_dequeue d P H) as Hdq.
      destruct (Nat.leb_spec n (List.length (select_pending d))) as [Hn|Hn].
      * destruct (Nat.ltb_spec (List.length (select_pending d) + 2) n); [lia|].
        simpl. now rewrite app_nil_r.
      * destruct (Nat.ltb_spec (List.length (select_pending d) + 2) n).
        -- exact Hdq.
        -- simpl. rewrite app_nil_r. eapply queue_inv_drop. exact Hdq.
Qed.

Lemma run_events_cons (ev : event) (evs : list event) (x : daemon_state * db) :
  snd (run_events (ev :: evs) x)
  = snd (step ev x) ++ snd (run_events evs (fst (step ev x))).
Proof.
  simpl. destruct (step ev x) as [x' o]. simpl.
  destruct (run_events evs x') as [x'' os]. reflexivity.
Qed.

Lemma run_events_at_most_once (evs : list event) (st : daemon_state) (d : db) (P : list Z) :
  queue_inv (queue_view d) P ->
  NoDup (P ++ processed_ids (snd (run_events evs (st, d)))).
Proof.
  revert st d P. induction evs as [|ev evs IH]; intros st d P H.
  - simpl. unfold processed_ids. simpl. rewrite app_nil_r. apply H.
  - rewrite run_events_cons, processed_ids_app, app_assoc.
    pose proof (step_queue_inv ev st d P H) as Hstep.
    destruct (step ev (st, d)) as [[st' d'] o]. simpl in *. now apply IH.
Qed.

Lemma filter_none {A : Type} (p : A -> bool) (l : list A) :
  (forall x, In x l -> p x = false) -> filter p l = [].
Proof.
  induction l as [|x l IH]; simpl; intros H; [reflexivity|].
  rewrite (H x) by now left. apply IH. intros y Hy. apply H. now right.
Qed.

(** Once the deletions are committed nothing is pending. *)
Lemma dequeued_view_nothing_pending (d : db) :
  filter (fun r => ur_processed r =? 0) (fst (dequeued_view d)) = []
  /\ forall id, In id (map fst (select_pending d)) ->
                ~ In id (map ur_id (fst (dequeued_view d))).
Proof.
  unfold dequeued_view. cbn [fst]. split.
  - rewrite filter_filter. apply filter_none. intros r Hr.
    destruct (ur_processed r =? 0) eqn:Ep; [|apply andb_false_r].
    rewrite andb_true_r. apply negb_false_iff, existsb_exists.
    exists (ur_id r). split; [|apply Z.eqb_refl].
    unfold select_pending. rewrite map_map. simpl.
    apply in_map_iff. exists r. split; [reflexivity|]. apply filter_In. now split.
  - intros id Hid Hin. apply in_map_iff in Hin. destruct Hin as [r [E Hr]].
    apply filter_In in Hr. destruct Hr as [_ Hr]. apply negb_true_iff in Hr.
    assert (Ht : existsb (Z.eqb (ur_id r)) (map fst (select_pending d)) = true).
    { apply existsb_exists. exists id. split; [exact Hid|]. subst id. apply Z.eqb_refl. }
    congruence.
Qed.

(** C4: an iteration that finds pending requests deletes them all, commits
    and closes, and only then calls the batch fetcher on their tickers; once
    the deletions are committed no request is pending and none of the deleted
    ids is in the table; wherever the process stops after the commit (the
    fetch failing, the process dying) the committed table is the one without
    them; and over any run of producer inserts, iterations and crashes with
    restarts, no request id is handed to the batch fetcher twice. *)
Theorem requests_are_processed_at_most_once :
  (forall env now now' st d,
      select_pending d <> [] ->
      daemon_iteration env now now' st d
      = (mk_daemon_state (last_refresh_time st) SLEEP_ACTIVE, SERVICE_REQUESTS,
         (deletions d
            ++ Commit :: Close :: Print (LOG_WAKE (map snd (select_pending d)))
                 :: fst (fetch_and_store_batch env (map snd (select_pending d))),
          Ok tt)))
  /\ (forall d,
        select_pending (committed_after (deletions d ++ [Commit]) d) = []
        /\ forall id, In id (map fst (select_pending d)) ->
             ~ In id (map ur_id
                        (update_requests (committed_after (deletions d ++ [Commit]) d))))
  /\ (forall env now now' st d n,
        select_pending d <> [] ->
        (List.length (select_pending d) < n)%nat ->
        queue_view (committed_after
                      (firstn n (fst (snd (daemon_iteration env now now' st d)))) d)
        = queue_view (committed_after (deletions d ++ [Commit]) d))
  /\ (forall evs st d,
        update_requests_wf d ->
        NoDup (processed_ids (snd (run_events evs (st, d))))).
Proof.
  split; [exact daemon_iteration_service|]. split; [|split].
  - intros d.
    pose proof (committed_after_service_prefix d [] (Forall_nil _)) as Hv.
    destruct (dequeued_view_nothing_pending d) as [H1 H2].
    unfold queue_view in Hv. unfold select_pending at 1.
    replace (update_requests (committed_after (deletions d ++ [Commit]) d))
      with (fst (dequeued_view d)) by (now rewrite <- Hv).
    rewrite H1. split; [reflexivity|exact H2].
  - intros env now now' st d n Hne Hn.
    rewrite daemon_iteration_service by exact Hne. cbn [fst snd].
    rewrite committed_after_service_firstn
      by (repeat constructor; apply batch_no_delete).
    rewrite (committed_after_service_prefix d [] (Forall_nil _)).
    destruct (Nat.leb_spec n (List.length (select_pending d))); [lia|reflexivity].
  - intros evs st d [Hnd Hle].
    apply (run_events_at_most_once evs st d []).
    unfold queue_inv, queue_view. cbn [fst snd]. repeat split; auto; constructor.
Qed.

Lemma requests_are_processed_at_most_once_witness :
  snd (fst (daemon_iteration an_env 1 1 (daemon_init 0) db_two_requests))
  = SERVICE_REQUESTS
  /\ queue_view (committed_after
       (firstn 5 (fst (snd (daemon_iteration an_env 1 1 (daemon_init 0) db_two_requests))))
       db_two_requests)
     = queue_view (committed_after (deletions db_two_requests ++ [Commit]) db_two_requests)
  /\ NoDup (processed_ids
              (snd (run_events
                      [Enqueue "aaa" "09:00"; Iterate an_env 1 1;
                       Enqueue "aaa" "09:01"; IterateCrash an_env 2 2 4 an_env 3;
                       Iterate an_env 4 4]
                      (daemon_init 0, init_db)))).
Proof.
  destruct requests_are_processed_at_most_once as [Hit [_ [Hcrash Hrun]]].
  split; [|split].
  - rewrite (Hit an_env 1%Q 1%Q (daemon_init 0) db_two_requests); [reflexivity|discriminate].
  - apply (Hcrash an_env 1%Q 1%Q (daemon_init 0) db_two_requests 5%nat).
    + discriminate.
    + simpl. lia.
  - apply Hrun. split; constructor.
Defined.

(** ** The poll interval *)

Lemma daemon_iteration_sleep (env : Env) (now now' : Q) (st : daemon_state) (d : db) :
  match snd (fst (daemon_iteration env now now' st d)) with
  | SERVICE_REQUESTS =>
      sleep_time (fst (fst (daemon_iteration env now now' st d))) = SLEEP_ACTIVE
  | PERIODIC_REFRESH =>
      sleep_time (fst (fst (daemon_iteration env now now' st d))) = sleep_time st
  | IDLE_BACKOFF =>
      sleep_time (fst (fst (daemon_iteration env now now' st d)))
      = py_min (fmul (sleep_time st) BACKOFF) SLEEP_IDLE
  end.
Proof.
  unfold daemon_iteration. destruct (select_pending d); [|reflexivity].
  destruct (Qle_bool _ _); reflexivity.
Qed.

Lemma run_events_fst_cons (ev : event) (evs : list event) (x : daemon_state * db) :
  fst (run_events (ev :: evs) x) = fst (run_events evs (fst (step ev x))).
Proof.
  simpl. destruct (step ev x) as [x' o]. simpl.
  destruct (run_events evs x') as [x'' os]. reflexivity.
Qed.

Lemma idle_count_app (o1 o2 : list observation) :
  idle_count (o1 ++ o2) = (idle_count o1 + idle_count o2)%nat.
Proof. unfold idle_count. now rewrite filter_app, length_app. Qed.

(** The interval after a stretch without a served request and without a
    crash: one step of line 230 per idle iteration. *)
Lemma quiet_run_sleep (evs : list event) (st : daemon_state) (d : db) :
  Forall quiet (snd (run_events evs (st, d))) ->
  sleep_time (fst (fst (run_events evs (st, d))))
  = backoff (idle_count (snd (run_events evs (st, d)))) (sleep_time st).
Proof.
  revert st d. induction evs as [|ev evs IH]; intros st d Hq.
  - reflexivity.
  - rewrite run_events_cons in *. rewrite run_events_fst_cons.
    apply Forall_app in Hq. destruct Hq as [Hq1 Hq2].
    rewrite idle_count_app.
    destruct ev as [t ts|env now now'|env now now' n env0 t0].
    + simpl in *. now apply IH.
    + unfold step in *.
      pose proof (daemon_iteration_sleep env now now' st d) as Hs.
      destruct (daemon_iteration env now now' st d) as [[st' br] m].
      cbn [fst snd] in *. inversion Hq1 as [|? ? Hbr _]; subst.
      destruct br; simpl in Hbr; try contradiction.
      * rewrite (IH st' _ Hq2), Hs. reflexivity.
      * rewrite (IH st' _ Hq2), Hs. reflexivity.
    + unfold step in Hq1. destruct (daemon_iteration env now now' st d) as [[st' br] m].
      cbn [fst snd] in Hq1. inversion Hq1 as [|? ? Hbr _]; subst. contradiction.
Qed.

Lemma backoff_add (a b : nat) (s : pyfloat) :
  backoff (a + b) s = backoff b (backoff a s).
Proof. revert s. induction a as [|a IH]; intros s; simpl; [reflexivity|apply IH]. Qed.

(** At the cap the interval stays. *)
Lemma backoff_at_cap (n : nat) : backoff n SLEEP_IDLE = SLEEP_IDLE.
Proof. induction n as [|n IH]; [reflexivity|exact IH]. Qed.

(** Eight steps from [SLEEP_ACTIVE] reach the cap. *)
Lemma backoff_reaches_cap (n : nat) :
  (8 <= n)%nat -> backoff n SLEEP_ACTIVE = SLEEP_IDLE.
Proof.
  intros H. replace n with (8 + (n - 8))%nat by lia.
  rewrite backoff_add. change (backoff 8 SLEEP_ACTIVE) with SLEEP_IDLE.
  apply backoff_at_cap.
Qed.

Lemma factor_pow_ge_1 (n : nat) : (1 <= Qpower (15 # 10) (Z.of_nat n))%Q.
Proof.
  induction n as [|n IH].
  - simpl. apply Qle_refl.
  - rewrite Nat2Z.inj_succ. unfold Z.succ. rewrite Qpower_plus by discriminate.
    change (Qpower (15 # 10) 1) with (15 # 10)%Q.
    set (a := Qpower (15 # 10) (Z.of_nat n)) in *. nra.
Qed.

(** From eight idle iterations on the formula of the specification is at the
    cap. *)
Lemma spec_interval_at_cap (n : nat) : (8 <= n)%nat -> (spec_interval n == 5)%Q.
Proof.
  intros H. unfold spec_interval. apply Q.min_r.
  replace n with (8 + (n - 8))%nat by lia.
  rewrite Nat2Z.inj_add, Qpower_plus by discriminate.
  pose proof (factor_pow_ge_1 (n - 8)) as Ha.
  set (a := Qpower (15 # 10) (Z.of_nat (n - 8))) in *.
  assert (E : (Qpower (15 # 10) (Z.of_nat 8) == 6561 # 256)%Q) by reflexivity.
  rewrite E. nra.
Qed.

(** What the code computes in binary64 stays within 10^-15 of the formula
    of the specification. *)
Lemma backoff_near_spec_interval (n : nat) :
  (Qabs (Q_of_float (backoff n SLEEP_ACTIVE) - spec_interval n)
   <= 1 # 1000000000000000)%Q.
Proof.
  destruct (Nat.lt_ge_cases n 8) as [H|H].
  - do 8 (destruct n as [|n]; [apply Qle_bool_imp_le; vm_compute; reflexivity|]).
    lia.
  - rewrite (backoff_reaches_cap n H), (spec_interval_at_cap n H).
    apply Qle_bool_imp_le. vm_compute. reflexivity.
Qed.

(** C5, as amended: an iteration that serves requests sets the interval to
    0.2; an iteration that runs the periodic refresh leaves the interval as
    it is; an idle iteration multiplies it by 1.5, capped at 5.0.  So after a
    request-serving iteration followed by iterations that serve no request, N
    of them idle, the interval is what N multiplications by 1.5 in binary64,
    each capped at 5.0, make of 0.2: it is within 10^-15 of
    min(0.2 * 1.5^N, 5.0), it is 5.0 from N = 8 on, and before that it is
    0.2, 0.30000000000000004, 0.45000000000000007, 0.675, 1.0125000000000002,
    1.5187500000000003, 2.278125 and 3.4171875000000003.  From the start of
    the daemon, where the interval is 5.0, it stays 5.0 until a request is
    served. *)
Theorem sleep_backoff_since_last_request :
  (forall env now now' st d,
      match snd (fst (daemon_iteration env now now' st d)) with
      | SERVICE_REQUESTS =>
          sleep_time (fst (fst (daemon_iteration env now now' st d))) = SLEEP_ACTIVE
      | PERIODIC_REFRESH =>
          sleep_time (fst (fst (daemon_iteration env now now' st d))) = sleep_time st
      | IDLE_BACKOFF =>
          sleep_time (fst (fst (daemon_iteration env now now' st d)))
          = py_min (fmul (sleep_time st) BACKOFF) SLEEP_IDLE
      end)
  /\ (forall env now now' st d evs,
        select_pending d <> [] ->
        let x := fst (step (Iterate env now now') (st, d)) in
        Forall quiet (snd (run_events evs x)) ->
        sleep_time (fst (fst (run_events evs x)))
        = backoff (idle_count (snd (run_events evs x))) SLEEP_ACTIVE)
  /\ (forall n,
        (Qabs (Q_of_float (backoff n SLEEP_ACTIVE) - spec_interval n)
         <= 1 # 1000000000000000)%Q)
  /\ (forall n, (8 <= n)%nat -> backoff n SLEEP_ACTIVE = 5.0%float)
  /\ map (fun n => backoff n SLEEP_ACTIVE) (seq 0 8)
     = [0.2; 0.30000000000000004; 0.45000000000000007; 0.675; 1.0125000000000002;
        1.5187500000000003; 2.278125; 3.4171875000000003]%float
  /\ (forall t0 d evs,
        Forall quiet (snd (run_events evs (daemon_init t0, d))) ->
        sleep_time (fst (fst (run_events evs (daemon_init t0, d)))) = 5.0%float).
Proof.
  split; [exact daemon_iteration_sleep|]. split; [|split; [|split; [|split]]].
  - intros env now now' st d evs Hne x Hq.
    assert (Hx : sleep_time (fst x) = SLEEP_ACTIVE).
    { subst x. unfold step. rewrite daemon_iteration_service by exact Hne. reflexivity. }
    destruct x as [st1 d1]. cbn [fst] in Hx.
    now rewrite (quiet_run_sleep evs st1 d1 Hq), Hx.
  - exact backoff_near_spec_interval.
  - exact backoff_reaches_cap.
  - reflexivity.
  - intros t0 d evs Hq.
    rewrite (quiet_run_sleep evs (daemon_init t0) d Hq). apply backoff_at_cap.
Qed.

Lemma sleep_backoff_since_last_request_witness :
  sleep_time (fst (fst (run_events [Iterate an_env 2 2; Iterate an_env 400 401;
                                     Iterate an_env 402 402]
                          (fst (step (Iterate an_env 1 1) (daemon_init 0, db_two_requests))))))
  = backoff (idle_count
               (snd (run_events [Iterate an_env 2 2; Iterate an_env 400 401;
                                 Iterate an_env 402 402]
                       (fst (step (Iterate an_env 1 1)
                               (daemon_init 0, db_two_requests))))))
            SLEEP_ACTIVE
  /\ backoff 11 SLEEP_ACTIVE = 5.0%float
  /\ sleep_time (fst (fst (run_events [Iterate an_env 1 1; Iterate an_env 400 401]
                             (daemon_init 0, init_db))))
     = 5.0%float.
Proof.
  destruct sleep_backoff_since_last_request as [_ [Hreq [_ [Hcap [_ Hinit]]]]].
  split; [|split].
  - apply (Hreq an_env 1%Q 1%Q (daemon_init 0) db_two_requests
             [Iterate an_env 2 2; Iterate an_env 400 401; Iterate an_env 402 402]).
    + discriminate.
    + vm_compute. repeat constructor.
  - apply (Hcap 11%nat). lia.
  - apply (Hinit 0%Q init_db [Iterate an_env 1 1; Iterate an_env 400 401]).
    vm_compute. repeat constructor.
Defined.

(** C5 as stated fails: a periodic refresh does not reset the interval.
    After a served request (0.2) and an idle iteration
    (0.30000000000000004), the periodic refresh leaves the interval where it
    is; at the start of the daemon the interval is 5.0, so after one idle
    iteration it is 5.0, not min(0.2 * 1.5, 5.0); and after two idle
    iterations the code has 0.45000000000000007, which is not the float
    0.45 that min(0.2 * 1.5^2, 5.0) denotes. *)
Lemma periodic_refresh_keeps_sleep_time :
  map (fun o => match o with Slept br _ x => Some (br, x) | Died _ => None end)
      (snd (run_events [Iterate an_env 1 1; Iterate an_env 2 2; Iterate an_env 400 401]
              (daemon_init 0, db_two_requests)))
  = [Some (SERVICE_REQUESTS, 0.2%float); Some (IDLE_BACKOFF, 0.30000000000000004%float);
     Some (PERIODIC_REFRESH, 0.30000000000000004%float)]
  /\ 0.30000000000000004%float <> SLEEP_ACTIVE
  /\ map (fun o => match o with Slept br _ x => Some (br, x) | Died _ => None end)
         (snd (run_events [Iterate an_env 1 1] (daemon_init 0, init_db)))
     = [Some (IDLE_BACKOFF, 5.0%float)]
  /\ 5.0%float <> py_min (fmul SLEEP_ACTIVE BACKOFF) SLEEP_IDLE
  /\ backoff 2 SLEEP_ACTIVE = 0.45000000000000007%float
  /\ backoff 2 SLEEP_ACTIVE <> py_min (fmul 0.2 (fmul 1.5 1.5)) 5.0.
Proof.
  split; [vm_compute; reflexivity|]. split; [discriminate|].
  split; [vm_compute; reflexivity|]. split; [discriminate|].
  split; [reflexivity|]. discriminate.
Qed.


(** ** The refresh scheduler *)

Lemma batches_sizes {A : Type} (fuel n : nat) (xs : list A) :
  (0 < n)%nat ->
  Forall (fun b => (1 <= List.length b <= n)%nat) (batches fuel n xs).
Proof.
  intros Hn. revert xs. induction fuel as [|fuel IH]; intros xs; [constructor|].
  destruct xs as [|x xs]; [constructor|].
  cbn [batches]. constructor; [|apply IH].
  rewrite length_firstn.
  change (List.length (x :: xs)) with (S (List.length xs)). lia.
Qed.

Lemma batches_full_but_last {A : Type} (fuel n : nat) (xs : list A)
    (pre : list (list A)) (b : list A) (post : list (list A)) :
  batches fuel n xs = pre ++ b :: post -> post <> [] -> List.length b = n.
Proof.
  revert xs pre. induction fuel as [|fuel IH]; intros xs pre E Hpost.
  - destruct pre; discriminate.
  - destruct xs as [|x xs]; [destruct pre; discriminate|].
    cbn [batches] in E. destruct pre as [|p pre]; simpl in E; inversion E; subst.
    + rewrite length_firstn.
      destruct fuel as [|fuel']; [simpl in Hpost; congruence|].
      destruct (skipn n (x :: xs)) as [|y ys] eqn:Es; [simpl in Hpost; congruence|].
      assert (Hl : (List.length (skipn n (x :: xs)) > 0)%nat) by (rewrite Es; simpl; lia).
      rewrite length_skipn in Hl. lia.
    + eapply IH; eauto.
Qed.

(** X1: the refresh scheduler cuts the tracked tickers into batches that,
    put end to end, are the tickers in their order; every batch holds between
    1 and [BATCH_SIZE] tickers, and every batch but the last holds exactly
    [BATCH_SIZE]. *)
Theorem refresh_batches_partition :
  forall (tickers : list string),
    let bs := batches (List.length tickers) BATCH_SIZE tickers in
    List.concat bs = tickers
    /\ Forall (fun b => (1 <= List.length b <= BATCH_SIZE)%nat) bs
    /\ (forall pre b post, bs = pre ++ b :: post -> post <> [] ->
                           List.length b = BATCH_SIZE).
Proof.
  intros tickers bs. split; [|split].
  - apply batches_concat; [unfold BATCH_SIZE; lia|lia].
  - apply batches_sizes. unfold BATCH_SIZE. lia.
  - intros pre b post. apply batches_full_but_last.
Qed.

Lemma refresh_batches_partition_witness :
  List.length (List.repeat "AAA" 120) = 120%nat
  /\ map (@List.length string) (batches 120 BATCH_SIZE (List.repeat "AAA" 120))
     = [50; 50; 20]%nat
  /\ List.length (firstn BATCH_SIZE (List.repeat "AAA" 120)) = BATCH_SIZE.
Proof.
  split; [reflexivity|]. split; [reflexivity|].
  destruct (refresh_batches_partition (List.repeat "AAA" 120)) as [_ [_ H]].
  apply (H [] (firstn BATCH_SIZE (List.repeat "AAA" 120))
           (batches 119 BATCH_SIZE (skipn BATCH_SIZE (List.repeat "AAA" 120)))).
  - reflexivity.
  - vm_compute. discriminate.
Defined.

Lemma block_effect_not_close (b : string) (e : effect) : block_effect b e -> not_close e.
Proof. destruct e; simpl; auto. Qed.

Lemma ticker_loop_not_close (env : Env) (tickers : list string) :
  Forall not_close (fst (ticker_loop env tickers)).
Proof.
  apply Forall_for_each. intros b _.
  eapply Forall_impl; [apply block_effect_not_close|apply ticker_block_effects].
Qed.

(** While the connection stays open it sees what it has written, whatever
    was committed before. *)
Lemma working_run_not_close (es : list effect) (s s' : store) :
  Forall not_close es -> working s = working s' ->
  working (run es s) = working (run es s').
Proof.
  intros H. revert s s'. induction H as [|e es He _ IH]; intros s s' E; [exact E|].
  change (run (e :: es) ?x) with (run es (apply_effect x e)).
  apply IH. destruct e as [st| | |l]; simpl in *; try contradiction; congruence.
Qed.

Lemma run_batch (env : Env) (b : list string) (w : db) :
  run (fst (fetch_and_store_batch env b)) (mk_store w w)
  = mk_store (working (run (fst (ticker_loop env (map upper b))) (mk_store w w)))
             (working (run (fst (ticker_loop env (map upper b))) (mk_store w w))).
Proof.
  destruct b as [|t ts]; [reflexivity|].
  rewrite fetch_and_store_batch_effects, run_app. reflexivity.
Qed.

Lemma run_batches (env : Env) (bs : list (list string)) (w : db) :
  run (fst (for_each bs (fetch_and_store_batch env))) (mk_store w w)
  = mk_store
      (working (run (fst (ticker_loop env (map upper (List.concat bs)))) (mk_store w w)))
      (working (run (fst (ticker_loop env (map upper (List.concat bs)))) (mk_store w w))).
Proof.
  revert w. induction bs as [|b bs IH]; intros w; [reflexivity|].
  cbn [for_each List.concat].
  rewrite (bind_fst_Ok _ _ tt) by apply fetch_and_store_batch_returns.
  rewrite run_app, run_batch, IH, map_app, ticker_loop_app, run_app.
  set (s1 := run (fst (ticker_loop env (map upper b))) (mk_store w w)).
  rewrite (working_run_not_close _ (mk_store (working s1) (working s1)) s1)
    by (try apply ticker_loop_not_close; reflexivity).
  reflexivity.
Qed.

Lemma refresh_effects (env : Env) (d : db) :
  fst (refresh_all_tickers env d)
  = match select_distinct_tickers d with
    | [] => [Close; Print LOG_REFRESH_EMPTY]
    | _ :: _ =>
        Close :: Print (LOG_REFRESH (List.length (select_distinct_tickers d)))
          :: fst (for_each (batches (List.length (select_distinct_tickers d)) BATCH_SIZE
                              (select_distinct_tickers d))
                           (fetch_and_store_batch env))
    end.
Proof.
  unfold refresh_all_tickers. destruct (select_distinct_tickers d); reflexivity.
Qed.

(** *** The tickers of a refresh: those of [prices], in key order *)

Lemma insert_in_key_order_In (t u : string) (l : list string) :
  In u (insert_in_key_order t l) <-> u = t \/ In u l.
Proof.
  induction l as [|x l IH]; simpl.
  - intuition.
  - destruct (String.leb t x); simpl; rewrite ?IH; intuition.
Qed.

Lemma key_order_In (u : string) (l : list string) : In u (key_order l) <-> In u l.
Proof.
  induction l as [|x l IH]; simpl; [tauto|].
  rewrite insert_in_key_order_In, IH. intuition.
Qed.

Lemma insert_in_key_order_NoDup (t : string) (l : list string) :
  ~ In t l -> NoDup l -> NoDup (insert_in_key_order t l).
Proof.
  induction l as [|x l IH]; simpl; intros Ht Hl.
  - repeat constructor. intros [].
  - destruct (String.leb t x).
    + constructor; [exact Ht|exact Hl].
    + inversion Hl as [|? ? Hx Hl']; subst. constructor.
      * rewrite insert_in_key_order_In. intros [E|Hin]; [subst; apply Ht; now left|].
        now apply Hx.
      * apply IH; [|exact Hl']. intros Hin. apply Ht. now right.
Qed.

Lemma key_order_NoDup (l : list string) : NoDup l -> NoDup (key_order l).
Proof.
  induction l as [|x l IH]; simpl; intros H; [constructor|].
  inversion H as [|? ? Hx Hl]; subst. apply insert_in_key_order_NoDup.
  - now rewrite key_order_In.
  - now apply IH.
Qed.

Lemma insert_in_key_order_sorted (t : string) (l : list string) :
  in_key_order l -> in_key_order (insert_in_key_order t l).
Proof.
  unfold in_key_order. induction l as [|x l IH]; simpl; intros H.
  - repeat constructor.
  - destruct (String.leb t x) eqn:E.
    + constructor; [exact H|]. constructor. exact E.
    + inversion H as [|? ? Hl Hx]; subst. constructor; [now apply IH|].
      destruct l as [|y l]; simpl.
      * constructor. destruct (String.leb_total t x) as [F|F]; congruence.
      * destruct (String.leb t y).
        -- constructor. destruct (String.leb_total t x) as [F|F]; congruence.
        -- inversion Hx; subst. now constructor.
Qed.

Lemma key_order_sorted (l : list string) : in_key_order (key_order l).
Proof.
  induction l as [|x l IH]; simpl; [constructor|].
  now apply insert_in_key_order_sorted.
Qed.

Lemma select_distinct_tickers_In (d : db) (t : string) :
  In t (select_distinct_tickers d) <-> In t (map p_ticker (prices d)).
Proof. unfold select_distinct_tickers. now rewrite key_order_In, nodup_In. Qed.

(** X2: a full refresh in batches stores what one pass of the ticker loop
    over all tracked tickers writes: the committed database after
    [refresh_all_tickers] is the database that pass sees at its end.  The
    tickers of the pass are those of [prices], each once, in key order.  With
    no tracked ticker the database is left as it is. *)
Theorem refresh_in_batches_is_one_pass :
  forall (env : Env) (d : db),
    committed_after (fst (refresh_all_tickers env d)) d
    = working (run (fst (ticker_loop env (map upper (select_distinct_tickers d))))
                   (mk_store d d))
    /\ (forall t, In t (select_distinct_tickers d) <-> In t (map p_ticker (prices d)))
    /\ NoDup (select_distinct_tickers d)
    /\ in_key_order (select_distinct_tickers d)
    /\ (prices d = [] -> committed_after (fst (refresh_all_tickers env d)) d = d).
Proof.
  intros env d. split; [|split; [|split; [|split]]].
  - rewrite refresh_effects.
    destruct (select_distinct_tickers d) as [|t ts] eqn:E; [reflexivity|].
    unfold committed_after.
    change (run (Close :: Print ?l :: ?es) (mk_store d d)) with (run es (mk_store d d)).
    rewrite run_batches, batches_concat by (unfold BATCH_SIZE; lia). reflexivity.
  - apply select_distinct_tickers_In.
  - apply key_order_NoDup, NoDup_nodup.
  - apply key_order_sorted.
  - intros Hp. rewrite refresh_effects. unfold select_distinct_tickers.
    rewrite Hp. reflexivity.
Qed.

Lemma refresh_in_batches_is_one_pass_witness :
  committed_after (fst (refresh_all_tickers (priced_env 10 a_clock) db_120_tickers))
                  db_120_tickers
  = working (run (fst (ticker_loop (priced_env 10 a_clock)
                         (map upper (select_distinct_tickers db_120_tickers))))
                 (mk_store db_120_tickers db_120_tickers))
  /\ map (@List.length string)
         (batches 120 BATCH_SIZE (select_distinct_tickers db_120_tickers))
     = [50; 50; 20]%nat
  /\ firstn 3 (map p_ticker (prices db_120_tickers)) = ["EP"; "EO"; "EN"]
  /\ firstn 3 (select_distinct_tickers db_120_tickers) = ["AA"; "AB"; "AC"]
  /\ committed_after (fst (refresh_all_tickers an_env init_db)) init_db = init_db.
Proof.
  split; [|split; [|split; [|split]]].
  - destruct (refresh_in_batches_is_one_pass (priced_env 10 a_clock) db_120_tickers)
      as [H _].
    exact H.
  - vm_compute. reflexivity.
  - vm_compute. reflexivity.
  - vm_compute. reflexivity.
  - destruct (refresh_in_batches_is_one_pass an_env init_db) as [_ [_ [_ [_ H]]]].
    apply H. reflexivity.
Defined.

Lemma in_batches {A : Type} (fuel n : nat) (xs b : list A) (x : A) :
  In b (batches fuel n xs) -> In x b -> In x xs.
Proof.
  revert xs. induction fuel as [|fuel IH]; intros xs Hb Hx; [contradiction|].
  destruct xs as [|y ys]; [contradiction|]. cbn [batches] in Hb.
  rewrite <- (firstn_skipn n (y :: ys)). apply in_or_app.
  destruct Hb as [<-|Hb]; [now left|right]. now apply IH.
Qed.

(** X3: the refresh scheduler writes only under the upper-cased form of
    tickers that are in [prices], and it leaves the request table and its id
    sequence as they are. *)
Theorem refresh_writes_tracked_tickers_only :
  forall (env : Env) (d : db),
    (forall st, In (Exec st) (fst (refresh_all_tickers env d)) ->
                exists t, In t (map p_ticker (prices d))
                          /\ stmt_ticker st = Some (upper t))
    /\ queue_view (committed_after (fst (refresh_all_tickers env d)) d) = queue_view d.
Proof.
  intros env d. split; [|apply committed_after_no_delete, refresh_no_delete].
  intros st Hin.
  assert (H : Forall (fun e => match e with
                               | Exec st => exists t, In t (select_distinct_tickers d)
                                                      /\ stmt_ticker st = Some (upper t)
                               | _ => True
                               end)
                     (fst (refresh_all_tickers env d))).
  { rewrite refresh_effects. destruct (select_distinct_tickers d) as [|t ts] eqn:E.
    - repeat constructor.
    - rewrite <- E. repeat (constructor; [exact I|]).
      apply Forall_for_each. intros b Hb. apply batch_Forall; try exact I.
      intros u Hu. apply in_map_iff in Hu. destruct Hu as [t' [<- Ht']].
      eapply Forall_impl; [|apply ticker_block_effects].
      intros [st'| | |l]; simpl; auto. intros Hst. exists t'. split; [|exact Hst].
      eapply in_batches; eauto. }
  rewrite Forall_forall in H. destruct (H _ Hin) as [t [Ht Hst]].
  exists t. split; [|exact Hst]. now apply select_distinct_tickers_In.
Qed.

Lemma refresh_writes_tracked_tickers_only_witness :
  exists t, In t (map p_ticker
                    (prices (committed_after (fst (fetch_and_store_batch an_env ["aaa"]))
                               init_db)))
            /\ stmt_ticker (INSERT_OR_REPLACE_prices "AAA" "2024-01-02 10:00:00" 10%float
                              "2024-01-02 15:00:00") = Some (upper t).
Proof.
  destruct (refresh_writes_tracked_tickers_only an_env
              (committed_after (fst (fetch_and_store_batch an_env ["aaa"])) init_db))
    as [H _].
  apply H. vm_compute. right. right. right. left. reflexivity.
Defined.

(** ** The snapshot tables: [prices] and [stocks] *)

Lemma keys_NoDup_filter {R K : Type} (key : R -> K) (keep : R -> bool) (rows : list R) :
  NoDup (map key rows) -> NoDup (map key (filter keep rows)).
Proof.
  induction rows as [|r rows IH]; simpl; intros H; [constructor|].
  inversion H as [|? ? Hr Hrows]; subst. destruct (keep r); simpl; auto.
  constructor; auto. intros Hin. apply Hr. apply in_map_iff in Hin.
  destruct Hin as [y [E Hy]]. apply filter_In in Hy. apply in_map_iff. exists y. tauto.
Qed.

Lemma replace_keeps_key {R : Type} (key : R -> string) (t : string) (rows : list R) (r : R) :
  key r = t -> NoDup (map key rows) ->
  NoDup (map key (filter (fun x => negb (String.eqb (key x) t)) rows ++ [r])).
Proof.
  intros Hr Hnd. rewrite map_app. apply NoDup_app.
  - now apply keys_NoDup_filter.
  - repeat constructor. intros [].
  - intros k Hk [Hk'|[]]. simpl in Hk'. subst k. apply in_map_iff in Hk.
    destruct Hk as [x [E Hx]]. apply filter_In in Hx. destruct Hx as [_ Hx].
    rewrite E, Hr, String.eqb_refl in Hx. discriminate.
Qed.

Lemma replace_is_last_write {R : Type} (key : R -> string) (t : string) (rows : list R) (r : R) :
  key r = t ->
  filter (fun x => String.eqb (key x) t)
         (filter (fun x => negb (String.eqb (key x) t)) rows ++ [r]) = [r].
Proof.
  intros Hr. rewrite filter_app, filter_filter. simpl. rewrite Hr, String.eqb_refl.
  rewrite filter_none; [reflexivity|]. intros x _.
  destruct (String.eqb (key x) t); reflexivity.
Qed.

Lemma exec_prices_key (st : stmt) (d : db) :
  NoDup (map p_ticker (prices d)) -> NoDup (map p_ticker (prices (exec st d))).
Proof.
  intros H. destruct st; simpl; try exact H. now apply replace_keeps_key.
Qed.

Lemma exec_stocks_key (st : stmt) (d : db) :
  NoDup (map s_ticker (stocks d)) -> NoDup (map s_ticker (stocks (exec st d))).
Proof.
  intros H. destruct st; simpl; try exact H. now apply replace_keeps_key.
Qed.

Lemma exec_statement_effect (st : stmt) (d : db) :
  statement_effect (Exec st) -> snapshot_tables (exec st d) = snapshot_tables d.
Proof. destruct st; simpl; intros H; try contradiction; reflexivity. Qed.

Lemma run_statement_effects (es : list effect) (s : store) :
  Forall statement_effect es ->
  snapshot_tables (working (run es s)) = snapshot_tables (working s).
Proof.
  intros H. revert s. induction H as [|e es He _ IH]; intros s; [reflexivity|].
  change (run (e :: es) s) with (run es (apply_effect s e)). rewrite IH.
  destruct e as [st| | |l]; simpl in *; try reflexivity; try contradiction.
  now apply exec_statement_effect.
Qed.

Lemma fundamentals_statement_effects (t : Ticker) (b : string) :
  Forall statement_effect (fst (fetch_and_store_fundamentals t b)).
Proof.
  unfold fetch_and_store_fundamentals, fundamentals_body.
  apply Forall_try_except; [|intros e; effects; exact I].
  apply Forall_bind; [|intros _; apply Forall_bind; [|intros _; apply Forall_bind]].
  - unfold store_balance_sheet_row. effects. exact I.
  - unfold store_income_statement_row. effects. exact I.
  - unfold store_cashflow_statement_row. effects. exact I.
  - intros _. effects. exact I.
Qed.

(** The turn of a ticker with a price whose info holds [None] for the
    shares: the product [price * shares] raises before anything is written. *)
Lemma ticker_block_shares_none (env : Env) (b : string) (price : pyfloat)
    (info : option Info) :
  snd (resolve_price (yf_Ticker env b)) = Ok (Some price) ->
  yf_info (yf_Ticker env b) = Ok info ->
  ~ shares_known info ->
  ticker_block env b
  = ([Print (LOG_ERROR b
        "TypeError: unsupported operand type(s) for *: 'float' and 'NoneType'")],
     Ok tt).
Proof.
  intros Hp Hi Hsh. unfold ticker_block, process_ticker.
  pose proof (resolve_price_no_effect (yf_Ticker env b)) as Hw.
  destruct (resolve_price (yf_Ticker env b)) as [w r]. simpl in Hp, Hw. subst w r.
  rewrite Hi. unfold shares_known in Hsh. cbn [lift bind fst snd app].
  destruct (dict_get (sharesOutstanding (get_or info empty_info)) (Some 0%float))
    as [sh|]; [exfalso; apply Hsh; discriminate|].
  reflexivity.
Qed.

(** What the turn of a ticker with a price and an info with known shares
    leaves in the snapshot tables: its three writes, in order. *)
Lemma ticker_block_snapshot (env : Env) (b : string) (price : pyfloat)
    (info : option Info) (s : store) :
  snd (resolve_price (yf_Ticker env b)) = Ok (Some price) ->
  yf_info (yf_Ticker env b) = Ok info ->
  shares_known info ->
  exists st,
    stocks_write b price st
    /\ snapshot_tables (working (run (fst (ticker_block env b)) s))
       = snapshot_tables
           (exec (INSERT_OR_IGNORE_price_history b (sql_DATE_now (clock env b)) price
                    (sql_CURRENT_TIMESTAMP (clock env b)))
              (exec (INSERT_OR_REPLACE_prices b (pd_Timestamp_now (clock env b)) price
                       (sql_CURRENT_TIMESTAMP (clock env b)))
                 (exec st (working s)))).
Proof.
  intros Hp Hi Hsh. unfold ticker_block.
  destruct (process_ticker_writes env b price info Hp Hi Hsh) as [st [cur [Hst E]]].
  exists st. split; [exact Hst|]. rewrite E. simpl fst.
  change (?a :: ?b :: ?c :: ?d :: ?l) with ([a; b; c; d] ++ l).
  rewrite run_app, run_statement_effects.
  - reflexivity.
  - apply Forall_app. split; [apply fundamentals_statement_effects|].
    repeat constructor.
Qed.

Lemma single_batch_committed (env : Env) (t : string) (d : db) :
  committed_after (fst (fetch_and_store_batch env [t])) d
  = working (run (fst (ticker_block env (upper t))) (mk_store d d)).
Proof.
  rewrite fetch_and_store_batch_effects, committed_after_commit_close.
  simpl map. rewrite ticker_loop_cons. simpl (fst (ticker_loop _ [])).
  now rewrite app_nil_r.
Qed.

(** X4: [prices] and [stocks] keep one row per ticker under every statement,
    and the batch fetcher overwrites them: after two batch calls for the same
    ticker, whatever the first one wrote, when the second is answered at
    price [p2] with an info whose shares are not [None], the only [prices]
    row of the ticker carries [p2] and the second call's timestamp, and the
    only [stocks] row of the ticker carries [p2].  When the info of the
    second call holds [None] for the shares, that call writes nothing and
    the database stays as the first call left it. *)
Theorem snapshot_last_write_wins :
  (forall st d,
      NoDup (map p_ticker (prices d)) -> NoDup (map p_ticker (prices (exec st d))))
  /\ (forall st d,
        NoDup (map s_ticker (stocks d)) -> NoDup (map s_ticker (stocks (exec st d))))
  /\ (forall env1 env2 t d p2 i2,
        snd (resolve_price (yf_Ticker env2 (upper t))) = Ok (Some p2) ->
        yf_info (yf_Ticker env2 (upper t)) = Ok i2 ->
        shares_known i2 ->
        let d2 := committed_after (fst (fetch_and_store_batch env2 [t]))
                    (committed_after (fst (fetch_and_store_batch env1 [t])) d) in
        filter (fun r => String.eqb (p_ticker r) (upper t)) (prices d2)
        = [mk_prices_row (upper t) (pd_Timestamp_now (clock env2 (upper t))) p2
             (sql_CURRENT_TIMESTAMP (clock env2 (upper t)))]
        /\ map s_price (filter (fun r => String.eqb (s_ticker r) (upper t)) (stocks d2))
           = [p2])
  /\ (forall env1 env2 t d p2 i2,
        snd (resolve_price (yf_Ticker env2 (upper t))) = Ok (Some p2) ->
        yf_info (yf_Ticker env2 (upper t)) = Ok i2 ->
        ~ shares_known i2 ->
        committed_after (fst (fetch_and_store_batch env2 [t]))
          (committed_after (fst (fetch_and_store_batch env1 [t])) d)
        = committed_after (fst (fetch_and_store_batch env1 [t])) d).
Proof.
  split; [exact exec_prices_key|]. split; [exact exec_stocks_key|]. split; cycle 1.
  { intros env1 env2 t d p2 i2 Hp2 Hi2 Hn. rewrite (single_batch_committed env2).
    now rewrite (ticker_block_shares_none env2 (upper t) p2 i2). }
  intros env1 env2 t d p2 i2 Hp2 Hi2 Hs2 d2. subst d2.
  rewrite (single_batch_committed env2).
  set (d1 := committed_after (fst (fetch_and_store_batch env1 [t])) d).
  destruct (ticker_block_snapshot env2 (upper t) p2 i2 (mk_store d1 d1) Hp2 Hi2 Hs2)
    as [st [Hst Hs]].
  unfold snapshot_tables in Hs. simpl working in Hs.
  inversion Hs as [[Hprices Hstocks Hph Hur Hseq]]. clear Hs.
  destruct st; simpl in Hst; try contradiction. destruct Hst as [-> ->].
  split.
  - rewrite Hprices. simpl. apply (replace_is_last_write p_ticker). reflexivity.
  - rewrite Hstocks. simpl. rewrite (replace_is_last_write s_ticker) by reflexivity.
    reflexivity.
Qed.

Lemma snapshot_last_write_wins_witness :
  NoDup (map p_ticker (prices (exec (INSERT_OR_REPLACE_prices "AAA" "t" 1%float "ts")
                                 init_db)))
  /\ filter (fun r => String.eqb (p_ticker r) (upper "aaa"))
       (prices (committed_after
                  (fst (fetch_and_store_batch
                          (priced_env 12%float (mk_Clock "2024-01-02 18:00:00" "2024-01-02"
                                                         "2024-01-02 23:00:00")) ["aaa"]))
                  (committed_after
                     (fst (fetch_and_store_batch (priced_env 10%float a_clock) ["aaa"]))
                     init_db)))
     = [mk_prices_row "AAA" "2024-01-02 18:00:00" 12%float "2024-01-02 23:00:00"]
  /\ committed_after (fst (fetch_and_store_batch an_env ["noshares"]))
       (committed_after (fst (fetch_and_store_batch (priced_env 10%float a_clock)
                                ["noshares"])) init_db)
     = committed_after (fst (fetch_and_store_batch (priced_env 10%float a_clock)
                               ["noshares"])) init_db.
Proof.
  destruct snapshot_last_write_wins as [Hkey [_ [Hlast Hnone]]].
  split; [|split].
  - apply Hkey. constructor.
  - apply (Hlast (priced_env 10%float a_clock)
                 (priced_env 12%float (mk_Clock "2024-01-02 18:00:00" "2024-01-02"
                                                "2024-01-02 23:00:00"))
                 "aaa" init_db 12%float None); try reflexivity.
    discriminate.
  - apply (Hnone (priced_env 10%float a_clock) an_env "noshares" init_db 10%float
             (Some (mk_Info (Holds None) (Holds (Some 2500%float)) Missing
                            (Holds (Some "No Shares Inc")) Missing Missing)));
      try reflexivity.
    intros H. now apply H.
Defined.

(** ** The tracked universe *)

Lemma exec_keeps_tracked (st : stmt) (d : db) (t : string) :
  In t (map p_ticker (prices d)) -> In t (map p_ticker (prices (exec st d))).
Proof.
  intros H. destruct st; simpl; try exact H.
  rewrite map_app, in_app_iff. simpl.
  destruct (String.eqb_spec ticker t) as [E|E]; [now right; left|left].
  apply in_map_iff in H. destruct H as [r [Hr Hin]]. apply in_map_iff.
  exists r. split; [exact Hr|]. apply filter_In. split; [exact Hin|].
  apply negb_true_iff, String.eqb_neq. congruence.
Qed.

Lemma run_keeps_tracked (es : list effect) (s : store) (t : string) :
  Forall not_close es ->
  In t (map p_ticker (prices (working s))) ->
  In t (map p_ticker (prices (working (run es s)))).
Proof.
  intros H. revert s. induction H as [|e es He _ IH]; intros s Hin; [exact Hin|].
  change (run (e :: es) s) with (run es (apply_effect s e)). apply IH.
  destruct e as [st| | |l]; simpl in *; try assumption; try contradiction.
  now apply exec_keeps_tracked.
Qed.

Lemma ticker_block_not_close (env : Env) (b : string) :
  Forall not_close (fst (ticker_block env b)).
Proof.
  eapply Forall_impl; [apply block_effect_not_close|apply ticker_block_effects].
Qed.

Lemma ticker_block_tracks (env : Env) (b : string) (price : pyfloat)
    (info : option Info) (s : store) :
  snd (resolve_price (yf_Ticker env b)) = Ok (Some price) ->
  yf_info (yf_Ticker env b) = Ok info ->
  shares_known info ->
  In b (map p_ticker (prices (working (run (fst (ticker_block env b)) s)))).
Proof.
  intros Hp Hi Hsh.
  destruct (ticker_block_snapshot env b price info s Hp Hi Hsh) as [st [_ Hs]].
  unfold snapshot_tables in Hs. inversion Hs as [[Hprices Hstocks Hph Hur Hseq]].
  rewrite Hprices. simpl. rewrite map_app, in_app_iff. right. now left.
Qed.

Lemma batch_keeps_tracked (env : Env) (tickers : list string) (d : db) (t : string) :
  In t (map p_ticker (prices d)) ->
  In t (map p_ticker (prices (committed_after (fst (fetch_and_store_batch env tickers)) d))).
Proof.
  intros H. destruct tickers as [|u us]; [exact H|].
  rewrite fetch_and_store_batch_effects, committed_after_commit_close.
  apply run_keeps_tracked; [apply ticker_loop_not_close|exact H].
Qed.

Lemma batch_tracks_priced (env : Env) (tickers : list string) (d : db) (t : string)
    (price : pyfloat) (info : option Info) :
  In t tickers ->
  snd (resolve_price (yf_Ticker env (upper t))) = Ok (Some price) ->
  yf_info (yf_Ticker env (upper t)) = Ok info ->
  shares_known info ->
  In (upper t)
     (map p_ticker (prices (committed_after (fst (fetch_and_store_batch env tickers)) d))).
Proof.
  intros Hin Hp Hi Hsh. destruct tickers as [|u us]; [contradiction|].
  rewrite fetch_and_store_batch_effects, committed_after_commit_close.
  apply in_split in Hin. destruct Hin as [l1 [l2 E]]. rewrite E.
  rewrite map_app, ticker_loop_app. simpl map. rewrite ticker_loop_cons, !run_app.
  apply run_keeps_tracked; [apply ticker_loop_not_close|].
  now apply (ticker_block_tracks env (upper t) price info).
Qed.

(** X5: the batch fetcher only ever adds to the tracked universe (the
    distinct tickers of [prices]): a ticker that was tracked before a batch
    call is tracked after it, and a ticker of the batch that has a price and
    an info whose shares are not [None] is tracked after it, under its
    upper-cased name.  A ticker whose info holds [None] for the shares is
    not added: its turn ends in an [ERROR] line and leaves the store as it
    is. *)
Theorem batch_grows_tracked_universe :
  forall (env : Env) (tickers : list string) (d : db),
    (forall t, In t (select_distinct_tickers d) ->
               In t (select_distinct_tickers
                       (committed_after (fst (fetch_and_store_batch env tickers)) d)))
    /\ (forall t price info,
          In t tickers ->
          snd (resolve_price (yf_Ticker env (upper t))) = Ok (Some price) ->
          yf_info (yf_Ticker env (upper t)) = Ok info ->
          shares_known info ->
          In (upper t)
             (select_distinct_tickers
                (committed_after (fst (fetch_and_store_batch env tickers)) d)))
    /\ (forall b price info s,
          snd (resolve_price (yf_Ticker env b)) = Ok (Some price) ->
          yf_info (yf_Ticker env b) = Ok info ->
          ~ shares_known info ->
          exists e, fst (ticker_block env b) = [Print (LOG_ERROR b e)]
                    /\ run (fst (ticker_block env b)) s = s).
Proof.
  intros env tickers d. split; [|split].
  - intros t H. apply select_distinct_tickers_In.
    apply select_distinct_tickers_In in H. now apply batch_keeps_tracked.
  - intros t price info Hin Hp Hi Hsh. apply select_distinct_tickers_In.
    now apply (batch_tracks_priced env tickers d t price info).
  - intros b price info s Hp Hi Hn.
    rewrite (ticker_block_shares_none env b price info Hp Hi Hn).
    eexists. split; reflexivity.
Qed.

Lemma batch_grows_tracked_universe_witness :
  In "AAA" (select_distinct_tickers
              (committed_after (fst (fetch_and_store_batch an_env ["bad"; "zero"]))
                 (committed_after (fst (fetch_and_store_batch an_env ["aaa"])) init_db)))
  /\ In (upper "aaa")
        (select_distinct_tickers
           (committed_after (fst (fetch_and_store_batch an_env ["bad"; "aaa"])) init_db))
  /\ (exists e, fst (ticker_block an_env "NOSHARES") = [Print (LOG_ERROR "NOSHARES" e)]
                /\ run (fst (ticker_block an_env "NOSHARES")) (mk_store init_db init_db)
                   = mk_store init_db init_db).
Proof.
  split; [|split].
  - destruct (batch_grows_tracked_universe an_env ["bad"; "zero"]
                (committed_after (fst (fetch_and_store_batch an_env ["aaa"])) init_db))
      as [H _].
    apply H. vm_compute. now left.
  - destruct (batch_grows_tracked_universe an_env ["bad"; "aaa"] init_db) as [_ [H _]].
    apply (H "aaa" 10%float None); try reflexivity; [simpl; auto|discriminate].
  - destruct (batch_grows_tracked_universe an_env [] init_db) as [_ [_ H]].
    apply (H "NOSHARES" 10%float
             (Some (mk_Info (Holds None) (Holds (Some 2500%float)) Missing
                            (Holds (Some "No Shares Inc")) Missing Missing)));
      try reflexivity.
    intros Hk. now apply Hk.
Defined.

(** ** One request, end to end *)

Lemma delete_all_keeps_prices (ids : list Z) (d : db) :
  prices (fold_left (fun d e => exec e d) (map DELETE_update_requests ids) d) = prices d.
Proof.
  revert d. induction ids as [|a ids IH]; intros d; simpl; [reflexivity|].
  now rewrite IH.
Qed.

Lemma key_determines_row {R K : Type} (key : R -> K) (rows : list R) (r r' : R) :
  NoDup (map key rows) -> In r rows -> In r' rows -> key r = key r' -> r = r'.
Proof.
  induction rows as [|x rows IH]; simpl; intros Hnd Hr Hr' E; [contradiction|].
  inversion Hnd as [|? ? Hx Hrows]; subst.
  destruct Hr as [->|Hr], Hr' as [->|Hr']; auto.
  - exfalso. apply Hx. rewrite E. now apply in_map.
  - exfalso. apply Hx. rewrite <- E. now apply in_map.
Qed.

(** With [id] a key, deleting the pending requests by id leaves exactly the
    rows that were not pending. *)
Lemma dequeued_view_rows (d : db) :
  NoDup (map ur_id (update_requests d)) ->
  fst (dequeued_view d)
  = filter (fun r => negb (ur_processed r =? 0)) (update_requests d).
Proof.
  intros Hnd. unfold dequeued_view. cbn [fst]. apply filter_ext_in. intros r Hr.
  f_equal. destruct (ur_processed r =? 0) eqn:Ep.
  - apply existsb_exists. exists (ur_id r). split; [|apply Z.eqb_refl].
    unfold select_pending. rewrite map_map. simpl. apply in_map_iff.
    exists r. split; [reflexivity|]. apply filter_In. now split.
  - destruct (existsb _ _) eqn:Ex; [|reflexivity].
    apply existsb_exists in Ex. destruct Ex as [id [Hid Heq]].
    apply Z.eqb_eq in Heq. unfold select_pending in Hid. rewrite map_map in Hid.
    simpl in Hid. apply in_map_iff in Hid. destruct Hid as [r' [E Hr']].
    apply filter_In in Hr'. destruct Hr' as [Hin' Hp'].
    assert (r' = r) by (apply (key_determines_row ur_id (update_requests d)); auto; congruence).
    subst r'. congruence.
Qed.

Lemma service_committed (env : Env) (now now' : Q) (st : daemon_state) (d : db) :
  select_pending d <> [] ->
  committed_after (fst (snd (daemon_iteration env now now' st d))) d
  = committed_after (fst (fetch_and_store_batch env (map snd (select_pending d))))
      (working (run (deletions d) (mk_store d d))).
Proof.
  intros H. rewrite daemon_iteration_service by exact H. cbn [fst snd].
  unfold committed_after. rewrite run_app. reflexivity.
Qed.

Lemma deletions_keep_prices (d : db) :
  prices (working (run (deletions d) (mk_store d d))) = prices d.
Proof.
  destruct (run_only_exec (deletions d) (mk_store d d) (deletions_only_exec d)) as [_ H].
  rewrite H, deletions_stmts. apply delete_all_keeps_prices.
Qed.

(** X6: an iteration that finds pending requests leaves none pending; with
    [id] a key it leaves exactly the rows that were not pending; every ticker
    that was tracked stays tracked; and every requested ticker that has a
    price and an info whose shares are not [None] is tracked afterwards,
    under its upper-cased name, so the next full refresh covers it. *)
Theorem served_request_joins_tracked_universe :
  forall (env : Env) (now now' : Q) (st : daemon_state) (d : db),
    select_pending d <> [] ->
    let d' := committed_after (fst (snd (daemon_iteration env now now' st d))) d in
    select_pending d' = []
    /\ (NoDup (map ur_id (update_requests d)) ->
        update_requests d'
        = filter (fun r => negb (ur_processed r =? 0)) (update_requests d))
    /\ (forall t, In t (select_distinct_tickers d) -> In t (select_distinct_tickers d'))
    /\ (forall id t price info,
          In (id, t) (select_pending d) ->
          snd (resolve_price (yf_Ticker env (upper t))) = Ok (Some price) ->
          yf_info (yf_Ticker env (upper t)) = Ok info ->
          shares_known info ->
          In (upper t) (select_distinct_tickers d')).
Proof.
  intros env now now' st d Hne d'.
  assert (Hv : queue_view d' = dequeued_view d).
  { subst d'. rewrite daemon_iteration_service by exact Hne. cbn [fst snd].
    apply committed_after_service_prefix. repeat constructor. apply batch_no_delete. }
  assert (Hur : update_requests d' = fst (dequeued_view d)) by (now rewrite <- Hv).
  split; [|split; [|split]].
  - unfold select_pending at 1. rewrite Hur.
    destruct (dequeued_view_nothing_pending d) as [H _]. now rewrite H.
  - intros Hnd. rewrite Hur. now apply dequeued_view_rows.
  - intros t Ht. subst d'. rewrite service_committed by exact Hne.
    apply select_distinct_tickers_In. apply select_distinct_tickers_In in Ht.
    apply batch_keeps_tracked. now rewrite deletions_keep_prices.
  - intros id t price info Hin Hp Hi Hsh. subst d'.
    rewrite service_committed by exact Hne. apply select_distinct_tickers_In.
    apply (batch_tracks_priced env _ _ t price info); auto.
    apply in_map_iff. now exists (id, t).
Qed.

Lemma served_request_joins_tracked_universe_witness :
  select_pending
    (committed_after (fst (snd (daemon_iteration an_env 1 1 (daemon_init 0) db_two_requests)))
       db_two_requests) = []
  /\ In (upper "aaa")
        (select_distinct_tickers
           (committed_after
              (fst (snd (daemon_iteration an_env 1 1 (daemon_init 0) db_two_requests)))
              db_two_requests)).
Proof.
  destruct (served_request_joins_tracked_universe an_env 1%Q 1%Q (daemon_init 0)
              db_two_requests) as [Hnone [_ [_ Hjoin]]]; [discriminate|].
  split; [exact Hnone|].
  apply (Hjoin 1 "aaa" 10%float None); try reflexivity; [|discriminate].
  vm_compute. now left.
Defined.

(** ** The request table along a run *)

Lemma run_events_queue_inv (evs : list event) (st : daemon_state) (d : db) (P : list Z) :
  queue_inv (queue_view d) P ->
  queue_inv (queue_view (snd (fst (run_events evs (st, d)))))
            (P ++ processed_ids (snd (run_events evs (st, d)))).
Proof.
  revert st d P. induction evs as [|ev evs IH]; intros st d P H.
  - simpl. unfold processed_ids. simpl. now rewrite app_nil_r.
  - rewrite run_events_cons, run_events_fst_cons, processed_ids_app, app_assoc.
    pose proof (step_queue_inv ev st d P H) as Hstep.
    destruct (step ev (st, d)) as [[st' d'] o]. simpl in *. now apply IH.
Qed.

(** X7: through any run of producer inserts, iterations and crashes with
    restart, the request table keeps [id] a key with no id above the recorded
    largest id, and an id that was handed to the batch fetcher is never in
    the table again. *)
Theorem request_ids_never_return :
  forall (evs : list event) (st : daemon_state) (d : db),
    update_requests_wf d ->
    update_requests_wf (snd (fst (run_events evs (st, d))))
    /\ forall id, In id (processed_ids (snd (run_events evs (st, d)))) ->
                  ~ In id (map ur_id (update_requests (snd (fst (run_events evs (st, d)))))).
Proof.
  intros evs st d [Hnd Hle].
  assert (H0 : queue_inv (queue_view d) []).
  { unfold queue_inv, queue_view. cbn [fst snd]. repeat split; auto; constructor. }
  destruct (run_events_queue_inv evs st d [] H0) as [H1 [H2 [_ H4]]].
  unfold queue_view in *. cbn [fst snd app] in *. split; [split; assumption|].
  intros id Hid. rewrite Forall_forall in H4. now apply H4.
Qed.

Lemma request_ids_never_return_witness :
  update_requests_wf
    (snd (fst (run_events [Enqueue "aaa" "09:00"; Iterate an_env 1 1; Enqueue "aaa" "09:01"]
                 (daemon_init 0, init_db))))
  /\ forall id,
       In id (processed_ids
                (snd (run_events [Enqueue "aaa" "09:00"; Iterate an_env 1 1;
                                  Enqueue "aaa" "09:01"] (daemon_init 0, init_db)))) ->
       ~ In id (map ur_id
                  (update_requests
                     (snd (fst (run_events [Enqueue "aaa" "09:00"; Iterate an_env 1 1;
                                            Enqueue "aaa" "09:01"]
                                  (daemon_init 0, init_db)))))).
Proof.
  apply request_ids_never_return. split; constructor.
Defined.

(** ** The statement upserter on well-formed frames *)

Lemma float_metric (row : Series) (chain : list string) :
  NoDup (labels (strip_index row)) ->
  float (resolve_field (strip_index row) chain zero) = Ok (metric row chain).
Proof.
  intros Hnd. unfold metric, zero.
  destruct (resolve_field_total (strip_index row) chain 0%float Hnd) as [x E].
  now rewrite E.
Qed.

Lemma for_each_singletons {A : Type} (xs : list A) (body : A -> M unit) (f : A -> effect) :
  (forall x, In x xs -> body x = ([f x], Ok tt)) ->
  for_each xs body = (map f xs, Ok tt).
Proof.
  induction xs as [|x xs IH]; intros H; simpl; [reflexivity|].
  rewrite (H x) by now left. rewrite IH by (intros y Hy; apply H; now right).
  reflexivity.
Qed.

Lemma frame_rows_distinct (x : option DataFrame) (p : string * Series) :
  distinct_fields (frame_rows x) -> In p (frame_rows x) ->
  NoDup (labels (strip_index (snd p))).
Proof. unfold distinct_fields. rewrite Forall_forall. auto. Qed.

Lemma store_statement_rows (x : option DataFrame) (store_row : string * Series -> M unit)
    (f : string * Series -> stmt) :
  (forall p, In p (frame_rows x) -> store_row p = ([Exec (f p)], Ok tt)) ->
  store_statement (Ok x) store_row = (map (fun p => Exec (f p)) (frame_rows x), Ok tt).
Proof.
  intros H. unfold store_statement, frame_rows in *. simpl.
  destruct x as [df|]; [|reflexivity].
  destruct (df_empty df); [reflexivity|].
  rewrite (for_each_singletons df store_row (fun p => Exec (f p)) H). reflexivity.
Qed.

Lemma store_balance_sheet_rows (ticker : string) (x : option DataFrame) :
  distinct_fields (frame_rows x) ->
  store_statement (Ok x) (store_balance_sheet_row ticker)
  = (map (fun p => Exec (balance_sheet_stmt ticker p)) (frame_rows x), Ok tt).
Proof.
  intros Hd. apply store_statement_rows. intros p Hp.
  pose proof (frame_rows_distinct x p Hd Hp) as Hnd.
  unfold store_balance_sheet_row, balance_sheet_stmt.
  rewrite !float_metric by exact Hnd. reflexivity.
Qed.

Lemma store_income_statement_rows (ticker : string) (x : option DataFrame) :
  distinct_fields (frame_rows x) ->
  store_statement (Ok x) (store_income_statement_row ticker)
  = (map (fun p => Exec (income_statement_stmt ticker p)) (frame_rows x), Ok tt).
Proof.
  intros Hd. apply store_statement_rows. intros p Hp.
  pose proof (frame_rows_distinct x p Hd Hp) as Hnd.
  unfold store_income_statement_row, income_statement_stmt.
  rewrite !float_metric by exact Hnd. reflexivity.
Qed.

Lemma store_cashflow_statement_rows (ticker : string) (x : option DataFrame) :
  distinct_fields (frame_rows x) ->
  store_statement (Ok x) (store_cashflow_statement_row ticker)
  = (map (fun p => Exec (cashflow_statement_stmt ticker p)) (frame_rows x), Ok tt).
Proof.
  intros Hd. apply store_statement_rows. intros p Hp.
  pose proof (frame_rows_distinct x p Hd Hp) as Hnd.
  unfold store_cashflow_statement_row, cashflow_statement_stmt, capex_chain.
  rewrite !float_metric by exact Hnd. reflexivity.
Qed.

(** X8: when the three statement frames are retrieved and their periods have
    distinct field names, the statement upserter writes exactly one row per
    period, in the frames' order (balance sheet, then income, then cashflow),
    each with the period's date and resolved metrics, then commits, and logs
    no error; an absent or empty frame contributes no row. *)
Theorem fundamentals_one_row_per_period :
  forall (t : Ticker) (ticker : string) (bs inc cf : option DataFrame),
    yf_balance_sheet t = Ok bs ->
    yf_financials t = Ok inc ->
    yf_cashflow t = Ok cf ->
    distinct_fields (frame_rows bs) ->
    distinct_fields (frame_rows inc) ->
    distinct_fields (frame_rows cf) ->
    fetch_and_store_fundamentals t ticker
    = (map (fun p => Exec (balance_sheet_stmt ticker p)) (frame_rows bs)
         ++ map (fun p => Exec (income_statement_stmt ticker p)) (frame_rows inc)
         ++ map (fun p => Exec (cashflow_statement_stmt ticker p)) (frame_rows cf)
         ++ [Commit],
       Ok tt).
Proof.
  intros t ticker bs inc cf Hbs Hinc Hcf Dbs Dinc Dcf.
  unfold fetch_and_store_fundamentals, fundamentals_body.
  rewrite Hbs, Hinc, Hcf.
  rewrite store_balance_sheet_rows, store_income_statement_rows,
    store_cashflow_statement_rows by assumption.
  simpl. reflexivity.
Qed.

Lemma fundamentals_one_row_per_period_witness :
  fetch_and_store_fundamentals ticker_FULL "FULL"
  = ([Exec (INSERT_OR_REPLACE_balance_sheet "FULL" "2023-12-31" 100%float 0%float NaN 0%float);
      Exec (INSERT_OR_REPLACE_balance_sheet "FULL" "2022-12-31" 90%float 0%float 7%float
              0%float);
      Exec (INSERT_OR_REPLACE_cashflow_statement "FULL" "2023-12-31" 0%float 3%float);
      Commit], Ok tt).
Proof.
  apply (fundamentals_one_row_per_period ticker_FULL "FULL"
           (Some [("2023-12-31", [(" Total Assets ", 100%float); ("Total Debt", NaN)]);
                  ("2022-12-31", [("Total Assets", 90%float); ("Long Term Debt", 7%float)])])
           None
           (Some [("2023-12-31", [("Capital Expenditure", (-3)%float)])]));
    try reflexivity.
  - repeat constructor; simpl; intuition discriminate.
  - constructor.
  - repeat constructor; simpl; intuition discriminate.
Defined.

(** ** Statement rows are only ever added *)

Lemma extends_statements_refl (d : db) : extends_statements d d.
Proof. repeat split; exists []; now rewrite app_nil_r. Qed.

Lemma extends_statements_trans (d1 d2 d3 : db) :
  extends_statements d1 d2 -> extends_statements d2 d3 -> extends_statements d1 d3.
Proof.
  intros [[a1 A1] [[b1 B1] [c1 C1]]] [[a2 A2] [[b2 B2] [c2 C2]]].
  repeat split; [exists (a1 ++ a2)|exists (b1 ++ b2)|exists (c1 ++ c2)];
    rewrite app_assoc; congruence.
Qed.

Lemma exec_extends_statements (st : stmt) (d : db) : extends_statements d (exec st d).
Proof.
  destruct st; simpl; try apply extends_statements_refl;
    repeat split; simpl;
    first [ now (eexists; reflexivity) | exists []; now rewrite app_nil_r ].
Qed.

Lemma run_extends_statements (es : list effect) (s : store) :
  Forall not_close es -> extends_statements (working s) (working (run es s)).
Proof.
  intros H. revert s. induction H as [|e es He _ IH]; intros s.
  - apply extends_statements_refl.
  - change (run (e :: es) s) with (run es (apply_effect s e)).
    eapply extends_statements_trans; [|apply IH].
    destruct e as [st| | |l]; simpl in *; try apply extends_statements_refl;
      try contradiction.
    apply exec_extends_statements.
Qed.

(** X9: the batch fetcher never removes or changes a row of [balance_sheet],
    [income_statement] or [cashflow_statement]: after a batch call each of
    these tables is the table as it was, followed by the rows the call
    added. *)
Theorem batch_only_appends_statement_rows :
  forall (env : Env) (tickers : list string) (d : db),
    extends_statements d (committed_after (fst (fetch_and_store_batch env tickers)) d).
Proof.
  intros env tickers d. destruct tickers as [|t ts].
  - apply extends_statements_refl.
  - rewrite fetch_and_store_batch_effects, committed_after_commit_close.
    apply (run_extends_statements _ (mk_store d d)), ticker_loop_not_close.
Qed.

(** ** The stock snapshot *)

Lemma statement_effect_stocks_from_info (env : Env) (e : effect) :
  statement_effect e -> stocks_from_info env e.
Proof. destruct e as [[]| | |]; simpl; auto; contradiction. Qed.

Lemma ticker_block_stocks_from_info (env : Env) (b : string) :
  Forall (stocks_from_info env) (fst (ticker_block env b)).
Proof.
  unfold ticker_block.
  destruct (process_ticker_cases env b)
    as [[e [E _]]|[[_ E]|[p [st [cur [Hp _]]]]]].
  - rewrite E. repeat constructor.
  - rewrite E. repeat constructor.
  - clear st cur. unfold process_ticker.
    pose proof (resolve_price_no_effect (yf_Ticker env b)) as Hw.
    pose proof (fundamentals_statement_effects (yf_Ticker env b) b) as Hfs.
    pose proof (fundamentals_returns (yf_Ticker env b) b) as Hfr.
    destruct (resolve_price (yf_Ticker env b)) as [w r]. simpl in Hp, Hw. subst w r.
    destruct (yf_info (yf_Ticker env b)) as [info|e] eqn:Hi;
      [|simpl; repeat constructor].
    cbn [lift bind fst snd app].
    destruct (dict_get (sharesOutstanding (get_or info empty_info)) (Some 0%float))
      as [sh|] eqn:Hsh; [|simpl; repeat constructor].
    destruct (fetch_and_store_fundamentals (yf_Ticker env b) b) as [wf rf'].
    simpl in Hfs, Hfr. subst rf'.
    unfold perform, lift, try_except, py_mul. cbn [bind fst snd app].
    constructor.
    { simpl. exists info, sh. rewrite Hi, Hsh. repeat split. }
    repeat (constructor; [exact I|]).
    apply Forall_app. split; [|repeat constructor].
    eapply Forall_impl; [apply statement_effect_stocks_from_info|exact Hfs].
Qed.

(** The discount rate in binary64: 0.08 exactly when the beta is missing,
    [None] or zero. *)
Lemma discount_rate_cases (be : option pyfloat) :
  match be with
  | None => fadd rf (fmul (or_default be 1.0) (fsub rm rf)) = 0.08%float
  | Some b =>
      if is_zero b
      then fadd rf (fmul (or_default be 1.0) (fsub rm rf)) = 0.08%float
      else fadd rf (fmul (or_default be 1.0) (fsub rm rf))
           = fadd 0.04 (fmul b 0.04)
  end.
Proof.
  destruct be as [b|]; [|reflexivity].
  unfold or_default. destruct (is_zero b); reflexivity.
Qed.

(** X10: every [stocks] row the batch fetcher writes takes its name,
    currency, sector, shares, market cap and beta from the ticker's info.  A
    key that is missing gets its default: the ticker as name, "USD" as
    currency, 0.0 as shares, price x shares as market cap, [None] as sector
    and beta; a key that holds [None] is written as NULL, except that the
    shares of a written row are always a number.  The growth rate is 0.03 and
    the tax rate 0.21.  The discount rate is 0.04 + beta * (0.08 - 0.04)
    computed in binary64, where a beta that is missing, [None] or zero
    counts as 1.0, so that the rate is 0.08, while the beta stored stays as
    the info gave it. *)
Theorem stock_snapshot_follows_info :
  forall (env : Env) (tickers : list string)
         (tk : string) (name cur sec : option string) (sh : option pyfloat)
         (pr : pyfloat) (mc be : option pyfloat) (g dr tax : pyfloat) (ts : string),
    In (Exec (INSERT_OR_REPLACE_stocks tk name cur sec sh pr mc be g dr tax ts))
       (fst (fetch_and_store_batch env tickers)) ->
    (exists info shares,
        yf_info (yf_Ticker env tk) = Ok info
        /\ sh = Some shares
        /\ name = dict_get (shortName (get_or info empty_info)) (Some tk)
        /\ cur = dict_get (currency (get_or info empty_info)) (Some "USD")
        /\ sec = dict_get (sector (get_or info empty_info)) None
        /\ sh = dict_get (sharesOutstanding (get_or info empty_info)) (Some 0.0%float)
        /\ mc = dict_get (marketCap (get_or info empty_info)) (Some (fmul pr shares))
        /\ be = dict_get (beta (get_or info empty_info)) None)
    /\ g = 0.03%float
    /\ tax = 0.21%float
    /\ dr = fadd 0.04 (fmul (or_default be 1.0) (fsub 0.08 0.04))
    /\ match be with
       | None => dr = 0.08%float
       | Some b => if is_zero b then dr = 0.08%float else dr = fadd 0.04 (fmul b 0.04)
       end.
Proof.
  intros env tickers tk name cur sec sh pr mc be g dr tax ts Hin.
  assert (H : Forall (stocks_from_info env) (fst (fetch_and_store_batch env tickers))).
  { apply batch_Forall; try exact I. intros b _. apply ticker_block_stocks_from_info. }
  rewrite Forall_forall in H. specialize (H _ Hin). simpl in H.
  destruct H as [info [shares [Hi [Hs [Hn [Hc [Hsec [Hsh [Hmc [Hbe [Hg [Ht Hdr]]]]]]]]]]]].
  split; [exists info, shares; repeat split; assumption|].
  split; [exact Hg|]. split; [exact Ht|]. split; [exact Hdr|].
  rewrite Hdr. apply discount_rate_cases.
Qed.

Lemma stock_snapshot_follows_info_witness :
  ((exists info shares,
       yf_info (yf_Ticker full_env "FULL") = Ok info
       /\ Some 100%float = Some shares
       /\ Some "FULL" = dict_get (shortName (get_or info empty_info)) (Some "FULL")
       /\ None = dict_get (currency (get_or info empty_info)) (Some "USD")
       /\ None = dict_get (sector (get_or info empty_info)) None
       /\ Some 100%float
          = dict_get (sharesOutstanding (get_or info empty_info)) (Some 0.0%float)
       /\ Some 1000%float
          = dict_get (marketCap (get_or info empty_info)) (Some (fmul 10 shares))
       /\ Some 0%float = dict_get (beta (get_or info empty_info)) None)
   /\ 0.03%float = 0.03%float
   /\ 0.21%float = 0.21%float
   /\ 0.08%float = fadd 0.04 (fmul (or_default (Some 0%float) 1.0) (fsub 0.08 0.04))
   /\ (if is_zero 0 then 0.08%float = 0.08%float
       else 0.08%float = fadd 0.04 (fmul 0 0.04)))
  /\ ((exists info shares,
         yf_info (yf_Ticker an_env "BETA") = Ok info
         /\ Some 0%float = Some shares
         /\ Some "BETA" = dict_get (shortName (get_or info empty_info)) (Some "BETA")
         /\ Some "USD" = dict_get (currency (get_or info empty_info)) (Some "USD")
         /\ None = dict_get (sector (get_or info empty_info)) None
         /\ Some 0%float
            = dict_get (sharesOutstanding (get_or info empty_info)) (Some 0.0%float)
         /\ Some 0%float
            = dict_get (marketCap (get_or info empty_info)) (Some (fmul 10 shares))
         /\ Some 0.3%float = dict_get (beta (get_or info empty_info)) None)
      /\ 0.03%float = 0.03%float
      /\ 0.21%float = 0.21%float
      /\ 0.052000000000000005%float
         = fadd 0.04 (fmul (or_default (Some 0.3%float) 1.0) (fsub 0.08 0.04))
      /\ (if is_zero 0.3 then 0.052000000000000005%float = 0.08%float
          else 0.052000000000000005%float = fadd 0.04 (fmul 0.3 0.04))).
Proof.
  split.
  - apply (stock_snapshot_follows_info full_env ["full"] "FULL" (Some "FULL") None None
             (Some 100%float) 10%float (Some 1000%float) (Some 0%float)
             0.03%float 0.08%float 0.21%float "2024-01-02 15:00:00").
    rewrite fetch_and_store_batch_effects. apply in_or_app. left.
    simpl map. rewrite ticker_loop_cons. apply in_or_app. left.
    vm_compute. left. reflexivity.
  - apply (stock_snapshot_follows_info an_env ["beta"] "BETA" (Some "BETA") (Some "USD")
             None (Some 0%float) 10%float (Some 0%float) (Some 0.3%float)
             0.03%float 0.052000000000000005%float 0.21%float "2024-01-02 15:00:00").
    rewrite fetch_and_store_batch_effects. apply in_or_app. left.
    simpl map. rewrite ticker_loop_cons. apply in_or_app. left.
    vm_compute. left. reflexivity.
Defined.

(** ** The ways a ticker's turn can end without a row *)

Lemma ticker_block_history_raises (env : Env) (b : string) (e : exn) :
  none_or_zero (fast_price (yf_Ticker env b)) = true ->
  yf_history_1d_Close (yf_Ticker env b) = Raise e ->
  ticker_block env b = ([Print (LOG_ERROR b e)], Ok tt).
Proof.
  unfold fast_price. intros Hf Hh.
  unfold ticker_block, process_ticker, resolve_price. now rewrite Hf, Hh.
Qed.

Lemma ticker_block_info_raises (env : Env) (b : string) (p : pyfloat) (e : exn) :
  snd (resolve_price (yf_Ticker env b)) = Ok (Some p) ->
  yf_info (yf_Ticker env b) = Raise e ->
  ticker_block env b = ([Print (LOG_ERROR b e)], Ok tt).
Proof.
  intros Hp Hi. unfold ticker_block, process_ticker.
  pose proof (resolve_price_no_effect (yf_Ticker env b)) as Hw.
  destruct (resolve_price (yf_Ticker env b)) as [w r]. simpl in Hp, Hw. subst w r.
  simpl. now rewrite Hi.
Qed.

Lemma ticker_block_no_price (env : Env) (b : string) :
  fast_price (yf_Ticker env b) = None ->
  yf_history_1d_Close (yf_Ticker env b) = Ok [] ->
  ticker_block env b = ([Print (LOG_SKIP b)], Ok tt).
Proof.
  unfold fast_price. intros Hf Hh.
  unfold ticker_block, process_ticker. now rewrite (resolve_price_none _ Hf Hh).
Qed.

(** X17: how the batch fetcher settles the price of a ticker and when it
    writes nothing.  A fast price that is not zero is taken as it is, without
    looking at the history; a missing or zero fast price is replaced by the
    last close of the daily history when there is one.  When the history
    lookup raises, or the info lookup raises after a price was found, the
    turn ends with one [ERROR] line naming the ticker and the exception and
    no statement is executed; when the fast path has no price and the history
    is empty, it ends with one [SKIP] line and no statement is executed. *)
Theorem price_resolution_and_skips :
  forall (env : Env) (b : string),
    (forall p, yf_fast_info_last_price (yf_Ticker env b) = Ok (Some p) ->
               is_zero p = false ->
               resolve_price (yf_Ticker env b) = ([], Ok (Some p)))
    /\ (forall closes c,
          none_or_zero (fast_price (yf_Ticker env b)) = true ->
          yf_history_1d_Close (yf_Ticker env b) = Ok closes ->
          last_close closes = Some c ->
          resolve_price (yf_Ticker env b) = ([], Ok (Some c)))
    /\ (forall e,
          none_or_zero (fast_price (yf_Ticker env b)) = true ->
          yf_history_1d_Close (yf_Ticker env b) = Raise e ->
          ticker_block env b = ([Print (LOG_ERROR b e)], Ok tt))
    /\ (forall p e,
          snd (resolve_price (yf_Ticker env b)) = Ok (Some p) ->
          yf_info (yf_Ticker env b) = Raise e ->
          ticker_block env b = ([Print (LOG_ERROR b e)], Ok tt))
    /\ (fast_price (yf_Ticker env b) = None ->
        yf_history_1d_Close (yf_Ticker env b) = Ok [] ->
        ticker_block env b = ([Print (LOG_SKIP b)], Ok tt)).
Proof.
  intros env b. split; [intros p; apply resolve_price_fast|].
  split; [intros closes c; apply resolve_price_fallback|].
  split; [intros e; apply ticker_block_history_raises|].
  split; [intros p e; apply ticker_block_info_raises|].
  apply ticker_block_no_price.
Qed.

Lemma price_resolution_and_skips_witness :
  resolve_price (yf_Ticker an_env "AAA") = ([], Ok (Some 10%float))
  /\ ticker_block an_env "DOWN" = ([Print (LOG_ERROR "DOWN" "ConnectionError")], Ok tt)
  /\ ticker_block an_env "BAD" = ([Print (LOG_SKIP "BAD")], Ok tt).
Proof.
  split; [|split].
  - destruct (price_resolution_and_skips an_env "AAA") as [H _].
    apply (H 10%float); reflexivity.
  - destruct (price_resolution_and_skips an_env "DOWN") as [_ [_ [H _]]].
    apply (H "ConnectionError"); reflexivity.
  - destruct (price_resolution_and_skips an_env "BAD") as [_ [_ [_ [_ H]]]].
    apply H; reflexivity.
Defined.

(** ** The daemon's two variables along a run *)

Open Scope Q_scope.

(** The intervals the daemon can reach: those of a backoff from
    [SLEEP_ACTIVE], the cap included. *)
Lemma backoff_intervals_step (x : pyfloat) :
  In x backoff_intervals -> In (py_min (fmul x BACKOFF) SLEEP_IDLE) backoff_intervals.
Proof.
  intros H. vm_compute in H.
  repeat (destruct H as [H|H]; [subst x; vm_compute; tauto|]).
  contradiction.
Qed.

Lemma backoff_intervals_in_bounds (x : pyfloat) :
  In x backoff_intervals -> sleep_in_bounds x.
Proof.
  intros H. vm_compute in H.
  repeat (destruct H as [H|H]; [subst x; split; reflexivity|]).
  contradiction.
Qed.

Lemma daemon_iteration_intervals (env : Env) (now now' : Q) (st : daemon_state) (d : db) :
  In (sleep_time st) backoff_intervals ->
  In (sleep_time (fst (fst (daemon_iteration env now now' st d)))) backoff_intervals.
Proof.
  intros Hin.
  pose proof (daemon_iteration_sleep env now now' st d) as H.
  destruct (snd (fst (daemon_iteration env now now' st d))); rewrite H.
  - vm_compute. tauto.
  - exact Hin.
  - now apply backoff_intervals_step.
Qed.

Lemma step_intervals (ev : event) (st : daemon_state) (d : db) :
  In (sleep_time st) backoff_intervals ->
  In (sleep_time (fst (fst (step ev (st, d))))) backoff_intervals
  /\ Forall observed_sleep_in_bounds (snd (step ev (st, d))).
Proof.
  intros H. destruct ev as [t ts|env now now'|env now now' n env0 t0]; unfold step.
  - split; [exact H|constructor].
  - pose proof (daemon_iteration_intervals env now now' st d H) as Hb.
    destruct (daemon_iteration env now now' st d) as [[st' br] m]. cbn [fst snd] in *.
    split; [exact Hb|]. constructor; [|constructor].
    now apply backoff_intervals_in_bounds.
  - destruct (daemon_iteration env now now' st d) as [[st' br] m]. cbn [fst snd].
    split; [|constructor; [exact I|constructor]]. vm_compute. tauto.
Qed.

Lemma run_events_intervals (evs : list event) (st : daemon_state) (d : db) :
  In (sleep_time st) backoff_intervals ->
  In (sleep_time (fst (fst (run_events evs (st, d))))) backoff_intervals
  /\ Forall observed_sleep_in_bounds (snd (run_events evs (st, d))).
Proof.
  revert st d. induction evs as [|ev evs IH]; intros st d H.
  - split; [exact H|constructor].
  - rewrite run_events_cons, run_events_fst_cons.
    destruct (step_intervals ev st d H) as [H1 H2].
    destruct (step ev (st, d)) as [[st' d'] o]. cbn [fst snd] in *.
    destruct (IH st' d' H1) as [H3 H4]. split; [exact H3|].
    apply Forall_app. now split.
Qed.

(** X11: from the start of the daemon and through any run of producer
    inserts, iterations and crashes with restart, every sleep lies between
    0.2 and 5.0 seconds. *)
Theorem sleep_stays_between_active_and_idle :
  forall (evs : list event) (t0 : Q) (d : db),
    sleep_in_bounds (sleep_time (fst (fst (run_events evs (daemon_init t0, d)))))
    /\ Forall observed_sleep_in_bounds (snd (run_events evs (daemon_init t0, d))).
Proof.
  intros evs t0 d.
  destruct (run_events_intervals evs (daemon_init t0) d) as [H1 H2].
  - vm_compute. tauto.
  - split; [now apply backoff_intervals_in_bounds|exact H2].
Qed.

Lemma step_keeps_last_refresh (ev : event) (st : daemon_state) (d : db) :
  Forall no_refresh (snd (step ev (st, d))) ->
  last_refresh_time (fst (fst (step ev (st, d)))) = last_refresh_time st.
Proof.
  destruct ev as [t ts|env now now'|env now now' n env0 t0]; unfold step.
  - reflexivity.
  - unfold daemon_iteration. destruct (select_pending d); [|reflexivity].
    destruct (Qle_bool _ _); cbn [fst snd]; [|reflexivity].
    intros H. inversion H as [|? ? Ho _]; subst. contradiction.
  - destruct (daemon_iteration env now now' st d) as [[st' br] m]. cbn [fst snd].
    intros H. inversion H as [|? ? Ho _]; subst. contradiction.
Qed.

Lemma run_keeps_last_refresh (evs : list event) (st : daemon_state) (d : db) :
  Forall no_refresh (snd (run_events evs (st, d))) ->
  last_refresh_time (fst (fst (run_events evs (st, d)))) = last_refresh_time st.
Proof.
  revert st d. induction evs as [|ev evs IH]; intros st d H; [reflexivity|].
  rewrite run_events_cons in H. rewrite run_events_fst_cons.
  apply Forall_app in H. destruct H as [H1 H2].
  pose proof (step_keeps_last_refresh ev st d H1) as Hs.
  destruct (step ev (st, d)) as [[st' d'] o]. cbn [fst snd] in *.
  rewrite IH by exact H2. exact Hs.
Qed.

Lemma daemon_iteration_branch (env : Env) (now now' : Q) (st : daemon_state) (d : db) :
  match snd (fst (daemon_iteration env now now' st d)) with
  | SERVICE_REQUESTS =>
      select_pending d <> []
      /\ last_refresh_time (fst (fst (daemon_iteration env now now' st d)))
         = last_refresh_time st
  | PERIODIC_REFRESH =>
      select_pending d = []
      /\ REFRESH_INTERVAL <= now - last_refresh_time st
      /\ last_refresh_time (fst (fst (daemon_iteration env now now' st d))) = now'
  | IDLE_BACKOFF =>
      select_pending d = []
      /\ now - last_refresh_time st < REFRESH_INTERVAL
      /\ last_refresh_time (fst (fst (daemon_iteration env now now' st d)))
         = last_refresh_time st
  end.
Proof.
  unfold daemon_iteration. destruct (select_pending d) eqn:E.
  - destruct (Qle_bool REFRESH_INTERVAL (now - last_refresh_time st)) eqn:Hq; cbn [fst snd].
    + split; [reflexivity|]. split; [now apply Qle_bool_iff|reflexivity].
    + split; [reflexivity|]. split; [|reflexivity].
      apply Qnot_le_lt. intros Hle. apply Qle_bool_iff in Hle. congruence.
  - cbn [fst snd]. split; [discriminate|reflexivity].
Qed.

(** X12: which branch an iteration takes, and what it does to the time of
    the last refresh.  Pending requests are served even when the refresh is
    due; the refresh runs only with no request pending and at least 300
    seconds after the last one, and it alone moves the time of the last
    refresh, to the clock read after it.  So between the end of a periodic
    refresh and the start of the next one, with no crash in between, at least
    300 seconds pass. *)
Theorem periodic_refresh_cadence :
  (forall env now now' st d,
      match snd (fst (daemon_iteration env now now' st d)) with
      | SERVICE_REQUESTS =>
          select_pending d <> []
          /\ last_refresh_time (fst (fst (daemon_iteration env now now' st d)))
             = last_refresh_time st
      | PERIODIC_REFRESH =>
          select_pending d = []
          /\ REFRESH_INTERVAL <= now - last_refresh_time st
          /\ last_refresh_time (fst (fst (daemon_iteration env now now' st d))) = now'
      | IDLE_BACKOFF =>
          select_pending d = []
          /\ now - last_refresh_time st < REFRESH_INTERVAL
          /\ last_refresh_time (fst (fst (daemon_iteration env now now' st d)))
             = last_refresh_time st
      end)
  /\ (forall env1 now1 now1' env2 now2 now2' st d evs,
        snd (fst (daemon_iteration env1 now1 now1' st d)) = PERIODIC_REFRESH ->
        let x1 := fst (step (Iterate env1 now1 now1') (st, d)) in
        Forall no_refresh (snd (run_events evs x1)) ->
        snd (fst (daemon_iteration env2 now2 now2'
                    (fst (fst (run_events evs x1))) (snd (fst (run_events evs x1)))))
        = PERIODIC_REFRESH ->
        REFRESH_INTERVAL <= now2 - now1').
Proof.
  split; [exact daemon_iteration_branch|].
  intros env1 now1 now1' env2 now2 now2' st d evs Hb1 x1 Hq Hb2.
  assert (H1 : last_refresh_time (fst x1) = now1').
  { subst x1. unfold step.
    pose proof (daemon_iteration_branch env1 now1 now1' st d) as H.
    rewrite Hb1 in H. destruct (daemon_iteration env1 now1 now1' st d) as [[st' br] m].
    cbn [fst snd] in *. tauto. }
  destruct x1 as [st1 d1]. cbn [fst] in H1.
  pose proof (run_keeps_last_refresh evs st1 d1 Hq) as Hk.
  pose proof (daemon_iteration_branch env2 now2 now2'
                (fst (fst (run_events evs (st1, d1))))
                (snd (fst (run_events evs (st1, d1))))) as H2.
  rewrite Hb2 in H2. destruct H2 as [_ [H2 _]]. now rewrite Hk, H1 in H2.
Qed.

Lemma periodic_refresh_cadence_witness :
  REFRESH_INTERVAL <= 700 - 301.
Proof.
  destruct periodic_refresh_cadence as [_ H].
  apply (H an_env 300 301 an_env 700 701 (daemon_init 0) init_db
           [Iterate an_env 302 302; Enqueue "aaa" "09:00"; Iterate an_env 303 303]).
  - vm_compute. reflexivity.
  - vm_compute. repeat constructor.
  - vm_compute. reflexivity.
Defined.

(** ** [clean_company_name] *)

Close Scope Q_scope.

Lemma append_empty (s : string) : (s ++ "")%string = s.
Proof. induction s as [|c s IH]; simpl; congruence. Qed.

Lemma all_chars_app (p : ascii -> bool) (s t : string) :
  all_chars p (s ++ t)%string = all_chars p s && all_chars p t.
Proof.
  induction s as [|c s IH]; simpl; [reflexivity|]. now rewrite IH, andb_assoc.
Qed.

Lemma sub_non_alnum_chars (s : string) :
  all_chars in_A_Z_0_9_space (sub_non_alnum s) = true.
Proof.
  induction s as [|c s IH]; simpl; [reflexivity|]. rewrite IH, andb_true_r.
  destruct (in_A_Z_0_9_space c) eqn:E; [exact E|reflexivity].
Qed.

Lemma replace_from_chars (p : ascii -> bool) (old new s : string) (skip : nat) :
  all_chars p new = true -> all_chars p s = true ->
  all_chars p (replace_from skip old new s) = true.
Proof.
  intros Hnew. revert skip. induction s as [|c s IH]; intros skip Hs; [reflexivity|].
  simpl in Hs. apply andb_true_iff in Hs. destruct Hs as [Hc Hs].
  cbn [replace_from]. destruct skip as [|k]; [|now apply IH].
  destruct (String.prefix old (String c s)).
  - rewrite all_chars_app, Hnew. now apply IH.
  - simpl. rewrite Hc. now apply IH.
Qed.

Lemma phrases_replaced_chars (p : ascii -> bool) (phrases : list string) (s : string) :
  p " "%char = true -> all_chars p s = true ->
  all_chars p (fold_left (fun n phrase => str_replace phrase " " n) phrases s) = true.
Proof.
  intros Hsp. revert s. induction phrases as [|ph phrases IH]; intros s Hs; [exact Hs|].
  simpl. apply IH. unfold str_replace. apply replace_from_chars; [|exact Hs].
  simpl. now rewrite Hsp.
Qed.

Lemma split_tokens (s : string) : Forall is_token (split s).
Proof.
  induction s as [|c s IH]; [constructor|]. cbn [split].
  destruct (is_space c) eqn:Ec; [exact IH|].
  destruct s as [|c' s'].
  - repeat constructor; [discriminate|]. simpl. now rewrite Ec.
  - destruct (is_space c') eqn:Ec'.
    + constructor; [|exact IH]. split; [discriminate|]. simpl. now rewrite Ec.
    + destruct (split (String c' s')) as [|t ts].
      * repeat constructor; [discriminate|]. simpl. now rewrite Ec.
      * inversion IH as [|? ? [Ht1 Ht2] Hts]; subst. constructor; [|exact Hts].
        split; [discriminate|]. simpl. now rewrite Ec, Ht2.
Qed.

Lemma split_chars (p : ascii -> bool) (s : string) :
  all_chars p s = true -> Forall (fun t => all_chars p t = true) (split s).
Proof.
  induction s as [|c s IH]; intros H; [constructor|]. cbn [split].
  simpl in H. apply andb_true_iff in H. destruct H as [Hc Hs]. specialize (IH Hs).
  destruct (is_space c); [exact IH|].
  destruct s as [|c' s'].
  - repeat constructor. simpl. now rewrite Hc.
  - destruct (is_space c').
    + constructor; [|exact IH]. simpl. now rewrite Hc.
    + destruct (split (String c' s')) as [|t ts].
      * repeat constructor. simpl. now rewrite Hc.
      * inversion IH as [|? ? Ht Hts]; subst. constructor; [|exact Hts].
        simpl. now rewrite Hc, Ht.
Qed.

(** A token followed by nothing, or by whitespace, is split off whole. *)
Lemma split_token_first (t rest : string) :
  is_token t ->
  match rest with EmptyString => True | String c _ => is_space c = true end ->
  split (t ++ rest) = t :: split rest.
Proof.
  intros [Hne Hsp] Hrest. induction t as [|c t IH]; [congruence|].
  simpl in Hsp. apply andb_true_iff in Hsp. destruct Hsp as [Hc Ht].
  apply negb_true_iff in Hc.
  change (String c t ++ rest)%string with (String c (t ++ rest)).
  cbn [split]. rewrite Hc. destruct t as [|c' t'].
  - simpl. destruct rest as [|r rest']; [reflexivity|]. now rewrite Hrest.
  - assert (Hc' : is_space c' = false).
    { simpl in Ht. apply andb_true_iff in Ht. now apply negb_true_iff. }
    cbn [append]. rewrite Hc'.
    change (String c' (t' ++ rest)) with (String c' t' ++ rest)%string.
    rewrite IH by (try discriminate; exact Ht). reflexivity.
Qed.

Lemma concat_tokens_head (toks : list string) :
  Forall is_token toks ->
  match String.concat " " toks with
  | EmptyString => toks = []
  | String c _ => is_space c = false
  end.
Proof.
  intros H. destruct H as [|t toks [Hne Hsp] Hts]; [reflexivity|].
  destruct t as [|c t']; [congruence|].
  simpl in Hsp. apply andb_true_iff in Hsp. destruct Hsp as [Hc _].
  apply negb_true_iff in Hc. simpl. destruct toks; exact Hc.
Qed.

(** Joining tokens with one space and splitting again gives the tokens. *)
Lemma split_concat_tokens (toks : list string) :
  Forall is_token toks -> split (String.concat " " toks) = toks.
Proof.
  intros H. induction H as [|t toks Ht Hts IH]; [reflexivity|].
  destruct toks as [|u us].
  - simpl. rewrite <- (append_empty t) at 1.
    rewrite split_token_first by (try exact Ht; exact I). reflexivity.
  - change (String.concat " " (t :: u :: us))
      with (t ++ String " " (String.concat " " (u :: us)))%string.
    rewrite split_token_first; [|exact Ht|reflexivity].
    cbn [split]. change (is_space " ") with true. cbv iota. now rewrite IH.
Qed.

Lemma collapse_ws_token (t rest : string) :
  all_chars (fun c => negb (is_space c)) t = true ->
  collapse_ws (t ++ rest) = (t ++ collapse_ws rest)%string.
Proof.
  induction t as [|c t IH]; intros H; [reflexivity|].
  simpl in H. apply andb_true_iff in H. destruct H as [Hc Ht].
  apply negb_true_iff in Hc. cbn [append collapse_ws]. rewrite Hc.
  now rewrite IH.
Qed.

Lemma collapse_ws_concat_tokens (toks : list string) :
  Forall is_token toks ->
  collapse_ws (String.concat " " toks) = String.concat " " toks.
Proof.
  intros H. induction H as [|t toks Ht Hts IH]; [reflexivity|].
  destruct toks as [|u us].
  - simpl. rewrite <- (append_empty t) at 1.
    rewrite collapse_ws_token by apply Ht. simpl. apply append_empty.
  - change (String.concat " " (t :: u :: us))
      with (t ++ String " " (String.concat " " (u :: us)))%string.
    rewrite collapse_ws_token by apply Ht. f_equal.
    pose proof (concat_tokens_head (u :: us) Hts) as Hh.
    cbn [collapse_ws]. change (is_space " ") with true. cbv iota.
    destruct (String.concat " " (u :: us)) as [|c r] eqn:E; [discriminate|].
    rewrite Hh. now rewrite IH.
Qed.

Lemma lstrip_concat_tokens (toks : list string) :
  Forall is_token toks ->
  lstrip (String.concat " " toks) = String.concat " " toks.
Proof.
  intros H. pose proof (concat_tokens_head toks H) as Hh.
  destruct (String.concat " " toks) as [|c r]; [reflexivity|].
  simpl. now rewrite Hh.
Qed.

Lemma rstrip_no_space (t : string) :
  all_chars (fun c => negb (is_space c)) t = true -> rstrip t = t.
Proof.
  induction t as [|c t IH]; intros H; [reflexivity|].
  simpl in H. apply andb_true_iff in H. destruct H as [Hc Ht].
  apply negb_true_iff in Hc. cbn [rstrip]. rewrite IH by exact Ht.
  destruct t; [now rewrite Hc|reflexivity].
Qed.

Lemma rstrip_before_token (s t : string) :
  is_token t -> rstrip (s ++ t) = (s ++ t)%string.
Proof.
  intros [Hne Hsp]. induction s as [|c s IH]; [now apply rstrip_no_space|].
  cbn [append rstrip]. rewrite IH.
  destruct (s ++ t)%string eqn:E; [|reflexivity].
  destruct s; simpl in E; [congruence|discriminate].
Qed.

Lemma append_assoc_ (a b c : string) : ((a ++ b) ++ c = a ++ (b ++ c))%string.
Proof. induction a as [|x a IH]; simpl; congruence. Qed.

Lemma concat_tokens_last (toks : list string) :
  Forall is_token toks -> toks <> [] ->
  exists s t, String.concat " " toks = (s ++ t)%string /\ is_token t.
Proof.
  intros H. induction H as [|t toks Ht Hts IH]; intros Hne; [congruence|].
  destruct toks as [|u us].
  - exists EmptyString, t. split; [reflexivity|exact Ht].
  - destruct IH as [s [t' [E Ht']]]; [discriminate|].
    exists (t ++ String " " s)%string, t'. split; [|exact Ht'].
    change (String.concat " " (t :: u :: us))
      with (t ++ String " " (String.concat " " (u :: us)))%string.
    rewrite E, append_assoc_. reflexivity.
Qed.

Lemma rstrip_concat_tokens (toks : list string) :
  Forall is_token toks ->
  rstrip (String.concat " " toks) = String.concat " " toks.
Proof.
  intros H. destruct toks as [|t toks]; [reflexivity|].
  destruct (concat_tokens_last (t :: toks) H) as [s [t' [E Ht']]]; [discriminate|].
  rewrite E. now apply rstrip_before_token.
Qed.

(** The last step of [clean_company_name] changes nothing: tokens joined by
    one space are already collapsed and stripped. *)
Lemma normalise_concat_tokens (toks : list string) :
  Forall is_token toks ->
  strip (collapse_ws (String.concat " " toks)) = String.concat " " toks.
Proof.
  intros H. unfold strip.
  now rewrite collapse_ws_concat_tokens, lstrip_concat_tokens, rstrip_concat_tokens.
Qed.

Lemma concat_chars (p : ascii -> bool) (toks : list string) :
  p " "%char = true ->
  Forall (fun t => all_chars p t = true) toks ->
  all_chars p (String.concat " " toks) = true.
Proof.
  intros Hsp H. induction H as [|t toks Ht Hts IH]; [reflexivity|].
  destruct toks as [|u us]; [exact Ht|].
  change (String.concat " " (t :: u :: us))
    with (t ++ String " " (String.concat " " (u :: us)))%string.
  rewrite all_chars_app, Ht. cbn [all_chars andb]. now rewrite Hsp, IH.
Qed.

Lemma Forall_filter_keep {A : Type} (P : A -> Prop) (keep : A -> bool) (l : list A) :
  Forall P l -> Forall P (filter keep l).
Proof.
  intros H. apply Forall_forall. intros x Hx. apply filter_In in Hx.
  rewrite Forall_forall in H. apply H. tauto.
Qed.

Lemma clean_str_tokens (s : string) :
  exists toks,
    clean_str s = String.concat " " toks
    /\ Forall is_token toks
    /\ Forall (fun t => all_chars in_A_Z_0_9_space t = true) toks
    /\ Forall (fun t => ~ In t CORP_STOPWORDS) toks.
Proof.
  unfold clean_str.
  set (s3 := fold_left (fun n phrase => str_replace phrase " " n) multi_phrases
                       (sub_non_alnum (upper s))).
  set (toks := filter (fun t => negb (is_stopword t)) (split s3)).
  assert (Htok : Forall is_token toks)
    by (apply Forall_filter_keep, split_tokens).
  assert (Hs3 : all_chars in_A_Z_0_9_space s3 = true)
    by (apply phrases_replaced_chars; [reflexivity|apply sub_non_alnum_chars]).
  exists toks. split; [now apply normalise_concat_tokens|]. split; [exact Htok|]. split.
  - apply Forall_filter_keep, split_chars, Hs3.
  - apply Forall_forall. intros t Ht. subst toks. apply filter_In in Ht.
    destruct Ht as [_ Ht]. apply negb_true_iff in Ht. intros Hin.
    assert (Hs : is_stopword t = true).
    { apply existsb_exists. exists t. split; [exact Hin|apply String.eqb_refl]. }
    congruence.
Qed.

Lemma clean_str_chars (s : string) : all_chars in_A_Z_0_9_space (clean_str s) = true.
Proof.
  destruct (clean_str_tokens s) as [toks [E [_ [Hc _]]]]. rewrite E.
  now apply concat_chars.
Qed.

(** X13: for every name, the cleaned company name consists of capital
    letters, digits and spaces only; it is its tokens joined by single spaces
    (no leading, trailing or doubled space), so splitting it gives the tokens
    back; none of its tokens is a corporate stopword; and a value that is not
    a string is cleaned to the empty string. *)
Theorem clean_company_name_shape :
  forall (name : option string),
    let out := clean_company_name name in
    all_chars in_A_Z_0_9_space out = true
    /\ String.concat " " (split out) = out
    /\ Forall (fun t => is_token t /\ ~ In t CORP_STOPWORDS) (split out)
    /\ clean_company_name None = EmptyString.
Proof.
  intros [s|]; cbn zeta; [|repeat split; constructor].
  cbn [clean_company_name].
  destruct (clean_str_tokens s) as [toks [E [Htok [Hc Hstop]]]].
  split; [apply clean_str_chars|]. rewrite E, split_concat_tokens by exact Htok.
  split; [reflexivity|]. split; [|reflexivity].
  rewrite Forall_forall in *. intros t Ht. split; auto.
Qed.

Lemma ascii_upper_idem (c : ascii) : ascii_upper (ascii_upper c) = ascii_upper c.
Proof. destruct c as [[] [] [] [] [] [] [] []]; reflexivity. Qed.

Lemma upper_idem (s : string) : upper (upper s) = upper s.
Proof. induction s as [|c s IH]; simpl; [reflexivity|]. now rewrite ascii_upper_idem, IH. Qed.

(** X14: cleaning does not depend on the case of the name: a name and its
    upper-cased form are cleaned to the same string. *)
Theorem clean_company_name_ignores_case :
  forall (s : string),
    clean_company_name (Some (upper s)) = clean_company_name (Some s).
Proof. intros s. cbn [clean_company_name]. unfold clean_str. now rewrite upper_idem. Qed.

(** ** The cleaning steps of [init_nasdaq_db] *)

Lemma dropna_In (rows : symbol_frame) (t n : string) :
  In (t, n) (dropna rows) -> In (Some t, Some n) rows.
Proof.
  induction rows as [|[[t'|] [n'|]] rows IH]; simpl; intros H; try tauto.
  destruct H as [H|H]; [left; congruence|right; tauto].
Qed.

Lemma drop_duplicates_from_In (seen : list string) (rows : list (string * string))
    (r : string * string) :
  In r (drop_duplicates_from seen rows) -> In r rows.
Proof.
  revert seen. induction rows as [|[t n] rows IH]; intros seen H; [contradiction|].
  cbn [drop_duplicates_from] in H. destruct (existsb (String.eqb t) seen).
  - right. eapply IH. exact H.
  - destruct H as [H|H]; [now left|right; eapply IH; exact H].
Qed.

Lemma drop_duplicates_from_keys (seen : list string) (rows : list (string * string)) :
  NoDup (map fst (drop_duplicates_from seen rows))
  /\ forall t, In t (map fst (drop_duplicates_from seen rows)) -> ~ In t seen.
Proof.
  revert seen. induction rows as [|[t n] rows IH]; intros seen.
  - split; [constructor|intros t []].
  - cbn [drop_duplicates_from]. destruct (existsb (String.eqb t) seen) eqn:E.
    + apply IH.
    + destruct (IH (t :: seen)) as [Hnd Hseen]. split.
      * simpl. constructor; [|exact Hnd]. intros Hin. apply (Hseen t Hin). now left.
      * simpl. intros u [<-|Hu].
        -- intros Hin. assert (Ht : existsb (String.eqb t) seen = true).
           { apply existsb_exists. exists t. split; [exact Hin|apply String.eqb_refl]. }
           congruence.
        -- intros Hin. apply (Hseen u Hu). now right.
Qed.

Lemma isalpha_upper_A_Z (c : ascii) :
  is_alpha (ascii_upper c) = true -> is_A_Z (ascii_upper c) = true.
Proof.
  destruct c as [[] [] [] [] [] [] [] []]; vm_compute; intros H;
    first [reflexivity|discriminate].
Qed.

Lemma str_isalpha_upper (s : string) :
  str_isalpha (upper s) = true ->
  upper s <> EmptyString /\ all_chars is_A_Z (upper s) = true.
Proof.
  intros H. split; [intros E; rewrite E in H; discriminate|].
  assert (Ha : all_chars is_alpha (upper s) = true)
    by (destruct (upper s); [discriminate|exact H]).
  clear H. induction s as [|c s IH]; [reflexivity|].
  simpl in *. apply andb_true_iff in Ha. destruct Ha as [Hc Hs].
  now rewrite (isalpha_upper_A_Z c Hc), IH.
Qed.

Lemma has_duplicate_NoDup (keys : list string) :
  NoDup keys -> has_duplicate keys = false.
Proof.
  intros H. induction H as [|k ks Hk _ IH]; [reflexivity|].
  simpl. rewrite IH, orb_false_r.
  destruct (existsb (String.eqb k) ks) eqn:E; [|reflexivity].
  apply existsb_exists in E. destruct E as [k' [Hin Heq]].
  apply String.eqb_eq in Heq. subst k'. contradiction.
Qed.

(** X15: every row the cleaning steps of [init_nasdaq_db] keep comes from a
    row of the two symbol files with both cells present; its ticker is that
    row's symbol stripped and upper-cased, is not empty and consists of the
    letters A to Z only; its company is that row's cleaned name, is not empty
    and consists of capital letters, digits and spaces only. *)
Theorem clean_symbol_rows_are_clean :
  forall (df1 df2 : symbol_frame) (tk company : string),
    In (tk, company) (clean_symbol_rows df1 df2) ->
    (exists t n,
        In (Some t, Some n) (df1 ++ df2)
        /\ tk = upper (strip t)
        /\ company = clean_company_name (Some n))
    /\ tk <> EmptyString
    /\ all_chars is_A_Z tk = true
    /\ company <> EmptyString
    /\ all_chars in_A_Z_0_9_space company = true.
Proof.
  intros df1 df2 tk company H. unfold clean_symbol_rows in H.
  apply filter_In in H. destruct H as [H Hlen].
  apply filter_In in H. destruct H as [H Halpha].
  apply in_map_iff in H. destruct H as [[t n] [E Hin]].
  cbn [fst snd] in *. inversion E; subst tk company; clear E.
  apply drop_duplicates_from_In, dropna_In in Hin.
  destruct (str_isalpha_upper (strip t) Halpha) as [Hne Hchars].
  split; [exists t, n; auto|]. split; [exact Hne|]. split; [exact Hchars|].
  split.
  - intros E. rewrite E in Hlen. discriminate.
  - apply clean_str_chars.
Qed.

Lemma clean_symbol_rows_are_clean_witness :
  (exists t n,
      In (Some t, Some n) (nasdaq_sample ++ [(Some " aapl", Some "Apple lower")])
      /\ "AAPL" = upper (strip t)
      /\ "APPLE LOWER" = clean_company_name (Some n))
  /\ "AAPL" <> EmptyString
  /\ all_chars is_A_Z "AAPL" = true
  /\ "APPLE LOWER" <> EmptyString
  /\ all_chars in_A_Z_0_9_space "APPLE LOWER" = true.
Proof.
  apply (clean_symbol_rows_are_clean nasdaq_sample [(Some " aapl", Some "Apple lower")]).
  vm_compute. right. right. left. reflexivity.
Defined.

Lemma clean_symbol_rows_keys (df1 df2 : symbol_frame) :
  (forall t n, In (Some t, n) (df1 ++ df2) -> plain_symbol t) ->
  NoDup (map fst (clean_symbol_rows df1 df2)).
Proof.
  intros Hplain. unfold clean_symbol_rows.
  apply keys_NoDup_filter, keys_NoDup_filter. rewrite map_map. cbn [fst].
  rewrite (map_ext_in _ fst).
  - apply drop_duplicates_from_keys.
  - intros [t n] Hin. cbn [fst]. apply drop_duplicates_from_In, dropna_In in Hin.
    apply (Hplain t (Some n) Hin).
Qed.

(** X16: when every symbol of the two files is already upper case without
    surrounding whitespace, the rows kept have pairwise distinct tickers, so
    their insertion into the new [tickers] table does not violate its primary
    key and stores exactly these rows. *)
Theorem plain_symbols_insert_without_conflict :
  forall (df1 df2 : symbol_frame),
    (forall t n, In (Some t, n) (df1 ++ df2) -> plain_symbol t) ->
    NoDup (map fst (clean_symbol_rows df1 df2))
    /\ to_sql_tickers (clean_symbol_rows df1 df2) = Ok (clean_symbol_rows df1 df2).
Proof.
  intros df1 df2 H. pose proof (clean_symbol_rows_keys df1 df2 H) as Hnd.
  split; [exact Hnd|]. unfold to_sql_tickers. now rewrite has_duplicate_NoDup.
Qed.

Lemma plain_symbols_insert_without_conflict_witness :
  NoDup (map fst (clean_symbol_rows nasdaq_sample []))
  /\ to_sql_tickers (clean_symbol_rows nasdaq_sample [])
     = Ok (clean_symbol_rows nasdaq_sample []).
Proof.
  apply plain_symbols_insert_without_conflict.
  intros t n H. rewrite app_nil_r in H. unfold nasdaq_sample in H. simpl in H.
  repeat (destruct H as [H|H]; [inversion H; subst; reflexivity|]); try discriminate.
  contradiction.
Defined.

(** ** What one ticker's turn commits *)

Lemma store_statement_only_exec (frame : result (option DataFrame))
    (store_row : string * Series -> M unit) :
  (forall p, Forall only_exec (fst (store_row p))) ->
  Forall only_exec (fst (store_statement frame store_row)).
Proof. intros H. apply store_statement_Forall. intros df p _ _. apply H. Qed.

Lemma fundamentals_body_effects (t : Ticker) (b : string) :
  exists w,
    Forall only_exec w
    /\ match snd (fundamentals_body t b) with
       | Ok _ => fst (fetch_and_store_fundamentals t b) = w ++ [Commit]
       | Raise e =>
           fst (fetch_and_store_fundamentals t b)
           = w ++ [Print (LOG_FUNDAMENTALS_ERROR b e)]
       end.
Proof.
  unfold fetch_and_store_fundamentals, fundamentals_body.
  assert (H1 : Forall only_exec
                 (fst (store_statement (yf_balance_sheet t) (store_balance_sheet_row b)))).
  { apply store_statement_only_exec. intros p. unfold store_balance_sheet_row.
    effects. exact I. }
  assert (H2 : Forall only_exec
                 (fst (store_statement (yf_financials t) (store_income_statement_row b)))).
  { apply store_statement_only_exec. intros p. unfold store_income_statement_row.
    effects. exact I. }
  assert (H3 : Forall only_exec
                 (fst (store_statement (yf_cashflow t) (store_cashflow_statement_row b)))).
  { apply store_statement_only_exec. intros p. unfold store_cashflow_statement_row.
    effects. exact I. }
  destruct (store_statement (yf_balance_sheet t) (store_balance_sheet_row b))
    as [w1 [[]|e1]];
    destruct (store_statement (yf_financials t) (store_income_statement_row b))
      as [w2 [[]|e2]];
    destruct (store_statement (yf_cashflow t) (store_cashflow_statement_row b))
      as [w3 [[]|e3]];
    cbn [fst snd] in *; simpl;
    first [ exists (w1 ++ w2 ++ w3); split;
            [repeat (apply Forall_app; split); assumption
            |rewrite <- ?app_assoc; reflexivity]
          | exists (w1 ++ w2); split;
            [repeat (apply Forall_app; split); assumption
            |rewrite <- ?app_assoc; reflexivity]
          | exists w1; split; [assumption|reflexivity] ].
Qed.

Lemma fundamentals_body_completes (t : Ticker) (b : string) (bs inc cf : option DataFrame) :
  yf_balance_sheet t = Ok bs ->
  yf_financials t = Ok inc ->
  yf_cashflow t = Ok cf ->
  distinct_fields (frame_rows bs) ->
  distinct_fields (frame_rows inc) ->
  distinct_fields (frame_rows cf) ->
  snd (fundamentals_body t b) = Ok tt.
Proof.
  intros Hbs Hinc Hcf Dbs Dinc Dcf. unfold fundamentals_body.
  rewrite Hbs, Hinc, Hcf.
  rewrite store_balance_sheet_rows, store_income_statement_rows,
    store_cashflow_statement_rows by assumption.
  reflexivity.
Qed.

(** X18: what a ticker's turn commits.  When its price and its info are
    retrieved, the shares of the info are not [None], its three statements
    are retrieved and every period of them has distinct field names once
    stripped, the turn ends with everything written so far on the connection
    committed.  When the statement upserter fails (a statement cannot be
    retrieved, or a metric cannot be converted), the turn commits nothing:
    the committed database is the one from before the turn, and the rows of
    the turn, if it wrote any, wait for a later commit.  A turn that is skipped or ends in an
    exception before its first write leaves the store as it is. *)
Theorem ticker_turn_commit_boundary :
  forall (env : Env) (b : string) (s : store),
    (forall price info bs inc cf,
        snd (resolve_price (yf_Ticker env b)) = Ok (Some price) ->
        yf_info (yf_Ticker env b) = Ok info ->
        shares_known info ->
        yf_balance_sheet (yf_Ticker env b) = Ok bs ->
        yf_financials (yf_Ticker env b) = Ok inc ->
        yf_cashflow (yf_Ticker env b) = Ok cf ->
        distinct_fields (frame_rows bs) ->
        distinct_fields (frame_rows inc) ->
        distinct_fields (frame_rows cf) ->
        durable (run (fst (ticker_block env b)) s)
        = working (run (fst (ticker_block env b)) s))
    /\ (forall e,
          snd (fundamentals_body (yf_Ticker env b) b) = Raise e ->
          durable (run (fst (ticker_block env b)) s) = durable s)
    /\ (snd (process_ticker env b) <> Ok tt
        \/ snd (resolve_price (yf_Ticker env b)) = Ok None ->
        run (fst (ticker_block env b)) s = s).
Proof.
  intros env b s.
  destruct (fundamentals_body_effects (yf_Ticker env b) b) as [w [Hw Hf]].
  split; [|split].
  - intros price info bs inc cf Hp Hi Hsh Hbs Hinc Hcf Dbs Dinc Dcf.
    rewrite (fundamentals_body_completes _ b bs inc cf) in Hf by assumption.
    unfold ticker_block.
    destruct (process_ticker_writes env b price info Hp Hi Hsh) as [st [cur [Hst E]]].
    rewrite E. cbn [fst try_except]. rewrite Hf.
    change (?a :: ?b0 :: ?c :: ?d :: ?l) with ([a; b0; c; d] ++ l).
    rewrite <- app_assoc, !run_app. reflexivity.
  - intros e Hraise. rewrite Hraise in Hf. unfold ticker_block.
    destruct (process_ticker_cases env b)
      as [[e' [E _]]|[[_ E]|[price [st [cur [_ [_ E]]]]]]]; rewrite E.
    + reflexivity.
    + reflexivity.
    + cbn [fst try_except]. rewrite Hf.
      change (?a :: ?b0 :: ?c :: ?d :: ?l) with ([a; b0; c; d] ++ l).
      rewrite <- app_assoc, !run_app.
      destruct (run_only_exec w (run [Exec st;
          Exec (INSERT_OR_REPLACE_prices b (pd_Timestamp_now (clock env b)) price
                  (sql_CURRENT_TIMESTAMP (clock env b)));
          Exec (INSERT_OR_IGNORE_price_history b (sql_DATE_now (clock env b)) price
                  (sql_CURRENT_TIMESTAMP (clock env b)));
          Print (LOG_SYNC b)] s) Hw) as [Hd _].
      simpl. simpl in Hd. exact Hd.
  - intros H. unfold ticker_block.
    destruct (process_ticker_cases env b)
      as [[e [E _]]|[[Hn E]|[p [st [cur [Hp' [Hst E]]]]]]]; rewrite E in *.
    + reflexivity.
    + reflexivity.
    + destruct H as [H|H]; [now contradiction H|congruence].
Qed.

Lemma ticker_turn_commit_boundary_witness :
  durable (run (fst (ticker_block full_env "FULL")) (mk_store init_db init_db))
  = working (run (fst (ticker_block full_env "FULL")) (mk_store init_db init_db))
  /\ durable (run (fst (ticker_block an_env "BSFAIL")) (mk_store init_db init_db))
     = init_db
  /\ durable (run (fst (ticker_block an_env "TWIN")) (mk_store init_db init_db))
     = init_db
  /\ run (fst (ticker_block an_env "BAD")) (mk_store init_db init_db)
     = mk_store init_db init_db
  /\ run (fst (ticker_block an_env "NOSHARES")) (mk_store init_db init_db)
     = mk_store init_db init_db.
Proof.
  split; [|split; [|split; [|split]]].
  - destruct (ticker_turn_commit_boundary full_env "FULL" (mk_store init_db init_db))
      as [H _].
    apply (H 10%float
             (Some (mk_Info (Holds (Some 100%float)) Missing (Holds (Some 0%float))
                            Missing (Holds None) Missing))
             (Some [("2023-12-31", [(" Total Assets ", 100%float); ("Total Debt", NaN)]);
                    ("2022-12-31", [("Total Assets", 90%float);
                                    ("Long Term Debt", 7%float)])])
             None
             (Some [("2023-12-31", [("Capital Expenditure", (-3)%float)])]));
      try reflexivity.
    + discriminate.
    + repeat constructor; simpl; intuition discriminate.
    + constructor.
    + repeat constructor; simpl; intuition discriminate.
  - destruct (ticker_turn_commit_boundary an_env "BSFAIL" (mk_store init_db init_db))
      as [_ [H _]].
    apply (H "JSONDecodeError"). reflexivity.
  - destruct (ticker_turn_commit_boundary an_env "TWIN" (mk_store init_db init_db))
      as [_ [H _]].
    apply (H "TypeError: cannot convert the series to <class 'float'>"). reflexivity.
  - destruct (ticker_turn_commit_boundary an_env "BAD" (mk_store init_db init_db))
      as [_ [_ H]].
    apply H. right. reflexivity.
  - destruct (ticker_turn_commit_boundary an_env "NOSHARES" (mk_store init_db init_db))
      as [_ [_ H]].
    apply H. left. discriminate.
Defined.
